(** * Agent orchestration layer: a shallow embedding and its properties

    The development follows the Python sources of the repository:

    - [backend/supervisor-agent/agent_registry.py]  (modules [Registry]
      and [Loader])
    - [backend/supervisor-agent/bedrock_agent/client.py] (module [Bedrock])
    - [backend/supervisor-agent/client.py]          (module [ChatClient])
    - [backend/supervisor-agent/a2a_protocol.py]    (module [Protocol])
    - [backend/supervisor-agent/supervisor_agent.py] (module [Supervisor])
    - [backend/git-mcp-agent/mcp_client.py]         (module [MCP])
    - [backend/git-mcp-agent/agent.py]              (module [GitHubAgent])

    Python values are modelled by the inductive type [json]; a Python
    [dict] is an association list in insertion order; a [str] is a Rocq
    [string] (a sequence of bytes).  Calls that leave the process (HTTP
    round trips, the Bedrock runtime) are answered by oracles stored in a
    [World], which also logs every request that was issued.  Exceptions
    are values of the type [result]. *)

From Stdlib Require Import ZArith Ascii DecimalString DecimalZ DecimalPos DecimalN DecimalFacts.
From stdpp Require Import base list strings gmap sorting pretty.

Open Scope Z_scope.
Set Warnings "-register-all".

(* ===================================================================== *)
(** * Part I: the embedding                                              *)
(* ===================================================================== *)

(** ** Python prelude *)

Module Py.

(** *** Strings *)

Definition is_upper (c : Ascii.ascii) : bool :=
  (65 <=? Ascii.nat_of_ascii c)%nat && (Ascii.nat_of_ascii c <=? 90)%nat.

(** [str.lower()] on the ASCII range; bytes outside ['A'..'Z'] (among
    them the bytes of multi-byte UTF-8 sequences) are left as they are. *)
Definition lower_char (c : Ascii.ascii) : Ascii.ascii :=
  if is_upper c then Ascii.ascii_of_nat (Ascii.nat_of_ascii c + 32) else c.

Fixpoint lower (s : string) : string :=
  match s with
  | EmptyString => EmptyString
  | String c s' => String (lower_char c) (lower s')
  end.

(** [needle in haystack] for two [str] operands. *)
Fixpoint str_contains (haystack needle : string) : bool :=
  String.prefix needle haystack ||
  match haystack with
  | EmptyString => false
  | String _ h' => str_contains h' needle
  end.

(** [sep.join(parts)] *)
Fixpoint join (sep : string) (parts : list string) : string :=
  match parts with
  | [] => ""
  | [p] => p
  | p :: ps => p +:+ sep +:+ join sep ps
  end.

(** *** Dynamic values *)

Inductive json : Type :=
| JNull
| JBool (b : bool)
| JInt (n : Z)
| JStr (s : string)
| JArr (items : list json)
| JObj (members : list (string * json)).

(** Truthiness of a value, as used by [if x], [x or y], [not x]. *)
Definition truthy (j : json) : bool :=
  match j with
  | JNull => false
  | JBool b => b
  | JInt n => negb (n =? 0)
  | JStr s => negb (String.eqb s "")
  | JArr l => match l with [] => false | _ => true end
  | JObj l => match l with [] => false | _ => true end
  end.

(** *** Dictionaries: association lists in insertion order *)

Section Dict.
Context {V : Type}.

Fixpoint dict_get (k : string) (d : list (string * V)) : option V :=
  match d with
  | [] => None
  | (k', v) :: d' => if String.eqb k k' then Some v else dict_get k d'
  end.

Definition dict_contains (k : string) (d : list (string * V)) : bool :=
  match dict_get k d with Some _ => true | None => false end.

(** [d[k] = v]: an existing key keeps its position, a new key goes
    to the end. *)
Fixpoint dict_set (k : string) (v : V) (d : list (string * V))
  : list (string * V) :=
  match d with
  | [] => [(k, v)]
  | (k', v') :: d' =>
      if String.eqb k k' then (k, v) :: d' else (k', v') :: dict_set k v d'
  end.

(** [del d[k]] for a key that is present. *)
Fixpoint dict_del (k : string) (d : list (string * V))
  : list (string * V) :=
  match d with
  | [] => []
  | (k', v') :: d' =>
      if String.eqb k k' then d' else (k', v') :: dict_del k d'
  end.

Definition dict_keys (d : list (string * V)) : list string := d.*1.
End Dict.

(** *** Exceptions *)

(** Every exception the modelled code meets is caught as [Exception];
    only its message ([str(e)]) is ever used. *)
Record exn : Type := Exception { exn_msg : string }.

Inductive result (A : Type) : Type :=
| Ok (a : A)
| Raise (e : exn).
Arguments Ok {A} a.
Arguments Raise {A} e.

End Py.
Export Py.

(** ** agent_registry.py *)

Module Registry.

(** One entry of [routing_rules]; a field is [None] when the key is
    absent from the rule's mapping. *)
Record RoutingRule : Type := {
  rule_keywords : option (list string);
  rule_agent    : option string;
  rule_priority : option Z
}.

(** One value of the [agents] mapping. *)
Record AgentConfig : Type := {
  cfg_id                    : option string;
  cfg_name                  : option string;
  cfg_type                  : option string;
  cfg_description           : option string;
  cfg_capabilities          : option (list string);
  cfg_endpoint              : option string;
  cfg_capabilities_endpoint : option string;
  cfg_query_endpoint        : option string;
  cfg_config                : option (list (string * json))
}.

(** [not config]: the mapping has no key at all. *)
Definition cfg_is_empty (c : AgentConfig) : bool :=
  match cfg_id c, cfg_name c, cfg_type c, cfg_description c,
        cfg_capabilities c, cfg_endpoint c, cfg_capabilities_endpoint c,
        cfg_query_endpoint c, cfg_config c with
  | None, None, None, None, None, None, None, None, None => true
  | _, _, _, _, _, _, _, _, _ => false
  end.

Record AgentRegistry : Type := {
  config_file       : string;
  agents            : list (string * AgentConfig);
  routing_rules     : list RoutingRule;
  default_agent     : option string;
  supervisor_config : list (string * json)
}.

Definition get_agent_config (reg : AgentRegistry) (agent_key : string)
  : option AgentConfig :=
  match dict_get agent_key (agents reg) with
  | Some cfg => Some cfg
  | None =>
      snd <$> find (fun kc => bool_decide (cfg_id (snd kc) = Some agent_key))
                   (agents reg)
  end.

Definition is_agent_available (reg : AgentRegistry) (agent_key : string)
  : bool :=
  match get_agent_config reg agent_key with Some _ => true | None => false end.

Definition get_keywords (r : RoutingRule) : list string :=
  default [] (rule_keywords r).

Definition get_priority (r : RoutingRule) : Z :=
  default 999 (rule_priority r).

(** [any(keyword in query_lower for keyword in keywords)] *)
Definition rule_matches (query_lower : string) (r : RoutingRule) : bool :=
  existsb (str_contains query_lower) (get_keywords r).

(** [priority < highest_priority], where [None] stands for
    [float('inf')]. *)
Definition below (priority : Z) (highest_priority : option Z) : bool :=
  match highest_priority with
  | None => true
  | Some h => priority <? h
  end.

(** The body of the [for rule in self.routing_rules] loop, threading
    [(best_match, highest_priority)]. *)
Fixpoint route_loop (query_lower : string) (rules : list RoutingRule)
    (best_match : option string) (highest_priority : option Z)
  : option string * option Z :=
  match rules with
  | [] => (best_match, highest_priority)
  | rule :: rest =>
      if rule_matches query_lower rule
         && below (get_priority rule) highest_priority
      then route_loop query_lower rest (rule_agent rule)
                      (Some (get_priority rule))
      else route_loop query_lower rest best_match highest_priority
  end.

(** [a or b] for two optional strings. *)
Definition or_else (a b : option string) : option string :=
  match a with
  | Some s => if String.eqb s "" then b else a
  | None => b
  end.

Definition route_query (reg : AgentRegistry) (query : string)
  : option string :=
  let query_lower := lower query in
  or_else (route_loop query_lower (routing_rules reg) None None).1
          (default_agent reg).

(** [capability in agent_config.get('capabilities', [])] *)
Definition has_capability (capability : string) (cfg : AgentConfig) : bool :=
  bool_decide (capability ∈ default [] (cfg_capabilities cfg)).

(** [agent_config.get('type') == agent_type] *)
Definition has_type (agent_type : string) (cfg : AgentConfig) : bool :=
  bool_decide (cfg_type cfg = Some agent_type).

(** The loop of [find_agents_by_capability] and of [get_agents_by_type]:
    [agent_config['id']] of every selected agent, in the order of the
    mapping; a selected agent without [id] ends the loop with a
    [KeyError]. *)
Fixpoint ids_where (selected : AgentConfig -> bool)
    (entries : list (string * AgentConfig)) : result (list string) :=
  match entries with
  | [] => Ok []
  | (_, agent_config) :: rest =>
      if selected agent_config then
        match cfg_id agent_config with
        | Some i =>
            match ids_where selected rest with
            | Ok matching_agents => Ok (i :: matching_agents)
            | Raise e => Raise e
            end
        | None => Raise (Exception "'id'")
        end
      else ids_where selected rest
  end.

Definition find_agents_by_capability (reg : AgentRegistry)
    (capability : string) : result (list string) :=
  ids_where (has_capability capability) (agents reg).

Definition get_agents_by_type (reg : AgentRegistry) (agent_type : string)
  : result (list string) :=
  ids_where (has_type agent_type) (agents reg).

(** [config.get('capabilities', []) if config else []] *)
Definition get_agent_capabilities (reg : AgentRegistry) (agent_key : string)
  : list string :=
  match get_agent_config reg agent_key with
  | Some config =>
      if cfg_is_empty config then [] else default [] (cfg_capabilities config)
  | None => []
  end.

Definition list_all_agents (reg : AgentRegistry)
  : list (string * AgentConfig) :=
  agents reg.

Definition get_routing_rules (reg : AgentRegistry) : list RoutingRule :=
  routing_rules reg.

End Registry.

(** ** Python text: [str()], [repr()], [strip()] *)

Module PyText.

Definition chr (n : nat) : Ascii.ascii := Ascii.ascii_of_nat n.
Definition ord (c : Ascii.ascii) : nat := Ascii.nat_of_ascii c.

Definition dquote : Ascii.ascii := Eval cbv in chr 34.
Definition squote : Ascii.ascii := Eval cbv in chr 39.
Definition backslash : Ascii.ascii := Eval cbv in chr 92.
Definition newline : Ascii.ascii := Eval cbv in chr 10.

(** The one-character string, and the line break used by the f-strings. *)
Definition str1 (c : Ascii.ascii) : string := String c EmptyString.
Definition nl : string := str1 newline.

(** Decimal rendering of an [int]. *)
Definition dump_int (n : Z) : string := NilZero.string_of_int (Z.to_int n).

Definition hex_digit (n : nat) : Ascii.ascii :=
  if (n <? 10)%nat then chr (48 + n) else chr (87 + n).

(** ["%02x" % ord(c)] *)
Definition hex2 (c : Ascii.ascii) : string :=
  String (hex_digit (ord c / 16)) (str1 (hex_digit (ord c mod 16))).

Fixpoint has_char (c : Ascii.ascii) (s : string) : bool :=
  match s with
  | EmptyString => false
  | String d s' => Ascii.eqb c d || has_char c s'
  end.

(** [repr] of a [str]: single quotes unless the text holds a single and no
    double quote; backslash, the chosen quote, tab, line feed, carriage
    return and the other control characters are escaped. *)
Fixpoint repr_chars (quote : Ascii.ascii) (s : string) : string :=
  match s with
  | EmptyString => EmptyString
  | String c s' =>
      (if Ascii.eqb c quote || Ascii.eqb c backslash
       then String backslash (str1 c)
       else if Ascii.eqb c (chr 9) then String backslash "t"
       else if Ascii.eqb c newline then String backslash "n"
       else if Ascii.eqb c (chr 13) then String backslash "r"
       else if (ord c <? 32)%nat || (ord c =? 127)%nat
            then String backslash ("x" +:+ hex2 c)
       else str1 c)
      +:+ repr_chars quote s'
  end.

Definition repr_str (s : string) : string :=
  let quote :=
    if has_char squote s && negb (has_char dquote s) then dquote else squote in
  String quote (repr_chars quote s +:+ str1 quote).

(** [repr(value)] *)
Fixpoint py_repr (j : json) : string :=
  match j with
  | JNull => "None"
  | JBool true => "True"
  | JBool false => "False"
  | JInt n => dump_int n
  | JStr s => repr_str s
  | JArr items => "[" +:+ join ", " (map py_repr items) +:+ "]"
  | JObj members =>
      "{" +:+
      join ", "
        (map (fun kv => let '(k, v) := kv in repr_str k +:+ ": " +:+ py_repr v)
             members)
      +:+ "}"
  end.

(** [str(value)], which is also what an f-string field renders. *)
Definition py_str (j : json) : string :=
  match j with
  | JStr s => s
  | _ => py_repr j
  end.

(** [type(value).__name__] *)
Definition type_name (j : json) : string :=
  match j with
  | JNull => "NoneType"
  | JBool _ => "bool"
  | JInt _ => "int"
  | JStr _ => "str"
  | JArr _ => "list"
  | JObj _ => "dict"
  end.

(** The white space [str.strip()] removes, on the ASCII range. *)
Definition is_space (c : Ascii.ascii) : bool :=
  ((9 <=? ord c)%nat && (ord c <=? 13)%nat)
  || ((28 <=? ord c)%nat && (ord c <=? 32)%nat).

Fixpoint lstrip (s : string) : string :=
  match s with
  | EmptyString => EmptyString
  | String c s' => if is_space c then lstrip s' else s
  end.

Definition strip (s : string) : string :=
  String.rev (lstrip (String.rev (lstrip s))).

End PyText.
Export PyText.

(** ** agent_registry.py: loading

    [yaml.safe_load] hands over whatever the file holds and
    [load_config] stores the four tables without looking at them.  Here
    the attributes of the registry are plain Python values; [Registry]
    above is the registry whose tables have the documented shape (see
    [typed_view] and [route_query_typed]).  The values are those of the type [json]: floats,
    dates and mappings with keys that are not texts are not covered, and
    a text is iterated byte by byte. *)

Module Loader.

Record RawRegistry : Type := {
  config_file       : string;
  agents            : json;
  routing_rules     : json;
  default_agent     : json;
  supervisor_config : json
}.

(** The configuration source as [load_config] meets it. *)
Inductive ConfigSource : Type :=
| SourceMissing                    (* [os.path.exists] is false *)
| SourceUnreadable (e : exn)       (* [open] or [yaml.safe_load] raises *)
| SourceParsed (config : json).    (* what [yaml.safe_load] returned *)

(** [value.get(key, default)] *)
Definition get (value : json) (key : string) (dflt : json) : result json :=
  match value with
  | JObj members => Ok (default dflt (dict_get key members))
  | other =>
      Raise (Exception ("'" +:+ type_name other +:+
                        "' object has no attribute 'get'"))
  end.

(** The two assignments of the early return and of the [except]
    branch. *)
Definition cleared (reg : RawRegistry) : RawRegistry :=
  {| config_file := config_file reg; agents := JObj [];
     routing_rules := JArr []; default_agent := default_agent reg;
     supervisor_config := supervisor_config reg |}.

Definition load_config (reg : RawRegistry) (src : ConfigSource)
  : RawRegistry :=
  match src with
  | SourceMissing => cleared reg
  | SourceUnreadable _ => cleared reg
  | SourceParsed config =>
      match get config "agents" (JObj []) with
      | Raise _ => cleared reg
      | Ok agents' =>
          let reg1 :=
            {| config_file := config_file reg; agents := agents';
               routing_rules := routing_rules reg;
               default_agent := default_agent reg;
               supervisor_config := supervisor_config reg |} in
          match get config "routing_rules" (JArr []) with
          | Raise _ => cleared reg1
          | Ok routing_rules' =>
              let reg2 :=
                {| config_file := config_file reg1; agents := agents reg1;
                   routing_rules := routing_rules';
                   default_agent := default_agent reg1;
                   supervisor_config := supervisor_config reg1 |} in
              match get config "default_agent" (JStr "github-agent") with
              | Raise _ => cleared reg2
              | Ok default_agent' =>
                  let reg3 :=
                    {| config_file := config_file reg2;
                       agents := agents reg2;
                       routing_rules := routing_rules reg2;
                       default_agent := default_agent';
                       supervisor_config := supervisor_config reg2 |} in
                  match get config "supervisor_config" (JObj []) with
                  | Raise _ => cleared reg3
                  | Ok supervisor_config' =>
                      {| config_file := config_file reg3;
                         agents := agents reg3;
                         routing_rules := routing_rules reg3;
                         default_agent := default_agent reg3;
                         supervisor_config := supervisor_config' |}
                  end
              end
          end
      end
  end.

(** [AgentRegistry.__init__] *)
Definition init (file : string) (src : ConfigSource) : RawRegistry :=
  load_config
    {| config_file := file; agents := JObj []; routing_rules := JArr [];
       default_agent := JNull; supervisor_config := JObj [] |}
    src.

(** The values a [for] loop over [value] visits. *)
Definition iterate (value : json) : result (list json) :=
  match value with
  | JArr items => Ok items
  | JObj members => Ok (map (fun kv => JStr (fst kv)) members)
  | JStr s => Ok (map (fun c => JStr (str1 c)) (String.list_ascii_of_string s))
  | other =>
      Raise (Exception ("'" +:+ type_name other +:+
                        "' object is not iterable"))
  end.

(** [keyword in query_lower] *)
Definition contained (keyword : json) (query_lower : string) : result bool :=
  match keyword with
  | JStr k => Ok (str_contains query_lower k)
  | other =>
      Raise (Exception ("'in <string>' requires string as left operand, not "
                        +:+ type_name other))
  end.

(** [any(keyword in query_lower for keyword in keywords)], once
    [keywords] is known to be iterable. *)
Fixpoint any_contained (keywords : list json) (query_lower : string)
  : result bool :=
  match keywords with
  | [] => Ok false
  | keyword :: rest =>
      match contained keyword query_lower with
      | Raise e => Raise e
      | Ok true => Ok true
      | Ok false => any_contained rest query_lower
      end
  end.

(** The numbers among the values: an [int], or a [bool], which counts
    as 0 or 1. *)
Definition as_number (value : json) : option Z :=
  match value with
  | JInt n => Some n
  | JBool b => Some (if b then 1 else 0)
  | _ => None
  end.

(** The [TypeError] of a comparison. *)
Definition not_comparable (left right : string) : exn :=
  Exception ("'<' not supported between instances of '" +:+ left +:+
             "' and '" +:+ right +:+ "'").

(** [priority < highest_priority].  [highest_priority] is
    [float('inf')] ([None] here) or a priority that has been compared
    before, hence a number; every [int] is below [float('inf')]. *)
Definition below (priority : json) (highest_priority : option json)
  : result bool :=
  match highest_priority with
  | None =>
      match as_number priority with
      | Some _ => Ok true
      | None => Raise (not_comparable (type_name priority) "float")
      end
  | Some highest =>
      match as_number priority, as_number highest with
      | Some p, Some h => Ok (p <? h)
      | _, _ =>
          Raise (not_comparable (type_name priority) (type_name highest))
      end
  end.

(** The body of the [for rule in self.routing_rules] loop, threading
    [(best_match, highest_priority)]; the value is [best_match] after the
    last rule. *)
Fixpoint route_loop (query_lower : string) (rules : list json)
    (best_match : json) (highest_priority : option json) : result json :=
  match rules with
  | [] => Ok best_match
  | rule :: rest =>
      match get rule "keywords" (JArr []) with
      | Raise e => Raise e
      | Ok keywords =>
      match get rule "priority" (JInt 999) with
      | Raise e => Raise e
      | Ok priority =>
      match iterate keywords with
      | Raise e => Raise e
      | Ok keywords' =>
      match any_contained keywords' query_lower with
      | Raise e => Raise e
      | Ok false => route_loop query_lower rest best_match highest_priority
      | Ok true =>
          match below priority highest_priority with
          | Raise e => Raise e
          | Ok false =>
              route_loop query_lower rest best_match highest_priority
          | Ok true =>
              match get rule "agent" JNull with
              | Raise e => Raise e
              | Ok agent =>
                  route_loop query_lower rest agent (Some priority)
              end
          end
      end end end end
  end.

Definition route_query (reg : RawRegistry) (query : string) : result json :=
  let query_lower := lower query in
  match iterate (routing_rules reg) with
  | Raise e => Raise e
  | Ok rules =>
      match route_loop query_lower rules JNull None with
      | Raise e => Raise e
      | Ok best_match =>
          Ok (if truthy best_match then best_match else default_agent reg)
      end
  end.

End Loader.

(** ** The [json] library: [json.dumps] and [json.loads]

    Integers, strings, booleans, [None], lists and dictionaries with
    string keys are covered; floats are not.  Text is rendered as
    [ensure_ascii] does on the ASCII range: the quote, the backslash and
    every byte outside [' '..'~'] below 128 are escaped; bytes from 128 on
    (UTF-8 sequences) are copied, where Python writes a [\u] escape. *)

Module Json.

Definition escape_char (c : Ascii.ascii) : string :=
  if Ascii.eqb c dquote then String backslash (str1 dquote)
  else if Ascii.eqb c backslash then String backslash (str1 backslash)
  else if Ascii.eqb c newline then String backslash "n"
  else if Ascii.eqb c (chr 13) then String backslash "r"
  else if Ascii.eqb c (chr 9) then String backslash "t"
  else if Ascii.eqb c (chr 8) then String backslash "b"
  else if Ascii.eqb c (chr 12) then String backslash "f"
  else if (ord c <? 32)%nat || (ord c =? 127)%nat
       then String backslash ("u00" +:+ hex2 c)
  else str1 c.

Fixpoint escape (s : string) : string :=
  match s with
  | EmptyString => EmptyString
  | String c s' => escape_char c +:+ escape s'
  end.

Definition dump_str (s : string) : string :=
  String dquote (escape s +:+ str1 dquote).

(** Insertion of one rendered member into a list ordered by key. *)
Fixpoint insert_by_key {V : Type} (kv : string * V) (l : list (string * V))
  : list (string * V) :=
  match l with
  | [] => [kv]
  | kv' :: l' =>
      if String.leb kv.1 kv'.1 then kv :: l else kv' :: insert_by_key kv l'
  end.

(** [sorted(d.items())] for a dictionary with string keys. *)
Definition sort_items {V : Type} (l : list (string * V)) : list (string * V) :=
  foldr insert_by_key [] l.

Definition dump_member (kv : string * string) : string :=
  dump_str kv.1 +:+ ": " +:+ kv.2.

(** [json.dumps(value, sort_keys=sort_keys)] with the default separators. *)
Fixpoint dumps (sort_keys : bool) (j : json) : string :=
  match j with
  | JNull => "null"
  | JBool true => "true"
  | JBool false => "false"
  | JInt n => dump_int n
  | JStr s => dump_str s
  | JArr items => "[" +:+ join ", " (map (dumps sort_keys) items) +:+ "]"
  | JObj members =>
      let rendered :=
        map (fun kv => let '(k, v) := kv in (k, dumps sort_keys v)) members in
      "{" +:+
      join ", "
        (map dump_member (if sort_keys then sort_items rendered else rendered))
      +:+ "}"
  end.

(** *** Parsing *)

Definition is_ws (c : Ascii.ascii) : bool :=
  Ascii.eqb c " "%char || Ascii.eqb c (chr 9) || Ascii.eqb c newline
  || Ascii.eqb c (chr 13).

Fixpoint skip_ws (s : string) : string :=
  match s with
  | EmptyString => EmptyString
  | String c s' => if is_ws c then skip_ws s' else s
  end.

Definition hex_val (c : Ascii.ascii) : option nat :=
  let n := ord c in
  if (48 <=? n)%nat && (n <=? 57)%nat then Some (n - 48)%nat
  else if (97 <=? n)%nat && (n <=? 102)%nat then Some (n - 87)%nat
  else if (65 <=? n)%nat && (n <=? 70)%nat then Some (n - 55)%nat
  else None.

(** The code point of a [\uXXXX] escape. *)
Definition hex4 (a b c d : Ascii.ascii) : option nat :=
  match hex_val a, hex_val b, hex_val c, hex_val d with
  | Some x, Some y, Some z, Some w =>
      Some (((x * 16 + y) * 16 + z) * 16 + w)%nat
  | _, _, _, _ => None
  end.

Definition cons_char (c : Ascii.ascii) (r : option (string * string))
  : option (string * string) :=
  match r with
  | Some (body, rest) => Some (String c body, rest)
  | None => None
  end.

(** The text of a string literal after its opening quote, and what
    follows the closing quote.  A [\u] escape is accepted for code points
    below 128. *)
Fixpoint parse_chars (s : string) : option (string * string) :=
  match s with
  | EmptyString => None
  | String c s' =>
      if Ascii.eqb c dquote then Some (EmptyString, s')
      else if Ascii.eqb c backslash then
        match s' with
        | EmptyString => None
        | String e s'' =>
            if Ascii.eqb e dquote then cons_char dquote (parse_chars s'')
            else if Ascii.eqb e backslash
                 then cons_char backslash (parse_chars s'')
            else if Ascii.eqb e "/"%char then cons_char "/"%char (parse_chars s'')
            else if Ascii.eqb e "b"%char then cons_char (chr 8) (parse_chars s'')
            else if Ascii.eqb e "f"%char then cons_char (chr 12) (parse_chars s'')
            else if Ascii.eqb e "n"%char then cons_char newline (parse_chars s'')
            else if Ascii.eqb e "r"%char then cons_char (chr 13) (parse_chars s'')
            else if Ascii.eqb e "t"%char then cons_char (chr 9) (parse_chars s'')
            else if Ascii.eqb e "u"%char then
              match s'' with
              | String h1 (String h2 (String h3 (String h4 s3))) =>
                  match hex4 h1 h2 h3 h4 with
                  | Some n =>
                      if (n <? 128)%nat
                      then cons_char (chr n) (parse_chars s3)
                      else None
                  | None => None
                  end
              | _ => None
              end
            else None
        end
      else if (ord c <? 32)%nat then None
      else cons_char c (parse_chars s')
  end.

Definition digit_of (c : Ascii.ascii)
  : option (Decimal.uint -> Decimal.uint) :=
  if Ascii.eqb c "0"%char then Some Decimal.D0
  else if Ascii.eqb c "1"%char then Some Decimal.D1
  else if Ascii.eqb c "2"%char then Some Decimal.D2
  else if Ascii.eqb c "3"%char then Some Decimal.D3
  else if Ascii.eqb c "4"%char then Some Decimal.D4
  else if Ascii.eqb c "5"%char then Some Decimal.D5
  else if Ascii.eqb c "6"%char then Some Decimal.D6
  else if Ascii.eqb c "7"%char then Some Decimal.D7
  else if Ascii.eqb c "8"%char then Some Decimal.D8
  else if Ascii.eqb c "9"%char then Some Decimal.D9
  else None.

(** The longest run of digits at the head of [s]. *)
Fixpoint parse_digits (s : string) : Decimal.uint * string :=
  match s with
  | EmptyString => (Decimal.Nil, s)
  | String c s' =>
      match digit_of c with
      | Some d => let '(ds, rest) := parse_digits s' in (d ds, rest)
      | None => (Decimal.Nil, s)
      end
  end.

(** A fraction or an exponent would make the number a float. *)
Definition starts_float_part (s : string) : bool :=
  match s with
  | String c _ => Ascii.eqb c "."%char || Ascii.eqb c "e"%char || Ascii.eqb c "E"%char
  | EmptyString => false
  end.

(** [0] or a digit run without a leading zero. *)
Definition parse_uint (s : string) : option (Decimal.uint * string) :=
  match s with
  | String c s' =>
      if Ascii.eqb c "0"%char then
        if starts_float_part s' then None
        else Some (Decimal.D0 Decimal.Nil, s')
      else
        match parse_digits s with
        | (Decimal.Nil, _) => None
        | (ds, rest) => if starts_float_part rest then None else Some (ds, rest)
        end
  | EmptyString => None
  end.

Definition parse_int (s : string) : option (Z * string) :=
  match s with
  | String c s' =>
      if Ascii.eqb c "-"%char then
        match parse_uint s' with
        | Some (ds, rest) => Some (Z.of_int (Decimal.Neg ds), rest)
        | None => None
        end
      else
        match parse_uint s with
        | Some (ds, rest) => Some (Z.of_int (Decimal.Pos ds), rest)
        | None => None
        end
  | EmptyString => None
  end.

(** The rest of [s] after the literal [lit], when [s] starts with it. *)
Fixpoint expect (lit s : string) : option string :=
  match lit with
  | EmptyString => Some s
  | String c lit' =>
      match s with
      | String d s' => if Ascii.eqb c d then expect lit' s' else None
      | EmptyString => None
      end
  end.

(** [dict(pairs)]: a repeated key keeps its first position and its last
    value. *)
Definition dict_of_pairs (pairs : list (string * json))
  : list (string * json) :=
  fold_left (fun d kv => dict_set kv.1 kv.2 d) pairs [].

(** The recursive-descent parser.  [fuel] bounds the nesting and the
    number of elements; [loads] provides enough of it. *)
Fixpoint parse_value (fuel : nat) (s : string) : option (json * string) :=
  match fuel with
  | O => None
  | S fuel' =>
      match skip_ws s with
      | EmptyString => None
      | String c rest =>
          if Ascii.eqb c "n"%char then
            match expect "ull" rest with
            | Some r => Some (JNull, r)
            | None => None
            end
          else if Ascii.eqb c "t"%char then
            match expect "rue" rest with
            | Some r => Some (JBool true, r)
            | None => None
            end
          else if Ascii.eqb c "f"%char then
            match expect "alse" rest with
            | Some r => Some (JBool false, r)
            | None => None
            end
          else if Ascii.eqb c dquote then
            match parse_chars rest with
            | Some (body, r) => Some (JStr body, r)
            | None => None
            end
          else if Ascii.eqb c "["%char then
            match skip_ws rest with
            | String d r =>
                if Ascii.eqb d "]"%char then Some (JArr [], r)
                else
                  match parse_items fuel' rest with
                  | Some (items, r') => Some (JArr items, r')
                  | None => None
                  end
            | EmptyString => None
            end
          else if Ascii.eqb c "{"%char then
            match skip_ws rest with
            | String d r =>
                if Ascii.eqb d "}"%char then Some (JObj [], r)
                else
                  match parse_members fuel' rest with
                  | Some (members, r') => Some (JObj (dict_of_pairs members), r')
                  | None => None
                  end
            | EmptyString => None
            end
          else
            match parse_int (String c rest) with
            | Some (n, r) => Some (JInt n, r)
            | None => None
            end
      end
  end

with parse_items (fuel : nat) (s : string) : option (list json * string) :=
  match fuel with
  | O => None
  | S fuel' =>
      match parse_value fuel' s with
      | Some (v, rest) =>
          match skip_ws rest with
          | String d r =>
              if Ascii.eqb d ","%char then
                match parse_items fuel' r with
                | Some (vs, r') => Some (v :: vs, r')
                | None => None
                end
              else if Ascii.eqb d "]"%char then Some ([v], r)
              else None
          | EmptyString => None
          end
      | None => None
      end
  end

with parse_members (fuel : nat) (s : string)
  : option (list (string * json) * string) :=
  match fuel with
  | O => None
  | S fuel' =>
      match skip_ws s with
      | String q rest =>
          if Ascii.eqb q dquote then
            match parse_chars rest with
            | Some (k, rest1) =>
                match skip_ws rest1 with
                | String colon rest2 =>
                    if Ascii.eqb colon ":"%char then
                      match parse_value fuel' rest2 with
                      | Some (v, rest3) =>
                          match skip_ws rest3 with
                          | String d r =>
                              if Ascii.eqb d ","%char then
                                match parse_members fuel' r with
                                | Some (kvs, r') => Some ((k, v) :: kvs, r')
                                | None => None
                                end
                              else if Ascii.eqb d "}"%char then Some ([(k, v)], r)
                              else None
                          | EmptyString => None
                          end
                      | None => None
                      end
                    else None
                | EmptyString => None
                end
            | None => None
            end
          else None
      | EmptyString => None
      end
  end.

(** [json.loads(text)]; [None] stands for the [JSONDecodeError]. *)
Definition loads (text : string) : option json :=
  match parse_value (S (String.length text)) text with
  | Some (j, rest) =>
      match skip_ws rest with
      | EmptyString => Some j
      | String _ _ => None
      end
  | None => None
  end.

(** A value is well formed when no dictionary inside it repeats a key,
    as is the case for every Python value. *)
Fixpoint json_wf (j : json) : bool :=
  match j with
  | JArr items => forallb json_wf items
  | JObj members =>
      bool_decide (NoDup members.*1)
      && forallb (fun kv => let '(k, v) := kv in json_wf v) members
  | _ => true
  end.

(** A bound on the fuel the parser needs for a value. *)
Fixpoint json_size (j : json) : nat :=
  match j with
  | JArr items => S (sum_list_with (fun v => S (json_size v)) items)
  | JObj members =>
      S (sum_list_with (fun kv => let '(k, v) := kv in S (json_size v)) members)
  | _ => 1
  end.

End Json.

(** ** The outside world

    Every call that leaves the process is answered by an oracle, indexed
    by the number of calls of its kind made so far, and is appended to a
    log.  Output on the console is not modelled. *)

Module World.

Record http_request : Type := {
  req_url     : string;
  req_headers : list (string * string);
  req_body    : json
}.

Record http_response : Type := {
  status_code     : Z;
  resp_session_id : option string;   (* [headers.get('Mcp-Session-Id')] *)
  resp_json       : result json;     (* [response.json()] *)
  resp_text       : string
}.

Inductive http_outcome : Type :=
| HttpFails (e : exn)
| HttpAnswers (r : http_response).

(** One event of the [completion] stream of [invoke_agent]; [chunk_bytes]
    is the decoded text of a chunk that has a [bytes] field. *)
Inductive bedrock_event : Type :=
| EvChunk (chunk_bytes : option string)
| EvOther.

(** How an invocation ends: the stream is delivered to its end; the call
    fails before any event, with a [ClientError] or with another
    exception; or the stream fails, in either way, after the events it
    has delivered. *)
Inductive bedrock_outcome : Type :=
| BedrockStream (events : list bedrock_event)
| BedrockClientError (code message : string)
| BedrockFails (e : exn)
| BedrockStreamClientError (events : list bedrock_event)
                           (code message : string)
| BedrockStreamFails (events : list bedrock_event) (e : exn).

Record world : Type := {
  http_log       : list http_request;
  http_oracle    : nat -> http_request -> http_outcome;
  bedrock_log    : list json;
  bedrock_oracle : nat -> json -> bedrock_outcome;
  ids_drawn      : nat;
  uuid_source    : nat -> string;    (* [str(uuid.uuid4())] *)
  clock          : nat -> string     (* [datetime.utcnow().isoformat()] *)
}.

(** Computations that may raise and that act on the world. *)
Definition M (A : Type) : Type := world -> result A * world.

Definition ret {A : Type} (a : A) : M A := fun w => (Ok a, w).

Definition raise {A : Type} (e : exn) : M A := fun w => (Raise e, w).

Definition bind {A B : Type} (m : M A) (k : A -> M B) : M B :=
  fun w =>
    match m w with
    | (Ok a, w') => k a w'
    | (Raise e, w') => (Raise e, w')
    end.

(** [try: m except Exception as e: handler(e)] *)
Definition try_except {A : Type} (m : M A) (handler : exn -> M A) : M A :=
  fun w =>
    match m w with
    | (Ok a, w') => (Ok a, w')
    | (Raise e, w') => handler e w'
    end.

(** The outcome of a task as a value, as
    [asyncio.gather(..., return_exceptions=True)] delivers it. *)
Definition settle {A : Type} (m : M A) : M (result A) :=
  fun w => let '(r, w') := m w in (Ok r, w').

Definition lift_result {A : Type} (r : result A) : M A :=
  fun w => (r, w).

(** [await client.post(url, headers=..., json=body)] *)
Definition http_post (req : http_request) : M http_response :=
  fun w =>
    let w' := {| http_log := http_log w ++ [req];
                 http_oracle := http_oracle w;
                 bedrock_log := bedrock_log w;
                 bedrock_oracle := bedrock_oracle w;
                 ids_drawn := ids_drawn w;
                 uuid_source := uuid_source w;
                 clock := clock w |} in
    match http_oracle w (length (http_log w)) req with
    | HttpFails e => (Raise e, w')
    | HttpAnswers r => (Ok r, w')
    end.

(** [client.invoke_agent(inputText=message, ...)] and the reading of its
    event stream.  The session id of the call, drawn by the caller and a
    new one each time, is not part of the logged request. *)
Definition bedrock_invoke (message : json) : M bedrock_outcome :=
  fun w =>
    let w' := {| http_log := http_log w;
                 http_oracle := http_oracle w;
                 bedrock_log := bedrock_log w ++ [message];
                 bedrock_oracle := bedrock_oracle w;
                 ids_drawn := ids_drawn w;
                 uuid_source := uuid_source w;
                 clock := clock w |} in
    (Ok (bedrock_oracle w (length (bedrock_log w)) message), w').

(** One draw from the identifier source and the clock. *)
Definition draw {A : Type} (source : world -> nat -> A) : M A :=
  fun w =>
    (Ok (source w (ids_drawn w)),
     {| http_log := http_log w;
        http_oracle := http_oracle w;
        bedrock_log := bedrock_log w;
        bedrock_oracle := bedrock_oracle w;
        ids_drawn := S (ids_drawn w);
        uuid_source := uuid_source w;
        clock := clock w |}).

Definition uuid4 : M string := draw uuid_source.
Definition utcnow : M string := draw clock.

End World.
Export World.

Declare Scope py_scope.
Notation "x <- m ;; k" := (bind m (fun x => k))
  (at level 100, m at next level, right associativity) : py_scope.
Open Scope py_scope.

(** ** bedrock_agent/client.py *)

Module Bedrock.

Record BedrockAgentClient : Type := {
  client_agent_id  : string;
  region           : string;
  bedrock_agent_id : string;
  agent_alias_id   : string
}.

(** The loop over [response['completion']]. *)
Fixpoint collect_chunks (events : list bedrock_event) (acc : string) : string :=
  match events with
  | [] => acc
  | EvChunk (Some text) :: rest => collect_chunks rest (acc +:+ text)
  | _ :: rest => collect_chunks rest acc
  end.

Definition client_error_message (c : BedrockAgentClient)
    (code message : string) : string :=
  if String.eqb code "ThrottlingException"
  then "Bedrock agent is being throttled. Please try again later."
  else if String.eqb code "ValidationException"
  then "Invalid agent request: " +:+ message
  else if String.eqb code "ResourceNotFoundException"
  then "Bedrock agent not found: " +:+ bedrock_agent_id c
  else "Bedrock agent error: " +:+ message.

(** [BedrockAgentClient._generate_session_id] *)
Definition _generate_session_id : M string := uuid4.

(** [BedrockAgentClient.query].  The text collected from a stream that
    fails is dropped with the failure.  The readings of [time.time()]
    only feed the console output and are left out with it. *)
Definition query (c : BedrockAgentClient) (user_message : json) : M string :=
  session_id <- _generate_session_id ;;
  outcome <- bedrock_invoke user_message ;;
  match outcome with
  | BedrockStream events => ret (strip (collect_chunks events ""))
  | BedrockClientError code message
  | BedrockStreamClientError _ code message =>
      raise (Exception (client_error_message c code message))
  | BedrockFails e
  | BedrockStreamFails _ e =>
      raise (Exception ("Error calling Bedrock agent: " +:+ exn_msg e))
  end.

Definition get_capabilities (c : BedrockAgentClient) : list string :=
  ["bedrock_agent_invoke"; "ai_text_generation"; "knowledge_base_query"].

(** The marks that open the texts of [query_stream]: the UTF-8 bytes of
    the warning sign (U+26A0 U+FE0F) and of the cross mark (U+274C). *)
Definition warning_sign : string :=
  String (chr 226) (String (chr 154) (String (chr 160)
    (String (chr 239) (String (chr 184) (String (chr 143) EmptyString))))).

Definition cross_mark : string :=
  String (chr 226) (String (chr 157) (String (chr 140) EmptyString)).

(** The texts a consumer of the generator receives: the loop over
    [response['completion']] of [query_stream]. *)
Fixpoint stream_chunks (events : list bedrock_event) : list string :=
  match events with
  | [] => []
  | EvChunk (Some text) :: rest => text :: stream_chunks rest
  | _ :: rest => stream_chunks rest
  end.

(** The text [query_stream] yields in its [except ClientError] branch. *)
Definition client_error_notice (c : BedrockAgentClient)
    (code message : string) : string :=
  if String.eqb code "ThrottlingException"
  then warning_sign +:+ " Bedrock agent is being throttled."
  else if String.eqb code "ValidationException"
  then cross_mark +:+ " Invalid request: " +:+ message
  else if String.eqb code "ResourceNotFoundException"
  then cross_mark +:+ " Agent not found: " +:+ bedrock_agent_id c
  else cross_mark +:+ " Bedrock error: " +:+ message.

(** [BedrockAgentClient.query_stream], as the list of the texts it
    yields to a consumer that reads it to its end: the chunks of the
    stream and, when the call or the stream fails, the text of the
    [except] branch after the chunks yielded so far. *)
Definition query_stream (c : BedrockAgentClient) (user_message : json)
  : M (list string) :=
  session_id <- _generate_session_id ;;
  outcome <- bedrock_invoke user_message ;;
  match outcome with
  | BedrockStream events => ret (stream_chunks events)
  | BedrockClientError code message =>
      ret [client_error_notice c code message]
  | BedrockFails e => ret [cross_mark +:+ " Error: " +:+ exn_msg e]
  | BedrockStreamClientError events code message =>
      ret (stream_chunks events ++ [client_error_notice c code message])
  | BedrockStreamFails events e =>
      ret (stream_chunks events ++ [cross_mark +:+ " Error: " +:+ exn_msg e])
  end.

End Bedrock.

(** ** a2a_protocol.py

    The dataclasses carry no run-time type checks: each field holds
    whatever value it was given, and [None] is [JNull]. *)

Module Protocol.

Record AgentMessage : Type := {
  sender_id    : json;
  recipient_id : json;
  message_type : json;
  content      : json;
  timestamp    : json;
  message_id   : json
}.

Record TaskRequest : Type := {
  task_id           : json;
  description       : json;
  parameters        : json;
  requester_id      : json;
  target_capability : json;
  priority          : json
}.

Record TaskResponse : Type := {
  resp_task_id  : json;
  resp_status   : json;
  resp_result   : json;
  resp_error    : json;
  resp_agent_id : json
}.

(** [x if x is not None else fresh()] *)
Definition or_fresh (given : json) (fresh : M string) : M json :=
  match given with
  | JNull => s <- fresh ;; ret (JStr s)
  | _ => ret given
  end.

(** [AgentMessage(...)], with [__post_init__]. *)
Definition new_message
    (sender recipient mtype body ts mid : json) : M AgentMessage :=
  ts' <- or_fresh ts utcnow ;;
  mid' <- or_fresh mid uuid4 ;;
  ret {| sender_id := sender; recipient_id := recipient;
         message_type := mtype; content := body;
         timestamp := ts'; message_id := mid' |}.

(** [TaskRequest(...)], with [__post_init__]. *)
Definition new_task_request
    (tid desc params requester capability prio : json) : M TaskRequest :=
  tid' <- (if truthy tid then ret tid else s <- uuid4 ;; ret (JStr s)) ;;
  ret {| task_id := tid'; description := desc; parameters := params;
         requester_id := requester; target_capability := capability;
         priority := prio |}.

(** [dataclasses.asdict] *)
Definition message_asdict (m : AgentMessage) : json :=
  JObj [ ("sender_id", sender_id m); ("recipient_id", recipient_id m);
         ("message_type", message_type m); ("content", content m);
         ("timestamp", timestamp m); ("message_id", message_id m) ].

Definition response_asdict (r : TaskResponse) : json :=
  JObj [ ("task_id", resp_task_id r); ("status", resp_status r);
         ("result", resp_result r); ("error", resp_error r);
         ("agent_id", resp_agent_id r) ].

(** The binding of keyword arguments from an unpacked mapping: every key must name
    a field, and a field without a default must be given.  The texts of
    the [TypeError]s are abridged. *)
Definition unexpected_key (fields : list string) (kw : list (string * json))
  : option string :=
  find (fun k => negb (bool_decide (k ∈ fields))) (dict_keys kw).

Definition kwarg (name : string) (dflt : option json)
    (kw : list (string * json)) : result json :=
  match dict_get name kw, dflt with
  | Some v, _ => Ok v
  | None, Some d => Ok d
  | None, None =>
      Raise (Exception ("missing required argument: '" +:+ name +:+ "'"))
  end.

Definition check_keys (fields : list string) (data : json)
  : result (list (string * json)) :=
  match data with
  | JObj kw =>
      match unexpected_key fields kw with
      | Some k =>
          Raise (Exception ("got an unexpected keyword argument '" +:+ k +:+ "'"))
      | None => Ok kw
      end
  | _ => Raise (Exception "argument after ** must be a mapping")
  end.

(** [AgentMessage] built from the unpacked mapping [data]. *)
Definition message_of_kwargs (data : json) : M AgentMessage :=
  kw <- lift_result
          (check_keys ["sender_id"; "recipient_id"; "message_type"; "content";
                       "timestamp"; "message_id"] data) ;;
  sender <- lift_result (kwarg "sender_id" None kw) ;;
  recipient <- lift_result (kwarg "recipient_id" None kw) ;;
  mtype <- lift_result (kwarg "message_type" None kw) ;;
  body <- lift_result (kwarg "content" None kw) ;;
  ts <- lift_result (kwarg "timestamp" (Some JNull) kw) ;;
  mid <- lift_result (kwarg "message_id" (Some JNull) kw) ;;
  new_message sender recipient mtype body ts mid.

(** [TaskRequest] built from the unpacked mapping [data]. *)
Definition task_request_of_kwargs (data : json) : M TaskRequest :=
  kw <- lift_result
          (check_keys ["task_id"; "description"; "parameters"; "requester_id";
                       "target_capability"; "priority"] data) ;;
  tid <- lift_result (kwarg "task_id" None kw) ;;
  desc <- lift_result (kwarg "description" None kw) ;;
  params <- lift_result (kwarg "parameters" None kw) ;;
  requester <- lift_result (kwarg "requester_id" None kw) ;;
  capability <- lift_result (kwarg "target_capability" (Some JNull) kw) ;;
  prio <- lift_result (kwarg "priority" (Some (JStr "normal")) kw) ;;
  new_task_request tid desc params requester capability prio.

(** [AgentMessage.to_json] *)
Definition to_json (m : AgentMessage) : string :=
  Json.dumps false (message_asdict m).

(** [AgentMessage.from_json] *)
Definition from_json (json_str : string) : M AgentMessage :=
  match Json.loads json_str with
  | Some data => message_of_kwargs data
  | None => raise (Exception "JSONDecodeError")
  end.

(** [TaskResponse.to_message] *)
Definition to_message (r : TaskResponse) (recipient : json) : M AgentMessage :=
  new_message (resp_agent_id r) recipient (JStr "task_response")
              (response_asdict r) JNull JNull.

(** [TaskResponse] built from the unpacked mapping [data]; the class
    has no [__post_init__]. *)
Definition task_response_of_kwargs (data : json) : result TaskResponse :=
  match check_keys ["task_id"; "status"; "result"; "error"; "agent_id"] data with
  | Raise e => Raise e
  | Ok kw =>
      match kwarg "task_id" None kw, kwarg "status" None kw,
            kwarg "result" (Some JNull) kw, kwarg "error" (Some JNull) kw,
            kwarg "agent_id" (Some JNull) kw with
      | Ok tid, Ok status, Ok result, Ok error, Ok agent =>
          Ok {| resp_task_id := tid; resp_status := status;
                resp_result := result; resp_error := error;
                resp_agent_id := agent |}
      | Raise e, _, _, _, _ => Raise e
      | _, Raise e, _, _, _ => Raise e
      | _, _, Raise e, _, _ => Raise e
      | _, _, _, Raise e, _ => Raise e
      | _, _, _, _, Raise e => Raise e
      end
  end.

Record AgentCard : Type := {
  card_agent_id     : json;
  card_name         : json;
  card_description  : json;
  card_capabilities : json;
  card_agent_type   : json;
  card_version      : json;
  card_status       : json
}.

Definition card_asdict (c : AgentCard) : json :=
  JObj [ ("agent_id", card_agent_id c); ("name", card_name c);
         ("description", card_description c);
         ("capabilities", card_capabilities c);
         ("agent_type", card_agent_type c); ("version", card_version c);
         ("status", card_status c) ].

(** [AgentCard] built from the unpacked mapping [data]. *)
Definition card_of_kwargs (data : json) : result AgentCard :=
  match check_keys ["agent_id"; "name"; "description"; "capabilities";
                    "agent_type"; "version"; "status"] data with
  | Raise e => Raise e
  | Ok kw =>
      match kwarg "agent_id" None kw, kwarg "name" None kw,
            kwarg "description" None kw, kwarg "capabilities" None kw,
            kwarg "agent_type" None kw with
      | Ok aid, Ok nm, Ok desc, Ok caps, Ok ty =>
          match kwarg "version" (Some (JStr "1.0.0")) kw,
                kwarg "status" (Some (JStr "active")) kw with
          | Ok ver, Ok st =>
              Ok {| card_agent_id := aid; card_name := nm;
                    card_description := desc; card_capabilities := caps;
                    card_agent_type := ty; card_version := ver;
                    card_status := st |}
          | Raise e, _ => Raise e
          | _, Raise e => Raise e
          end
      | Raise e, _, _, _, _ => Raise e
      | _, Raise e, _, _, _ => Raise e
      | _, _, Raise e, _, _ => Raise e
      | _, _, _, Raise e, _ => Raise e
      | _, _, _, _, Raise e => Raise e
      end
  end.

(** [AgentCard.to_json] *)
Definition card_to_json (c : AgentCard) : string :=
  Json.dumps false (card_asdict c).

(** [AgentCard.from_json] *)
Definition card_from_json (json_str : string) : result AgentCard :=
  match Json.loads json_str with
  | Some data => card_of_kwargs data
  | None => Raise (Exception "JSONDecodeError")
  end.

(** [A2AProtocol]: the handlers registered by message type. *)
Definition handler : Type := AgentMessage -> M (option AgentMessage).

(** [register_handler] *)
Definition register_handler (message_handlers : list (string * handler))
    (mtype : string) (h : handler) : list (string * handler) :=
  dict_set mtype h message_handlers.

(** [handle_message]: [message_handlers.get(message.message_type)]; a
    type that is a list or a dictionary cannot be looked up. *)
Definition handle_message (message_handlers : list (string * handler))
    (message : AgentMessage) : M (option AgentMessage) :=
  match message_type message with
  | JStr mtype =>
      match dict_get mtype message_handlers with
      | Some h => h message
      | None => ret None
      end
  | JArr _ => raise (Exception "unhashable type: 'list'")
  | JObj _ => raise (Exception "unhashable type: 'dict'")
  | _ => ret None
  end.

(** [create_task_request] *)
Definition create_task_request (agent_id : json) (desc params : json)
    (target : json) : M TaskRequest :=
  tid <- uuid4 ;;
  new_task_request (JStr tid) desc params agent_id target (JStr "normal").

(** [create_response_message] *)
Definition create_response_message (agent_id recipient body : json)
  : M AgentMessage :=
  new_message agent_id recipient (JStr "response") body JNull JNull.

End Protocol.

(** ** supervisor_agent.py *)

Module Supervisor.
Import Registry Bedrock Protocol.

Record SupervisorAgent : Type := {
  agent_id             : string;
  name                 : string;
  registry             : AgentRegistry;
  bedrock_agent_client : option BedrockAgentClient;
  conversation         : list json
}.

Definition set_conversation (sup : SupervisorAgent) (c : list json)
  : SupervisorAgent :=
  {| agent_id := agent_id sup; name := name sup; registry := registry sup;
     bedrock_agent_client := bedrock_agent_client sup; conversation := c |}.

(** [f"{endpoint}"] for an optional string. *)
Definition fmt_opt (o : option string) : string :=
  match o with Some s => s | None => "None" end.

Definition execute_github_task (sup : SupervisorAgent) (task : TaskRequest)
  : M json :=
  match get_agent_config (registry sup) "github-agent" with
  | None => ret (JStr "GitHub Agent not found in registry")
  | Some agent_config =>
      if cfg_is_empty agent_config
      then ret (JStr "GitHub Agent not found in registry")
      else
        let endpoint := cfg_endpoint agent_config in
        let query_url :=
          fmt_opt endpoint +:+ default "/query" (cfg_query_endpoint agent_config) in
        try_except
          (response <- http_post
                         {| req_url := query_url; req_headers := [];
                            req_body := JObj [ ("query", description task);
                                               ("parameters", parameters task) ] |} ;;
           if status_code response =? 200 then
             data <- lift_result (resp_json response) ;;
             match data with
             | JObj members =>
                 ret (default (JStr "No result from git-mcp-agent")
                              (dict_get "result" members))
             | other =>
                 raise (Exception ("'" +:+ type_name other +:+
                                   "' object has no attribute 'get'"))
             end
           else
             ret (JStr ("Git-MCP-Agent error: " +:+
                        dump_int (status_code response))))
          (fun e =>
             ret (JStr ("Failed to connect to github-agent: " +:+ exn_msg e)))
  end.

Definition execute_bedrock_task (sup : SupervisorAgent) (task : TaskRequest)
  : M json :=
  match bedrock_agent_client sup with
  | None => ret (JStr "Bedrock agent not initialized")
  | Some client =>
      try_except
        (result <- query client (description task) ;; ret (JStr result))
        (fun e =>
           ret (JStr ("Failed to execute Bedrock task: " +:+ exn_msg e)))
  end.

Definition delegate_task (sup : SupervisorAgent) (task : TaskRequest)
    (target_agent : string) : M json :=
  if String.eqb target_agent "github-agent" then execute_github_task sup task
  else if String.eqb target_agent "bedrock-agent-001"
  then execute_bedrock_task sup task
  else ret (JStr ("Agent " +:+ target_agent +:+ " not implemented yet")).

(** [x if not isinstance(x, Exception) else f"Error: {x}"], for an
    outcome delivered by [gather]. *)
Definition outcome_content (outcome : result json) : json :=
  match outcome with
  | Ok v => v
  | Raise e => JStr ("Error: " +:+ exn_msg e)
  end.

(** [_format_agent_result] *)
Definition format_agent_result (outcome : result json) : string :=
  match outcome with
  | Raise e => "Error: " +:+ exn_msg e
  | Ok v => py_str v
  end.

Definition prompt_head : string :=
  "You are a supervisor agent that intelligently combines responses from two specialized agents: a GitHub Agent (repository/code expert) and a Bedrock Agent (general AI assistant)." +:+
  nl +:+
  nl +:+
  "User Query: ".

Definition prompt_before_github : string :=
  nl +:+
  nl +:+
  "GitHub Agent Result: ".

Definition prompt_before_bedrock : string :=
  nl +:+
  nl +:+
  "Bedrock Agent Result: ".

Definition prompt_instructions : string :=
  nl +:+
  nl +:+
  "IMPORTANT INSTRUCTIONS:" +:+
  nl +:+
  "1. PRESERVE ALL file paths, repository references, URLs, and technical details from the GitHub Agent" +:+
  nl +:+
  "2. PRESERVE ALL code snippets, file names, directory structures, and git-related information exactly as provided" +:+
  nl +:+
  "3. If the GitHub Agent provides specific file references, repository information, or code examples, include them verbatim" +:+
  nl +:+
  "4. Combine the GitHub Agent's technical/repository knowledge with the Bedrock Agent's general knowledge" +:+
  nl +:+
  "5. When both agents provide relevant information, present the GitHub Agent's technical details first, then supplement with Bedrock Agent insights" +:+
  nl +:+
  "6. If the GitHub Agent has errors but the Bedrock Agent succeeds, clearly note the GitHub Agent limitation while providing the Bedrock response" +:+
  nl +:+
  "7. If the GitHub Agent succeeds but provides repository-specific information, prioritize and highlight that information" +:+
  nl +:+
  "8. Do not summarize or paraphrase file paths, repository names, or technical references - keep them exact" +:+
  nl +:+
  "9. Only show the recommended approach and ask if the user wants to see an alternate approach" +:+
  nl +:+
  nl +:+
  "Provide a comprehensive response that leverages the specialized knowledge from both agents while preserving all technical details and references.".

Definition collation_prompt (query : string) (github_content bedrock_content : json)
  : string :=
  prompt_head +:+ query +:+
  prompt_before_github +:+ format_agent_result (Ok github_content) +:+
  prompt_before_bedrock +:+ format_agent_result (Ok bedrock_content) +:+
  prompt_instructions.

(** The labelled concatenation of the two outcomes. *)
Definition simple_combination (github_content bedrock_content : json) : string :=
  "GitHub Agent: " +:+ py_str github_content +:+ nl +:+ nl +:+
  "Bedrock Agent: " +:+ py_str bedrock_content.

Definition collate_responses (sup : SupervisorAgent) (query_text : string)
    (github_result bedrock_result : result json) : M string :=
  let github_content := outcome_content github_result in
  let bedrock_content := outcome_content bedrock_result in
  match bedrock_agent_client sup with
  | None => ret (simple_combination github_content bedrock_content)
  | Some client =>
      try_except
        (query client
           (JStr (collation_prompt query_text github_content bedrock_content)))
        (fun e =>
           ret (simple_combination github_content bedrock_content +:+
                nl +:+ nl +:+ "(Note: Response collation failed: " +:+
                exn_msg e +:+ ")"))
  end.

(** [route_and_execute].  The two delegations are created as tasks and
    joined by [gather(..., return_exceptions=True)]; each talks to an
    oracle of its own, so the order in which the model runs them does not
    show in their outcomes (see [delegations_commute]). *)
Definition route_and_execute (sup : SupervisorAgent) (user_query : string)
  : M string :=
  github_task <- new_task_request
                   (JStr "github-task") (JStr user_query)
                   (JObj [("query", JStr user_query)])
                   (JStr (agent_id sup)) JNull (JStr "normal") ;;
  bedrock_task <- new_task_request
                    (JStr "bedrock-task") (JStr user_query)
                    (JObj [("query", JStr user_query)])
                    (JStr (agent_id sup)) JNull (JStr "normal") ;;
  github_result <- settle (delegate_task sup github_task "github-agent") ;;
  bedrock_result <- settle (delegate_task sup bedrock_task "bedrock-agent-001") ;;
  collate_responses sup user_query github_result bedrock_result.

(** The [TaskResponse] built by [handle_task_request] once the request
    has been read. *)
Definition respond_to_task (sup : SupervisorAgent) (task_request : TaskRequest)
  : M TaskResponse :=
  match description task_request with
  | JStr text =>
      let target_agent := route_query (registry sup) text in
      match target_agent with
      | Some target =>
          if negb (String.eqb target "")
             && is_agent_available (registry sup) target
          then
            result <- delegate_task sup task_request target ;;
            ret {| resp_task_id := task_id task_request;
                   resp_status :=
                     JStr (if truthy result then "completed" else "failed");
                   resp_result := result;
                   resp_error := JNull;
                   resp_agent_id := JStr (agent_id sup) |}
          else
            ret {| resp_task_id := task_id task_request;
                   resp_status := JStr "failed";
                   resp_result := JNull;
                   resp_error := JStr "No suitable agent found for task";
                   resp_agent_id := JStr (agent_id sup) |}
      | None =>
          ret {| resp_task_id := task_id task_request;
                 resp_status := JStr "failed";
                 resp_result := JNull;
                 resp_error := JStr "No suitable agent found for task";
                 resp_agent_id := JStr (agent_id sup) |}
      end
  | other =>
      (* [query.lower()] on a value that is not a [str] *)
      raise (Exception ("'" +:+ type_name other +:+
                        "' object has no attribute 'lower'"))
  end.

Definition handle_task_request (sup : SupervisorAgent) (message : AgentMessage)
  : M (option AgentMessage) :=
  task_request <- task_request_of_kwargs (content message) ;;
  response <- respond_to_task sup task_request ;;
  reply <- to_message response (sender_id message) ;;
  ret (Some reply).

Definition entry (role text : string) : json :=
  JObj [("role", JStr role); ("content", JStr text)].

(** [conversation[-10:]] *)
Definition last_ten (c : list json) : list json := drop (length c - 10) c.

(** [query]: the new conversation is returned with the response. *)
Definition query (sup : SupervisorAgent) (user_message : string)
  : M (string * SupervisorAgent) :=
  let appended := conversation sup ++ [entry "user" user_message] in
  let kept :=
    if (10 <? length appended)%nat then last_ten appended else appended in
  let sup1 := set_conversation sup kept in
  response <- route_and_execute sup1 user_message ;;
  ret (response,
       set_conversation sup1 (conversation sup1 ++ [entry "assistant" response])).

(** Keys of [task_history], a dictionary keyed by whatever the task id
    is: [True] and [1], [False] and [0] are one key; a list or a
    dictionary cannot be a key. *)
Definition key_number (k : json) : option Z :=
  match k with
  | JBool b => Some (if b then 1 else 0)
  | JInt n => Some n
  | _ => None
  end.

Definition key_eqb (a b : json) : bool :=
  match a, b with
  | JNull, JNull => true
  | JStr s, JStr t => String.eqb s t
  | _, _ =>
      match key_number a, key_number b with
      | Some x, Some y => x =? y
      | _, _ => false
      end
  end.

Definition unhashable (k : json) : option string :=
  match k with
  | JArr _ => Some "list"
  | JObj _ => Some "dict"
  | _ => None
  end.

(** [task_history[k] = v]: a key that is present keeps its position and
    its first spelling. *)
Fixpoint history_set (k : json) (v : TaskResponse)
    (task_history : list (json * TaskResponse)) : list (json * TaskResponse) :=
  match task_history with
  | [] => [(k, v)]
  | (k', v') :: rest =>
      if key_eqb k k' then (k', v) :: rest
      else (k', v') :: history_set k v rest
  end.

Fixpoint history_get (k : json) (task_history : list (json * TaskResponse))
  : option TaskResponse :=
  match task_history with
  | [] => None
  | (k', v) :: rest => if key_eqb k k' then Some v else history_get k rest
  end.

(** [handle_task_response]: the history after the call. *)
Definition handle_task_response (task_history : list (json * TaskResponse))
    (message : AgentMessage) : result (list (json * TaskResponse)) :=
  match task_response_of_kwargs (content message) with
  | Raise e => Raise e
  | Ok task_response =>
      match unhashable (resp_task_id task_response) with
      | Some ty => Raise (Exception ("unhashable type: '" +:+ ty +:+ "'"))
      | None =>
          Ok (history_set (resp_task_id task_response) task_response
                          task_history)
      end
  end.

(** [SupervisorAgent.get_agent_card] *)
Definition get_agent_card (sup : SupervisorAgent) : AgentCard :=
  {| card_agent_id := JStr (agent_id sup);
     card_name := JStr (name sup);
     card_description :=
       JStr "Supervisor agent that routes tasks to specialized agents";
     card_capabilities :=
       JArr [JStr "task_routing"; JStr "agent_coordination";
             JStr "workflow_management"; JStr "multi_agent_orchestration"];
     card_agent_type := JStr "SupervisorAgent";
     card_version := JStr "1.0.0";
     card_status := JStr "active" |}.

End Supervisor.

(** ** mcp_client.py *)

Module MCP.

(** One value of [self.tools].  Tool names and the entries of [required]
    are strings, as the protocol prescribes; a tool entry that does not
    have this shape is treated like one with a missing key. *)
Record tool_info : Type := {
  tool_description : json;
  tool_parameters  : json;
  tool_required    : list string
}.

Record GitHubMCPClient : Type := {
  github_token : option string;
  toolsets     : list string;
  readonly     : bool;
  base_url     : string;
  headers      : list (string * string);
  session      : bool;                    (* [self.session is not None] *)
  tools        : gmap string tool_info
}.

Definition set_session (c : GitHubMCPClient) (b : bool) : GitHubMCPClient :=
  {| github_token := github_token c; toolsets := toolsets c;
     readonly := readonly c; base_url := base_url c; headers := headers c;
     session := b; tools := tools c |}.

Definition set_headers (c : GitHubMCPClient) (h : list (string * string))
  : GitHubMCPClient :=
  {| github_token := github_token c; toolsets := toolsets c;
     readonly := readonly c; base_url := base_url c; headers := h;
     session := session c; tools := tools c |}.

Definition set_tools (c : GitHubMCPClient) (t : gmap string tool_info)
  : GitHubMCPClient :=
  {| github_token := github_token c; toolsets := toolsets c;
     readonly := readonly c; base_url := base_url c; headers := headers c;
     session := session c; tools := t |}.

Fixpoint lstrip_slash (s : string) : string :=
  match s with
  | String c s' => if Ascii.eqb c "/"%char then lstrip_slash s' else s
  | EmptyString => EmptyString
  end.

(** [s.rstrip('/')] *)
Definition rstrip_slash (s : string) : string :=
  String.rev (lstrip_slash (String.rev s)).

(** [GitHubMCPClient.__init__] *)
Definition init (token : option string) (toolsets_arg : list string)
    (readonly_arg : bool) : GitHubMCPClient :=
  let toolsets' := match toolsets_arg with [] => ["all"] | _ => toolsets_arg end in
  let url :=
    if bool_decide ("all" ∈ toolsets')
    then "https://api.githubcopilot.com/mcp/"
    else "https://api.githubcopilot.com/mcp/x/" +:+ default "" (head toolsets')
         +:+ "/" in
  let url' := if readonly_arg then rstrip_slash url +:+ "/readonly/" else url in
  let h0 := [ ("Authorization", "Bearer " +:+ default "None" token);
              ("Content-Type", "application/json");
              ("User-Agent", "GitHub-MCP-Client/1.0") ] in
  let h1 :=
    if (1 <? length toolsets')%nat && negb (bool_decide ("all" ∈ toolsets'))
    then dict_set "X-MCP-Toolsets" (join "," toolsets') h0 else h0 in
  {| github_token := token; toolsets := toolsets'; readonly := readonly_arg;
     base_url := url'; headers := dict_set "X-MCP-Readonly" "true" h1;
     session := false; tools := ∅ |}.

Definition rpc (c : GitHubMCPClient) (body : json) : M http_response :=
  http_post {| req_url := base_url c; req_headers := headers c;
               req_body := body |}.

Definition initialize_body : json :=
  JObj [ ("jsonrpc", JStr "2.0"); ("id", JInt 1); ("method", JStr "initialize");
         ("params",
          JObj [ ("protocolVersion", JStr "2024-11-05");
                 ("capabilities",
                  JObj [ ("roots", JObj [("listChanged", JBool true)]);
                         ("sampling", JObj []) ]);
                 ("clientInfo",
                  JObj [ ("name", JStr "github-agent");
                         ("version", JStr "1.0.0") ]) ]) ].

Definition initialized_body : json :=
  JObj [ ("jsonrpc", JStr "2.0"); ("method", JStr "notifications/initialized") ].

Definition tools_list_body : json :=
  JObj [ ("jsonrpc", JStr "2.0"); ("id", JInt 2); ("method", JStr "tools/list");
         ("params", JObj []) ].

Definition call_body (tool_name : string) (arguments : list (string * json))
  : json :=
  JObj [ ("jsonrpc", JStr "2.0"); ("id", JInt 3); ("method", JStr "tools/call");
         ("params", JObj [ ("name", JStr tool_name);
                           ("arguments", JObj arguments) ]) ].

Fixpoint all_strings (items : list json) : option (list string) :=
  match items with
  | [] => Some []
  | JStr s :: rest =>
      match all_strings rest with
      | Some l => Some (s :: l)
      | None => None
      end
  | _ :: _ => None
  end.

(** The right-hand side of [self.tools[tool["name"]] = {...}]; [None]
    when a subscript fails. *)
Definition decode_tool (tool : json) : option (string * tool_info) :=
  match tool with
  | JObj members =>
      match dict_get "name" members, dict_get "description" members,
            dict_get "inputSchema" members with
      | Some (JStr tool_name), Some desc, Some (JObj schema) =>
          match dict_get "properties" schema, dict_get "required" schema with
          | Some props, None =>
              Some (tool_name,
                    {| tool_description := desc; tool_parameters := props;
                       tool_required := [] |})
          | Some props, Some (JArr items) =>
              match all_strings items with
              | Some required =>
                  Some (tool_name,
                        {| tool_description := desc; tool_parameters := props;
                           tool_required := required |})
              | None => None
              end
          | _, _ => None
          end
      | _, _, _ => None
      end
  | _ => None
  end.

(** The [for tool in ...] loop: the table after the loop, and whether it
    ran to its end. *)
Fixpoint register_tools (entries : list json) (table : gmap string tool_info)
  : gmap string tool_info * bool :=
  match entries with
  | [] => (table, true)
  | tool :: rest =>
      match decode_tool tool with
      | Some (tool_name, info) => register_tools rest (<[tool_name := info]> table)
      | None => (table, false)
      end
  end.

(** The part of [initialize] that reads the answer to [tools/list]. *)
Definition read_tools_list (c : GitHubMCPClient) (data : json)
  : Z * GitHubMCPClient :=
  match data with
  | JObj members =>
      match dict_get "result" members with
      | Some (JObj result_members) =>
          match dict_get "tools" result_members with
          | Some (JArr entries) =>
              let '(table, completed) := register_tools entries (tools c) in
              if completed
              then (Z.of_nat (size table), set_tools c table)
              else (0, set_tools c table)
          | Some (JObj []) | Some (JStr EmptyString) =>
              (Z.of_nat (size (tools c)), c)
          | _ => (0, c)
          end
      | _ => (0, c)
      end
  | _ => (0, c)
  end.

(** [x] on success, [return 0] with the client as it stands when the
    step raises. *)
Definition or_zero {A : Type} (c : GitHubMCPClient) (m : M A)
    (k : A -> M (Z * GitHubMCPClient)) : M (Z * GitHubMCPClient) :=
  fun w =>
    match m w with
    | (Ok a, w') => k a w'
    | (Raise _, w') => (Ok (0, c), w')
    end.

(** [GitHubMCPClient.initialize]: the number of tools and the client
    after the handshake. *)
Definition initialize (c : GitHubMCPClient) : M (Z * GitHubMCPClient) :=
  let c0 := set_session c true in
  or_zero c0 (rpc c0 initialize_body) (fun init_response =>
    if negb (status_code init_response =? 200) then ret (0, c0)
    else
      let c1 :=
        match resp_session_id init_response with
        | Some sid =>
            if String.eqb sid "" then c0
            else set_headers c0 (dict_set "Mcp-Session-Id" sid (headers c0))
        | None => c0
        end in
      or_zero c1 (rpc c1 initialized_body) (fun _ =>
        or_zero c1 (rpc c1 tools_list_body) (fun tools_response =>
          if status_code tools_response =? 200 then
            or_zero c1 (lift_result (resp_json tools_response)) (fun data =>
              ret (read_tools_list c1 data))
          else ret (0, c1)))).

Definition has_str (s : string) (items : list json) : bool :=
  existsb (fun j => match j with JStr t => String.eqb s t | _ => false end)
          items.

(** The value [call_tool] returns for the decoded body [data]. *)
Definition read_call_result (data : json) : result json :=
  match data with
  | JObj members =>
      match dict_get "result" members with
      | Some v => Ok v
      | None =>
          match dict_get "error" members with
          | Some err => Raise (Exception ("Tool error: " +:+ py_str err))
          | None => Ok data
          end
      end
  | JArr items =>
      if has_str "result" items || has_str "error" items
      then Raise (Exception "list indices must be integers or slices, not str")
      else Ok data
  | JStr s =>
      if str_contains s "result" || str_contains s "error"
      then Raise (Exception "string indices must be integers, not 'str'")
      else Ok data
  | other =>
      Raise (Exception ("argument of type '" +:+ type_name other +:+
                        "' is not iterable"))
  end.

(** [GitHubMCPClient.call_tool] *)
Definition call_tool (c : GitHubMCPClient) (tool_name : string)
    (arguments : list (string * json)) : M json :=
  if negb (session c) then raise (Exception "MCP session not initialized")
  else
    response <- rpc c (call_body tool_name arguments) ;;
    if negb (status_code response =? 200)
    then raise (Exception ("Tool call failed: " +:+
                           dump_int (status_code response)))
    else
      data <- lift_result (resp_json response) ;;
      lift_result (read_call_result data).

End MCP.

(** ** agent.py *)

Module GitHubAgent.
Import MCP.

(** One entry of the planner's [tool_calls]: a tool name and an argument
    map, a JSON object. *)
Record tool_call : Type := {
  call_name      : string;
  call_arguments : list (string * json)
}.

Record GitHubAgent : Type := {
  agent_id      : string;
  mcp_client    : GitHubMCPClient;
  conversation  : list json;
  result_cache  : list (string * json)     (* [self._result_cache] *)
}.

Definition set_cache (a : GitHubAgent) (cache : list (string * json))
  : GitHubAgent :=
  {| agent_id := agent_id a; mcp_client := mcp_client a;
     conversation := conversation a; result_cache := cache |}.

Definition set_client (a : GitHubAgent) (c : GitHubMCPClient) : GitHubAgent :=
  {| agent_id := agent_id a; mcp_client := c;
     conversation := conversation a; result_cache := result_cache a |}.

Definition cacheable_tools : list string :=
  ["search_repositories"; "search_code"; "get_file_contents";
   "list_issues"; "get_me"].

(** [key_data] of [_get_cache_key]. *)
Definition key_data (tool_name : string) (arguments : list (string * json))
  : string :=
  tool_name +:+ ":" +:+ Json.dumps true (JObj arguments).

(** [[p for p in tool_info["required"] if p not in arguments]] *)
Definition missing_params (info : tool_info) (arguments : list (string * json))
  : list string :=
  filter (fun p => negb (dict_contains p arguments)) (tool_required info).

(** The eviction after a store: beyond 50 entries, the first 10 keys of
    the dictionary are deleted. *)
Definition evict (cache : list (string * json)) : list (string * json) :=
  if (50 <? length cache)%nat
  then fold_left (fun d k => dict_del k d) (take 10 (dict_keys cache)) cache
  else cache.

(** [self._result_cache[cache_key] = tool_result], followed by the
    eviction. *)
Definition cache_put (cache : list (string * json)) (key : string) (v : json)
  : list (string * json) :=
  evict (dict_set key v cache).

Definition cache_get (cache : list (string * json)) (key : string)
  : option json :=
  dict_get key cache.

Section Digest.

(** [hashlib.md5(data.encode()).hexdigest()] is a parameter of the
    development. *)
Variable md5_hexdigest : string -> string.

(** [GitHubAgent.__init__] *)
Definition init (toolsets_arg : list string) (readonly_arg : bool)
    (agent_id_arg : option string) (token : option string) : GitHubAgent :=
  {| agent_id := match agent_id_arg with
                 | Some i => if String.eqb i "" then "github-agent-001" else i
                 | None => "github-agent-001"
                 end;
     mcp_client := MCP.init token toolsets_arg readonly_arg;
     conversation := [];
     result_cache := [] |}.

Definition initialize (a : GitHubAgent) : M (Z * GitHubAgent) :=
  out <- MCP.initialize (mcp_client a) ;;
  ret (out.1, set_client a out.2).

Definition get_cache_key (tool_name : string) (arguments : list (string * json))
  : string :=
  md5_hexdigest (key_data tool_name arguments).

Definition unavailable (tool_name : string) : json :=
  JObj [ ("tool", JStr tool_name);
         ("error", JStr ("Tool '" +:+ tool_name +:+ "' not available")) ].

Definition missing_error (tool_name : string) (missing : list string) : json :=
  JObj [ ("tool", JStr tool_name);
         ("error", JStr ("Missing required parameters: " +:+
                         py_repr (JArr (JStr <$> missing)))) ].

Definition success (tc : tool_call) (result : json) : json :=
  JObj [ ("tool", JStr (call_name tc));
         ("arguments", JObj (call_arguments tc));
         ("result", result) ].

Definition failure (tc : tool_call) (e : exn) : json :=
  JObj [ ("tool", JStr (call_name tc));
         ("arguments", JObj (call_arguments tc));
         ("error", JStr (exn_msg e)) ].

(** One iteration of the loop of [execute_tools]: the entry appended to
    [results] and the agent afterwards. *)
Definition execute_tool (a : GitHubAgent) (tc : tool_call)
  : world -> (json * GitHubAgent) * world :=
  fun w =>
    let tool_name := call_name tc in
    let arguments := call_arguments tc in
    let cache_key :=
      if bool_decide (tool_name ∈ cacheable_tools)
      then Some (get_cache_key tool_name arguments) else None in
    match cache_key ≫= cache_get (result_cache a) with
    | Some cached => ((cached, a), w)
    | None =>
        match tools (mcp_client a) !! tool_name with
        | None => ((unavailable tool_name, a), w)
        | Some info =>
            let missing := missing_params info arguments in
            match missing with
            | _ :: _ => ((missing_error tool_name missing, a), w)
            | [] =>
                match call_tool (mcp_client a) tool_name arguments w with
                | (Ok result, w') =>
                    let tool_result := success tc result in
                    let a' :=
                      match cache_key with
                      | Some key =>
                          if String.eqb key "" then a
                          else set_cache a (cache_put (result_cache a) key
                                                      tool_result)
                      | None => a
                      end in
                    ((tool_result, a'), w')
                | (Raise e, w') => ((failure tc e, a), w')
                end
            end
        end
    end.

(** [GitHubAgent.execute_tools] *)
Fixpoint execute_tools (a : GitHubAgent) (tool_calls : list tool_call)
  : world -> (list json * GitHubAgent) * world :=
  fun w =>
    match tool_calls with
    | [] => (([], a), w)
    | tc :: rest =>
        let '((r, a1), w1) := execute_tool a tc w in
        let '((rs, a2), w2) := execute_tools a1 rest w1 in
        ((r :: rs, a2), w2)
    end.

End Digest.

End GitHubAgent.

(** ** supervisor-agent/client.py

    The model behind [BedrockClient] is reached through
    [invoke_model]; what it answers is a parameter. *)

Module ChatClient.

Record BedrockClient : Type := { model_id : string }.

(** [value[key]] for a text key. *)
Definition subscript (value : json) (key : string) : result json :=
  match value with
  | JObj members =>
      match dict_get key members with
      | Some v => Ok v
      | None => Raise (Exception (repr_str key))
      end
  | JArr _ =>
      Raise (Exception "list indices must be integers or slices, not str")
  | JStr _ => Raise (Exception "string indices must be integers, not 'str'")
  | other =>
      Raise (Exception ("'" +:+ type_name other +:+
                        "' object is not subscriptable"))
  end.

(** [value[0]]; of a text, its first character (on the ASCII range). *)
Definition subscript_0 (value : json) : result json :=
  match value with
  | JArr (first :: _) => Ok first
  | JArr [] => Raise (Exception "list index out of range")
  | JStr (String c _) => Ok (JStr (str1 c))
  | JStr EmptyString => Raise (Exception "string index out of range")
  | JObj _ => Raise (Exception "0")
  | other =>
      Raise (Exception ("'" +:+ type_name other +:+
                        "' object is not subscriptable"))
  end.

(** [msg["role"] == "system"] *)
Definition role_is_system (role : json) : bool :=
  match role with
  | JStr r => String.eqb r "system"
  | _ => false
  end.

(** The loop over [messages], threading [system_message] and
    [user_messages]. *)
Fixpoint split_messages (messages : list json) (system_message : json)
    (user_messages : list json) : result (json * list json) :=
  match messages with
  | [] => Ok (system_message, user_messages)
  | msg :: rest =>
      match subscript msg "role" with
      | Raise e => Raise e
      | Ok role =>
          if role_is_system role then
            match subscript msg "content" with
            | Raise e => Raise e
            | Ok text => split_messages rest text user_messages
            end
          else split_messages rest system_message (user_messages ++ [msg])
      end
  end.

Definition hello : json :=
  JObj [("role", JStr "user"); ("content", JStr "Hello")].

(** [request_body], as it is handed to [json.dumps]. *)
Definition request_body (messages : list json) : result json :=
  match split_messages messages (JStr "") [] with
  | Raise e => Raise e
  | Ok (system_message, user_messages) =>
      let user_messages' :=
        match user_messages with [] => [hello] | _ => user_messages end in
      let body := [ ("anthropic_version", JStr "bedrock-2023-05-31");
                    ("max_tokens", JInt 4000);
                    ("messages", JArr user_messages') ] in
      Ok (JObj (if truthy system_message
                then dict_set "system" system_message body else body))
  end.

(** [response_body['content'][0]['text']] *)
Definition read_text (response_body : json) : result json :=
  match subscript response_body "content" with
  | Raise e => Raise e
  | Ok blocks =>
      match subscript_0 blocks with
      | Raise e => Raise e
      | Ok block => subscript block "text"
      end
  end.

Section Runtime.

(** [self.bedrock.invoke_model(modelId=..., body=...)] and the reading
    of the body of its response. *)
Variable invoke_model : string -> string -> result string.

(** [BedrockClient.chat] *)
Definition chat (c : BedrockClient) (messages : list json) : result json :=
  match request_body messages with
  | Raise e => Raise e
  | Ok body =>
      match invoke_model (model_id c) (Json.dumps false body) with
      | Raise e => Raise e
      | Ok text =>
          match Json.loads text with
          | None => Raise (Exception "JSONDecodeError")
          | Some response_body => read_text response_body
          end
      end
  end.

End Runtime.

End ChatClient.

(* ===================================================================== *)
(** * Part II: properties                                                *)
(* ===================================================================== *)

(** ** Strings *)

(** [kw] occurs in [s] as a literal substring. *)
Definition literal_substring (kw s : string) : Prop :=
  exists pre post, s = pre +:+ kw +:+ post.

Section StringFacts.

Lemma str_app_nil_l (t : string) : "" +:+ t = t.
Proof. reflexivity. Qed.

Lemma str_app_cons (c : Ascii.ascii) (s t : string) :
  String c s +:+ t = String c (s +:+ t).
Proof. reflexivity. Qed.

Lemma str_app_empty_r (s : string) : s +:+ "" = s.
Proof.
  induction s as [|c s IH]; [done |]. by rewrite str_app_cons, IH.
Qed.

Lemma str_app_assoc (a b c : string) : (a +:+ b) +:+ c = a +:+ b +:+ c.
Proof.
  induction a as [|x a IH]; [done |]. by rewrite !str_app_cons, IH.
Qed.

Lemma prefix_app (n h : string) :
  String.prefix n h = true <-> exists post, h = n +:+ post.
Proof.
  revert h. induction n as [|c n IH]; intros h.
  - destruct h; simpl; split; eauto.
  - destruct h as [|d h]; simpl.
    + split; [done | intros [post Hp]; done].
    + destruct (Ascii.ascii_dec c d) as [->|Hne].
      * rewrite IH. split; intros [post Hp].
        -- exists post. by rewrite str_app_cons, Hp.
        -- exists post. rewrite str_app_cons in Hp. by simplify_eq.
      * split; [done | intros [post Hp]].
        rewrite str_app_cons in Hp. simplify_eq.
Qed.

Lemma str_contains_unfold (h n : string) :
  str_contains h n =
  String.prefix n h ||
  match h with EmptyString => false | String _ h' => str_contains h' n end.
Proof. by destruct h. Qed.

(** The boolean substring test decides the existence of a split of the
    haystack around the needle. *)
Lemma str_contains_spec (h n : string) :
  str_contains h n = true <-> exists pre post, h = pre +:+ n +:+ post.
Proof.
  induction h as [|c h IH]; rewrite str_contains_unfold.
  - rewrite orb_false_r, prefix_app. split.
    + intros [post ->]. by exists "", post.
    + intros (pre & post & Hp). destruct pre; [eauto | done].
  - rewrite orb_true_iff, prefix_app, IH. split.
    + intros [[post ->] | (pre & post & ->)].
      * by exists "", post.
      * by exists (String c pre), post.
    + intros (pre & post & Hp). destruct pre as [|d pre].
      * left. eauto.
      * right. rewrite str_app_cons in Hp. simplify_eq. eauto.
Qed.

End StringFacts.

(** ** agent_registry.py: routing *)

Module RegistryFacts.
Import Registry.

(** The reading of the routing rule in the specification: a keyword is
    a literal substring of the lower-cased query. *)
Definition rule_applies (query : string) (r : RoutingRule) : Prop :=
  exists kw, kw ∈ get_keywords r /\ literal_substring kw (lower query).

(** Every rule names an agent by a non-empty id. *)
Definition rule_has_agent (r : RoutingRule) : Prop :=
  exists a, rule_agent r = Some a /\ a <> "".

Lemma rule_matches_applies (query : string) (r : RoutingRule) :
  rule_matches (lower query) r = true <-> rule_applies query r.
Proof.
  unfold rule_matches, rule_applies, literal_substring.
  rewrite existsb_exists. split.
  - intros (kw & Hin & Hc). exists kw. split; [by apply list_elem_of_In |].
    by apply str_contains_spec.
  - intros (kw & Hin & Hc). exists kw. split; [by apply list_elem_of_In |].
    by apply str_contains_spec.
Qed.

(** What the loop has established after the rules [seen]. *)
Definition loop_inv (ql : string) (seen : list RoutingRule)
    (best : option string) (hp : option Z) : Prop :=
  match hp with
  | None =>
      best = None /\ forall r, r ∈ seen -> rule_matches ql r = false
  | Some p =>
      exists (i : nat) (r : RoutingRule),
        seen !! i = Some r /\ rule_matches ql r = true /\
        get_priority r = p /\ best = rule_agent r /\
        forall (j : nat) (r' : RoutingRule),
          seen !! j = Some r' -> rule_matches ql r' = true ->
          p <= get_priority r' /\ ((j < i)%nat -> p < get_priority r')
  end.

Lemma loop_inv_step ql seen rule best hp :
  loop_inv ql seen best hp ->
  let taken := rule_matches ql rule && below (get_priority rule) hp in
  loop_inv ql (seen ++ [rule])
    (if taken then rule_agent rule else best)
    (if taken then Some (get_priority rule) else hp).
Proof.
  intros Hinv. simpl.
  destruct (rule_matches ql rule) eqn:Hm; simpl.
  - destruct hp as [p|]; simpl in *.
    + destruct Hinv as (i & r & Hi & Hr & Hp & Hb & Hall).
      destruct (get_priority rule <? p) eqn:Hlt.
      * apply Z.ltb_lt in Hlt.
        exists (length seen), rule. split_and!; try done.
        { by rewrite lookup_app_r, Nat.sub_diag by lia. }
        intros j r' Hj Hr'.
        destruct (decide (j < length seen)%nat) as [Hjl|Hjl].
        -- rewrite lookup_app_l in Hj by done.
           destruct (Hall j r' Hj Hr') as [Hle _]. lia.
        -- rewrite lookup_app_r in Hj by lia.
           destruct (j - length seen)%nat eqn:Hd; simpl in Hj; [|done].
           simplify_eq. lia.
      * apply Z.ltb_ge in Hlt.
        exists i, r. split_and!; try done.
        { apply lookup_app_l_Some. done. }
        intros j r' Hj Hr'.
        destruct (decide (j < length seen)%nat) as [Hjl|Hjl].
        -- rewrite lookup_app_l in Hj by done. eauto.
        -- rewrite lookup_app_r in Hj by lia.
           destruct (j - length seen)%nat eqn:Hd; simpl in Hj; [|done].
           simplify_eq. apply lookup_lt_Some in Hi. lia.
    + destruct Hinv as [-> Hnone].
      exists (length seen), rule. split_and!; try done.
      { by rewrite lookup_app_r, Nat.sub_diag by lia. }
      intros j r' Hj Hr'.
      destruct (decide (j < length seen)%nat) as [Hjl|Hjl].
      * rewrite lookup_app_l in Hj by done.
        apply list_elem_of_lookup_2 in Hj. apply Hnone in Hj. congruence.
      * rewrite lookup_app_r in Hj by lia.
        destruct (j - length seen)%nat eqn:Hd; simpl in Hj; [|done].
        simplify_eq. lia.
  - destruct hp as [p|]; simpl in *.
    + destruct Hinv as (i & r & Hi & Hr & Hp & Hb & Hall).
      exists i, r. split_and!; try done.
      { apply lookup_app_l_Some. done. }
      intros j r' Hj Hr'.
      destruct (decide (j < length seen)%nat) as [Hjl|Hjl].
      * rewrite lookup_app_l in Hj by done. eauto.
      * rewrite lookup_app_r in Hj by lia.
        destruct (j - length seen)%nat eqn:Hd; simpl in Hj; [|done].
        simplify_eq. congruence.
    + destruct Hinv as [-> Hnone]. split; [done |].
      intros r [Hin | Hin]%elem_of_app; [eauto |].
      apply list_elem_of_singleton in Hin. by subst.
Qed.

Lemma route_loop_inv ql rest : forall seen best hp,
  loop_inv ql seen best hp ->
  loop_inv ql (seen ++ rest)
    (route_loop ql rest best hp).1 (route_loop ql rest best hp).2.
Proof.
  induction rest as [|rule rest IH]; intros seen best hp Hinv; simpl.
  - by rewrite app_nil_r.
  - apply (loop_inv_step ql seen rule) in Hinv. simpl in Hinv.
    replace (seen ++ rule :: rest) with ((seen ++ [rule]) ++ rest)
      by (by rewrite <- app_assoc).
    destruct (rule_matches ql rule && below (get_priority rule) hp);
      by apply IH.
Qed.

(** *** The rule that decides *)

(** A rule applies to a query when one of the keywords it lists is a
    literal substring of the lower-cased query; a rule that lists no
    keywords applies to none. *)
Definition keyword_hit (query : string) (r : RoutingRule) : Prop :=
  exists keywords kw,
    rule_keywords r = Some keywords /\ kw ∈ keywords /\
    literal_substring kw (lower query).

(** The priority of a rule; a rule that states none has priority 999. *)
Definition priority_of (r : RoutingRule) : Z :=
  match rule_priority r with
  | Some p => p
  | None => 999
  end.

(** The rule at position [i] wins: it applies, no rule that applies has
    a smaller priority, and none declared before it has the same. *)
Definition wins (query : string) (rules : list RoutingRule)
    (i : nat) (r : RoutingRule) : Prop :=
  rules !! i = Some r /\ keyword_hit query r /\
  forall (j : nat) (r' : RoutingRule),
    rules !! j = Some r' -> keyword_hit query r' ->
    priority_of r <= priority_of r' /\
    ((j < i)%nat -> priority_of r < priority_of r').

(** The agent a rule names, when it names one by an id that is not
    empty. *)
Definition named_agent (r : RoutingRule) : option string :=
  match rule_agent r with
  | Some a => if decide (a = "") then None else Some a
  | None => None
  end.

Lemma keyword_hit_applies query r : keyword_hit query r <-> rule_applies query r.
Proof.
  unfold keyword_hit, rule_applies, get_keywords. split.
  - intros (keywords & kw & Hk & Hin & Hsub). exists kw. by rewrite Hk.
  - intros (kw & Hin & Hsub). destruct (rule_keywords r) as [keywords|].
    + by exists keywords, kw.
    + by apply elem_of_nil in Hin.
Qed.

Lemma or_else_named r d :
  or_else (rule_agent r) d =
  match named_agent r with Some a => Some a | None => d end.
Proof.
  unfold or_else, named_agent. destruct (rule_agent r) as [a|]; [| done].
  destruct (decide (a = "")) as [-> | Hne]; [done |].
  by apply String.eqb_neq in Hne as ->.
Qed.

(** The registries of the scenarios: one rule for the keyword ["issue"];
    two rules for it with the priorities 1 and 2, in both orders; and
    two rules of the same priority. *)
Definition scenario_registry : AgentRegistry :=
  {| config_file := "agents.yaml";
     agents := [];
     routing_rules :=
       [ {| rule_keywords := Some ["issue"];
            rule_agent := Some "github-agent";
            rule_priority := Some 1 |} ];
     default_agent := Some "bedrock-agent";
     supervisor_config := [] |}.

Definition rule_for (keyword agent : string) (p : Z) : RoutingRule :=
  {| rule_keywords := Some [keyword]; rule_agent := Some agent;
     rule_priority := Some p |}.

Definition registry_of (rules : list RoutingRule) : AgentRegistry :=
  {| config_file := "agents.yaml"; agents := []; routing_rules := rules;
     default_agent := Some "bedrock-agent"; supervisor_config := [] |}.

(** C6 (amended). [route_query] lower-cases the query and scans every
    rule; a rule applies when one of its keywords is a literal substring
    of the lower-cased query.  If no rule applies the answer is the
    default agent.  Otherwise one rule wins, the one with the
    numerically smallest priority among the rules that apply and, among
    those of that priority, the one declared first; the answer is the
    agent the winner names, and the default agent when the winner names
    none.  In particular, of two rules that apply, with priorities 1 and
    2, the one with priority 1 decides in either order of declaration,
    of two with the same priority the first does, and the registry of
    the scenario routes its two queries as stated, the first also when
    it is written in capitals. *)
Theorem route_query_smallest_priority_first_declared
    (reg : AgentRegistry) (query : string) :
  (((forall r, r ∈ routing_rules reg -> ~ keyword_hit query r) /\
    route_query reg query = default_agent reg)
   \/
   (exists (i : nat) (r : RoutingRule),
       wins query (routing_rules reg) i r /\
       route_query reg query =
         match named_agent r with
         | Some a => Some a
         | None => default_agent reg
         end))
  /\
  route_query (registry_of [rule_for "issue" "github-agent" 1;
                            rule_for "open" "triage-agent" 2])
              "any open issues?" = Some "github-agent" /\
  route_query (registry_of [rule_for "open" "triage-agent" 2;
                            rule_for "issue" "github-agent" 1])
              "any open issues?" = Some "github-agent" /\
  route_query (registry_of [rule_for "open" "triage-agent" 1;
                            rule_for "issue" "github-agent" 1])
              "any open issues?" = Some "triage-agent" /\
  route_query scenario_registry "any open issues?" = Some "github-agent" /\
  route_query scenario_registry "hello" = Some "bedrock-agent" /\
  route_query scenario_registry "Any Open ISSUES?" = Some "github-agent".
Proof.
  split; [| by vm_compute].
  unfold route_query.
  pose proof (route_loop_inv (lower query) (routing_rules reg) [] None None)
    as Hinv.
  rewrite app_nil_l in Hinv.
  destruct (route_loop (lower query) (routing_rules reg) None None)
    as [best hp]; simpl in *.
  destruct hp as [p|]; simpl in Hinv.
  - right. destruct Hinv as (i & r & Hi & Hr & Hp & Hb & Hall).
    { split; [done |]. intros r Hin. by apply elem_of_nil in Hin. }
    exists i, r. split.
    + split; [done |]. split.
      * by apply keyword_hit_applies, rule_matches_applies.
      * intros j r' Hj Hr'. subst p.
        apply (Hall j r' Hj).
        by apply rule_matches_applies, keyword_hit_applies.
    + subst best. apply or_else_named.
  - left. destruct Hinv as [-> Hnone].
    { split; [done |]. intros r Hin. by apply elem_of_nil in Hin. }
    split; [| done].
    intros r Hin Happ.
    apply keyword_hit_applies, rule_matches_applies in Happ.
    rewrite Hnone in Happ; done.
Qed.

(** A rule that applies but names no agent, declared with the smallest
    priority, and a second rule that applies and names one. *)
Definition agentless_registry : AgentRegistry :=
  registry_of
    [ {| rule_keywords := Some ["issue"]; rule_agent := None;
         rule_priority := Some 1 |};
      rule_for "issue" "github-agent" 2 ].

Definition empty_agent_registry : AgentRegistry :=
  registry_of [rule_for "issue" "" 1].

Lemma issue_in_query : literal_substring "issue" (lower "any open issues?").
Proof. by exists "any open ", "s?". Qed.

(** C6, as stated, fails here: rules apply, yet the answer is the
    default agent and not the agent of the rule with the smallest
    priority (there is none; in the second registry it is the empty
    text). *)
Lemma route_query_winner_without_agent_gives_default :
  (exists r,
      wins "any open issues?" (routing_rules agentless_registry) 0 r /\
      rule_agent r = None /\
      route_query agentless_registry "any open issues?"
        = Some "bedrock-agent" /\
      default_agent agentless_registry = Some "bedrock-agent")
  /\
  (exists r,
      wins "any open issues?" (routing_rules empty_agent_registry) 0 r /\
      rule_agent r = Some "" /\
      route_query empty_agent_registry "any open issues?"
        = Some "bedrock-agent" /\
      route_query empty_agent_registry "any open issues?" <> rule_agent r).
Proof.
  assert (Hhit : forall agent p,
             keyword_hit "any open issues?"
               {| rule_keywords := Some ["issue"]; rule_agent := agent;
                  rule_priority := p |}).
  { intros agent p. exists ["issue"], "issue".
    split; [done |]. split; [by apply list_elem_of_singleton |].
    apply issue_in_query. }
  split.
  - exists {| rule_keywords := Some ["issue"]; rule_agent := None;
              rule_priority := Some 1 |}.
    split; [| by split_and!].
    split; [done |]. split; [apply Hhit |].
    intros [|[|j]] r' Hj _; cbn in Hj; simplify_eq; cbn; lia.
  - exists (rule_for "issue" "" 1).
    split; [| by split_and!].
    split; [done |]. split; [apply Hhit |].
    intros [|j] r' Hj _; cbn in Hj; simplify_eq; cbn; lia.
Qed.

Lemma scenario_rules_have_agents :
  Forall rule_has_agent (routing_rules scenario_registry).
Proof.
  repeat constructor. by exists "github-agent".
Qed.

Lemma route_query_scenario_issue :
  route_query scenario_registry "any open issues?" = Some "github-agent".
Proof. reflexivity. Qed.

Lemma route_query_scenario_hello :
  route_query scenario_registry "hello" = Some "bedrock-agent".
Proof. reflexivity. Qed.

Lemma route_query_scenario_upper :
  route_query scenario_registry "Any Open ISSUES?" = Some "github-agent".
Proof. reflexivity. Qed.

(** ** agent_registry.py: loading *)

(** The sources [load_config] cannot use: the file is missing, it cannot
    be opened or parsed, or what it holds is not a mapping (an empty
    file parses to [None]). *)
Definition source_broken (src : Loader.ConfigSource) : bool :=
  match src with
  | Loader.SourceParsed (JObj _) => false
  | _ => true
  end.

(** A source that holds nothing, and one whose routing rules are left
    empty in the file. *)
Definition empty_file : Loader.ConfigSource := Loader.SourceParsed JNull.

Definition rules_left_empty : list (string * json) :=
  [("routing_rules", JNull); ("default_agent", JStr "bedrock-agent")].

Definition reloaded_registry : Loader.RawRegistry :=
  {| Loader.config_file := "agents.yaml";
     Loader.agents := JObj [("github-agent", JObj [("id", JStr "github-agent")])];
     Loader.routing_rules :=
       JArr [JObj [("keywords", JArr [JStr "issue"]);
                   ("agent", JStr "github-agent"); ("priority", JInt 1)]];
     Loader.default_agent := JStr "bedrock-agent";
     Loader.supervisor_config := JObj [] |}.

Lemma route_query_no_rules reg query :
  Loader.routing_rules reg = JArr [] ->
  Loader.route_query reg query = Ok (Loader.default_agent reg).
Proof. intros Hr. unfold Loader.route_query. by rewrite Hr. Qed.

(** C7 (amended). [load_config] never raises.  When the source is
    missing, cannot be read or does not hold a mapping, it leaves the
    registry without agents and without routing rules and does not touch
    the default agent: [route_query] then answers every query with the
    default agent the registry had before, and on a registry that is
    being constructed there is none, so the answer is [None].  When the
    source holds a mapping, its four tables are stored as they are, with
    the defaults of the code for the keys that are absent; if what is
    stored as the routing rules cannot be iterated, [route_query] raises
    for every query. *)
Theorem load_config_broken_source_keeps_default
    (reg : Loader.RawRegistry) (src : Loader.ConfigSource) (query : string) :
  (source_broken src = true ->
   Loader.agents (Loader.load_config reg src) = JObj [] /\
   Loader.routing_rules (Loader.load_config reg src) = JArr [] /\
   Loader.default_agent (Loader.load_config reg src)
     = Loader.default_agent reg /\
   Loader.route_query (Loader.load_config reg src) query
     = Ok (Loader.default_agent reg) /\
   Loader.default_agent (Loader.init (Loader.config_file reg) src) = JNull /\
   Loader.route_query (Loader.init (Loader.config_file reg) src) query
     = Ok JNull)
  /\
  (forall members : list (string * json),
      src = Loader.SourceParsed (JObj members) ->
      Loader.agents (Loader.load_config reg src)
        = default (JObj []) (dict_get "agents" members) /\
      Loader.routing_rules (Loader.load_config reg src)
        = default (JArr []) (dict_get "routing_rules" members) /\
      Loader.default_agent (Loader.load_config reg src)
        = default (JStr "github-agent") (dict_get "default_agent" members) /\
      Loader.supervisor_config (Loader.load_config reg src)
        = default (JObj []) (dict_get "supervisor_config" members) /\
      forall e : exn,
        Loader.iterate (default (JArr []) (dict_get "routing_rules" members))
          = Raise e ->
        Loader.route_query (Loader.load_config reg src) query = Raise e).
Proof.
  split.
  - intros Hb.
    assert (Hload : forall r, Loader.load_config r src = Loader.cleared r).
    { intros r. destruct src as [| e | config]; [done | done |].
      by destruct config. }
    unfold Loader.init. rewrite !Hload.
    split_and!; try done; by apply route_query_no_rules.
  - intros members ->. cbn. split_and!; try done.
    intros e He. unfold Loader.route_query. cbn. by rewrite He.
Qed.

Lemma load_config_broken_source_witness :
  (source_broken empty_file = true /\
   Loader.agents (Loader.load_config reloaded_registry empty_file) = JObj [] /\
   Loader.routing_rules (Loader.load_config reloaded_registry empty_file)
     = JArr [] /\
   Loader.default_agent (Loader.load_config reloaded_registry empty_file)
     = Loader.default_agent reloaded_registry /\
   Loader.route_query (Loader.load_config reloaded_registry empty_file)
                      "any open issues?"
     = Ok (Loader.default_agent reloaded_registry) /\
   Loader.default_agent
     (Loader.init (Loader.config_file reloaded_registry) empty_file) = JNull /\
   Loader.route_query
     (Loader.init (Loader.config_file reloaded_registry) empty_file)
     "any open issues?" = Ok JNull)
  /\
  (Loader.SourceParsed (JObj rules_left_empty)
     = Loader.SourceParsed (JObj rules_left_empty) /\
   Loader.routing_rules
     (Loader.load_config reloaded_registry
        (Loader.SourceParsed (JObj rules_left_empty))) = JNull /\
   Loader.iterate (default (JArr []) (dict_get "routing_rules" rules_left_empty))
     = Raise (Exception "'NoneType' object is not iterable") /\
   Loader.route_query
     (Loader.load_config reloaded_registry
        (Loader.SourceParsed (JObj rules_left_empty)))
     "any open issues?"
     = Raise (Exception "'NoneType' object is not iterable")).
Proof.
  split.
  - split; [reflexivity |].
    apply (proj1 (load_config_broken_source_keeps_default
                    reloaded_registry empty_file "any open issues?")).
    reflexivity.
  - split; [reflexivity |].
    destruct (proj2 (load_config_broken_source_keeps_default
                       reloaded_registry
                       (Loader.SourceParsed (JObj rules_left_empty))
                       "any open issues?")
                rules_left_empty eq_refl) as (_ & Hrules & _ & _ & Hraise).
    split; [exact Hrules |]. split; [reflexivity |].
    apply Hraise. reflexivity.
Defined.

(** C7, as stated, fails here.  A registry constructed on a missing
    source has no default agent, and routing answers [None], not an
    agent id; a source whose routing rules are left empty is stored as
    it is, the registry is not empty, and routing raises. *)
Lemma route_query_after_failed_load_gives_no_agent :
  Loader.default_agent (Loader.init "agents.yaml" Loader.SourceMissing)
    = JNull /\
  Loader.route_query (Loader.init "agents.yaml" Loader.SourceMissing)
                     "any open issues?" = Ok JNull /\
  Loader.routing_rules
    (Loader.init "agents.yaml" (Loader.SourceParsed (JObj rules_left_empty)))
    = JNull /\
  Loader.default_agent
    (Loader.init "agents.yaml" (Loader.SourceParsed (JObj rules_left_empty)))
    = JStr "bedrock-agent" /\
  Loader.route_query
    (Loader.init "agents.yaml" (Loader.SourceParsed (JObj rules_left_empty)))
    "any open issues?"
    = Raise (Exception "'NoneType' object is not iterable").
Proof. vm_compute. done. Qed.

(** *** Tables of the documented shape

    [Registry] describes the registry whose rules are mappings with a
    list of texts as [keywords], a text as [agent] and an [int] as
    [priority], each of which may be absent.  On such tables the router
    over plain values and the router of [Registry] agree. *)

Definition encode_agent (a : option string) : json :=
  match a with
  | Some s => JStr s
  | None => JNull
  end.

Fixpoint typed_keywords (items : list json) : option (list string) :=
  match items with
  | [] => Some []
  | JStr s :: rest => cons s <$> typed_keywords rest
  | _ :: _ => None
  end.

Definition typed_rule (rule : json) : option RoutingRule :=
  match rule with
  | JObj members =>
      keywords ← match dict_get "keywords" members with
                 | None => Some None
                 | Some (JArr items) => Some <$> typed_keywords items
                 | Some _ => None
                 end;
      agent ← match dict_get "agent" members with
              | None | Some JNull => Some None
              | Some (JStr a) => Some (Some a)
              | Some _ => None
              end;
      priority ← match dict_get "priority" members with
                 | None => Some None
                 | Some (JInt p) => Some (Some p)
                 | Some _ => None
                 end;
      Some {| rule_keywords := keywords; rule_agent := agent;
              rule_priority := priority |}
  | _ => None
  end.

Fixpoint typed_rules (rules : list json) : option (list RoutingRule) :=
  match rules with
  | [] => Some []
  | rule :: rest =>
      r ← typed_rule rule; rs ← typed_rules rest; Some (r :: rs)
  end.

Lemma typed_keywords_spec items kws :
  typed_keywords items = Some kws -> items = map JStr kws.
Proof.
  revert kws. induction items as [|item items IH]; intros kws; cbn.
  - by intros [= <-].
  - destruct item; try done.
    destruct (typed_keywords items) as [kws'|]; [| done].
    intros [= <-]. cbn. by rewrite (IH kws').
Qed.

Lemma any_contained_texts kws ql :
  Loader.any_contained (map JStr kws) ql = Ok (existsb (str_contains ql) kws).
Proof.
  induction kws as [|kw kws IH]; [done |]. cbn.
  destruct (str_contains ql kw); [done |]. exact IH.
Qed.

Lemma typed_rule_spec rule r :
  typed_rule rule = Some r ->
  Loader.get rule "keywords" (JArr []) = Ok (JArr (map JStr (get_keywords r)))
  /\ Loader.get rule "priority" (JInt 999) = Ok (JInt (get_priority r))
  /\ Loader.get rule "agent" JNull = Ok (encode_agent (rule_agent r)).
Proof.
  destruct rule as [| | | | |members]; try done. cbn.
  destruct (dict_get "keywords" members) as [[| | | |items|]|] eqn:Hk;
    try done;
    destruct (dict_get "agent" members) as [[| | |a| |]|] eqn:Ha;
    try (by destruct (typed_keywords items));
    destruct (dict_get "priority" members) as [[| |p| | |]|] eqn:Hp;
    try (by destruct (typed_keywords items));
    try (destruct (typed_keywords items) as [kws|] eqn:Hi; [| done];
         apply typed_keywords_spec in Hi as ->);
    cbn; by intros [= <-].
Qed.

Lemma route_loop_typed ql rules :
  forall trules best hp,
    typed_rules rules = Some trules ->
    Loader.route_loop ql rules (encode_agent best) (JInt <$> hp)
    = Ok (encode_agent (route_loop ql trules best hp).1).
Proof.
  induction rules as [|rule rules IH]; intros trules best hp; cbn.
  - by intros [= <-].
  - destruct (typed_rule rule) as [r|] eqn:Hr; [| done].
    destruct (typed_rules rules) as [rs|] eqn:Hrs; [| done].
    intros [= <-]. cbn [route_loop].
    destruct (typed_rule_spec _ _ Hr) as (-> & -> & ->).
    cbn [Loader.iterate]. rewrite any_contained_texts.
    unfold rule_matches.
    destruct (existsb (str_contains ql) (get_keywords r)); cbn [andb].
    2:{ by apply IH. }
    destruct hp as [h|]; cbn.
    + destruct (get_priority r <? h).
      * by apply (IH rs (rule_agent r) (Some (get_priority r))).
      * by apply (IH rs best (Some h)).
    + by apply (IH rs (rule_agent r) (Some (get_priority r))).
Qed.

(** The registry of [Registry] as a view of the registry that
    [load_config] leaves. *)
Definition typed_view (raw : Loader.RawRegistry) (reg : AgentRegistry)
  : Prop :=
  exists rules,
    Loader.routing_rules raw = JArr rules /\
    typed_rules rules = Some (routing_rules reg) /\
    Loader.default_agent raw = encode_agent (default_agent reg).

Lemma route_query_typed raw reg query :
  typed_view raw reg ->
  Loader.route_query raw query = Ok (encode_agent (route_query reg query)).
Proof.
  intros (rules & Hrules & Htyped & Hdefault).
  unfold Loader.route_query, route_query. rewrite Hrules. cbn [Loader.iterate].
  rewrite (route_loop_typed _ _ _ None None Htyped), Hdefault.
  destruct (route_loop (lower query) (routing_rules reg) None None).1
    as [a|]; cbn; [| done].
  by destruct (String.eqb a "").
Qed.

(** The table of the scenario, as it comes from the file. *)
Definition scenario_file : Loader.ConfigSource :=
  Loader.SourceParsed
    (JObj [("routing_rules",
            JArr [JObj [("keywords", JArr [JStr "issue"]);
                        ("agent", JStr "github-agent");
                        ("priority", JInt 1)]]);
           ("default_agent", JStr "bedrock-agent")]).

Lemma scenario_file_typed :
  typed_view (Loader.init "agents.yaml" scenario_file) scenario_registry.
Proof. by eexists. Qed.

End RegistryFacts.

(** ** supervisor_agent.py: delegation and reconciliation *)

Module SupervisorFacts.
Import Registry Bedrock Protocol Supervisor.

Lemma literal_substring_mid (a x b : string) :
  literal_substring x (a +:+ x +:+ b).
Proof. by exists a, b. Qed.

Lemma literal_substring_app_l (x s t : string) :
  literal_substring x s -> literal_substring x (s +:+ t).
Proof.
  intros (pre & post & ->). exists pre, (post +:+ t).
  by rewrite !str_app_assoc.
Qed.

Lemma literal_substring_app_r (x s t : string) :
  literal_substring x t -> literal_substring x (s +:+ t).
Proof.
  intros (pre & post & ->). exists (s +:+ pre), post.
  by rewrite !str_app_assoc.
Qed.

(** A task built with a given, non-empty id draws nothing from the world. *)
Lemma new_task_request_given (tid : string) desc params req cap prio w :
  tid <> "" ->
  new_task_request (JStr tid) desc params req cap prio w =
    (Ok {| task_id := JStr tid; description := desc; parameters := params;
           requester_id := req; target_capability := cap; priority := prio |},
     w).
Proof.
  intros Hne. unfold new_task_request, bind, ret. simpl.
  by apply String.eqb_neq in Hne as ->.
Qed.

(** Neither delegate lets an exception escape. *)
Lemma execute_github_task_returns sup task w :
  exists v w', execute_github_task sup task w = (Ok v, w').
Proof.
  unfold execute_github_task.
  destruct (get_agent_config (registry sup) "github-agent") as [cfg|];
    [| by eexists _, _].
  destruct (cfg_is_empty cfg); [by eexists _, _ |].
  unfold try_except, bind, http_post, lift_result, ret, raise.
  destruct (http_oracle w _ _) as [e|r]; [by eexists _, _ |].
  destruct (status_code r =? 200); [| by eexists _, _].
  destruct (resp_json r) as [data|e]; [| by eexists _, _].
  destruct data; by eexists _, _.
Qed.

Lemma query_outcome client msg w :
  exists r, Bedrock.query client msg w =
    (r, {| http_log := http_log w; http_oracle := http_oracle w;
           bedrock_log := bedrock_log w ++ [msg];
           bedrock_oracle := bedrock_oracle w;
           ids_drawn := S (ids_drawn w); uuid_source := uuid_source w;
           clock := clock w |}).
Proof.
  unfold Bedrock.query, _generate_session_id, uuid4, draw, bind,
    bedrock_invoke, ret, raise. cbn.
  destruct (bedrock_oracle w _ _); by eexists.
Qed.

Lemma execute_bedrock_task_returns sup task w :
  exists v w', execute_bedrock_task sup task w = (Ok v, w').
Proof.
  unfold execute_bedrock_task.
  destruct (bedrock_agent_client sup) as [client|]; [| by eexists _, _].
  unfold try_except, bind, ret.
  destruct (query_outcome client (description task) w) as [r ->].
  destruct r; by eexists _, _.
Qed.

Lemma delegate_task_returns sup task target w :
  exists v w', delegate_task sup task target w = (Ok v, w').
Proof.
  unfold delegate_task.
  destruct (String.eqb target "github-agent");
    [apply execute_github_task_returns |].
  destruct (String.eqb target "bedrock-agent-001");
    [apply execute_bedrock_task_returns |].
  by eexists _, _.
Qed.

(** The two tasks [route_and_execute] builds. *)
Definition github_task_of (sup : SupervisorAgent) (user_query : string)
  : TaskRequest :=
  {| task_id := JStr "github-task"; description := JStr user_query;
     parameters := JObj [("query", JStr user_query)];
     requester_id := JStr (agent_id sup); target_capability := JNull;
     priority := JStr "normal" |}.

Definition bedrock_task_of (sup : SupervisorAgent) (user_query : string)
  : TaskRequest :=
  {| task_id := JStr "bedrock-task"; description := JStr user_query;
     parameters := JObj [("query", JStr user_query)];
     requester_id := JStr (agent_id sup); target_capability := JNull;
     priority := JStr "normal" |}.

(** [route_and_execute] unfolded along the outcomes of its two
    delegations. *)
Lemma route_and_execute_unfold sup q w g wg b wb :
  execute_github_task sup (github_task_of sup q) w = (Ok g, wg) ->
  execute_bedrock_task sup (bedrock_task_of sup q) wg = (Ok b, wb) ->
  route_and_execute sup q w = collate_responses sup q (Ok g) (Ok b) wb.
Proof.
  intros Hg Hb. unfold route_and_execute.
  unfold bind at 1. rewrite new_task_request_given by done.
  unfold bind at 1. rewrite new_task_request_given by done.
  unfold bind at 1. unfold settle, delegate_task. simpl.
  fold (github_task_of sup q). rewrite Hg.
  unfold bind at 1. fold (bedrock_task_of sup q). by rewrite Hb.
Qed.

Lemma collate_responses_returns sup q g b w :
  exists text w', collate_responses sup q g b w = (Ok text, w').
Proof.
  unfold collate_responses.
  destruct (bedrock_agent_client sup) as [client|]; [| by eexists _, _].
  unfold try_except.
  destruct (query_outcome client
              (JStr (collation_prompt q (outcome_content g) (outcome_content b)))
              w) as [r ->].
  destruct r; by eexists _, _.
Qed.

(** [route_and_execute] always returns a text. *)
Lemma route_and_execute_returns sup q w :
  exists text w', route_and_execute sup q w = (Ok text, w').
Proof.
  destruct (execute_github_task_returns sup (github_task_of sup q) w)
    as (g & wg & Hg).
  destruct (execute_bedrock_task_returns sup (bedrock_task_of sup q) wg)
    as (b & wb & Hb).
  rewrite (route_and_execute_unfold _ _ _ _ _ _ _ Hg Hb).
  apply collate_responses_returns.
Qed.

(** The prompt of the reconciliation call quotes both outcomes. *)
Lemma collation_prompt_quotes_github q g b :
  literal_substring (py_str g) (collation_prompt q g b).
Proof.
  unfold collation_prompt, format_agent_result.
  exists (prompt_head +:+ q +:+ prompt_before_github),
         (prompt_before_bedrock +:+ py_str b +:+ prompt_instructions).
  by rewrite !str_app_assoc.
Qed.

Lemma collation_prompt_quotes_bedrock q g b :
  literal_substring (py_str b) (collation_prompt q g b).
Proof.
  unfold collation_prompt, format_agent_result.
  exists (prompt_head +:+ q +:+ prompt_before_github +:+ py_str g +:+
          prompt_before_bedrock),
         prompt_instructions.
  by rewrite !str_app_assoc.
Qed.

Lemma simple_combination_quotes_github g b :
  literal_substring (py_str g) (simple_combination g b).
Proof. unfold simple_combination. apply literal_substring_mid. Qed.

Lemma simple_combination_quotes_bedrock g b :
  literal_substring (py_str b) (simple_combination g b).
Proof.
  unfold simple_combination.
  exists ("GitHub Agent: " +:+ py_str g +:+ nl +:+ nl +:+ "Bedrock Agent: "), "".
  by rewrite !str_app_assoc, str_app_empty_r.
Qed.

Lemma simple_combination_nonempty g b : simple_combination g b <> "".
Proof. unfold simple_combination. done. Qed.

(** How a failure of the structured-tool delegate reaches the join: as a
    text, not as an exception. *)
Lemma execute_github_task_transport_failure sup task cfg e w :
  get_agent_config (registry sup) "github-agent" = Some cfg ->
  cfg_is_empty cfg = false ->
  http_oracle w (length (http_log w))
    {| req_url := fmt_opt (cfg_endpoint cfg) +:+
                  default "/query" (cfg_query_endpoint cfg);
       req_headers := [];
       req_body := JObj [("query", description task);
                         ("parameters", parameters task)] |} = HttpFails e ->
  (execute_github_task sup task w).1 =
    Ok (JStr ("Failed to connect to github-agent: " +:+ exn_msg e)).
Proof.
  intros Hcfg Hne Ho. unfold execute_github_task. rewrite Hcfg, Hne.
  unfold try_except, bind, http_post. by rewrite Ho.
Qed.

Lemma execute_bedrock_task_failure sup task client e w :
  bedrock_agent_client sup = Some client ->
  bedrock_oracle w (length (bedrock_log w)) (description task) =
    BedrockFails e ->
  (execute_bedrock_task sup task w).1 =
    Ok (JStr ("Failed to execute Bedrock task: " +:+
              "Error calling Bedrock agent: " +:+ exn_msg e)).
Proof.
  intros Hc Ho. unfold execute_bedrock_task. rewrite Hc.
  unfold try_except, bind, Bedrock.query, _generate_session_id, uuid4, draw,
    bind, bedrock_invoke. cbn. by rewrite Ho.
Qed.

(** C1 (amended). [route_and_execute] never raises: it runs both
    delegations, each of which ends in a value (a failing delegate yields
    its failure as a text), and returns a text.  Without a reconciliation
    client the text is the labelled concatenation of both outcomes; with
    one, it is either the answer of the reconciliation call to a prompt
    that quotes both outcomes, or, when that call raises, the labelled
    concatenation followed by a note.  The labelled concatenation is not
    empty and quotes both outcomes. *)
Theorem route_and_execute_collects_both_outcomes
    (sup : SupervisorAgent) (q : string) (w : world) :
  exists (g b : json) (wg wb : world) (text : string) (w' : world),
    execute_github_task sup (github_task_of sup q) w = (Ok g, wg) /\
    execute_bedrock_task sup (bedrock_task_of sup q) wg = (Ok b, wb) /\
    route_and_execute sup q w = (Ok text, w') /\
    literal_substring (py_str g) (collation_prompt q g b) /\
    literal_substring (py_str b) (collation_prompt q g b) /\
    literal_substring (py_str g) (simple_combination g b) /\
    literal_substring (py_str b) (simple_combination g b) /\
    simple_combination g b <> "" /\
    match bedrock_agent_client sup with
    | None => text = simple_combination g b
    | Some client =>
        Bedrock.query client (JStr (collation_prompt q g b)) wb = (Ok text, w')
        \/
        exists e,
          Bedrock.query client (JStr (collation_prompt q g b)) wb =
            (Raise e, w') /\
          text = simple_combination g b +:+ nl +:+ nl +:+
                 "(Note: Response collation failed: " +:+ exn_msg e +:+ ")"
    end.
Proof.
  destruct (execute_github_task_returns sup (github_task_of sup q) w)
    as (g & wg & Hg).
  destruct (execute_bedrock_task_returns sup (bedrock_task_of sup q) wg)
    as (b & wb & Hb).
  pose proof (route_and_execute_unfold _ _ _ _ _ _ _ Hg Hb) as Hrun.
  unfold collate_responses in Hrun. simpl in Hrun.
  destruct (bedrock_agent_client sup) as [client|] eqn:Hc.
  - unfold try_except in Hrun.
    destruct (Bedrock.query client (JStr (collation_prompt q g b)) wb)
      as [[text|e] w'] eqn:Hq.
    + exists g, b, wg, wb, text, w'.
      split_and!; auto using collation_prompt_quotes_github,
        collation_prompt_quotes_bedrock, simple_combination_quotes_github,
        simple_combination_quotes_bedrock, simple_combination_nonempty.
    + eexists g, b, wg, wb, _, w'.
      split_and!; eauto using collation_prompt_quotes_github,
        collation_prompt_quotes_bedrock, simple_combination_quotes_github,
        simple_combination_quotes_bedrock, simple_combination_nonempty.
  - eexists g, b, wg, wb, _, wb.
    split_and!; eauto using collation_prompt_quotes_github,
      collation_prompt_quotes_bedrock, simple_combination_quotes_github,
      simple_combination_quotes_bedrock, simple_combination_nonempty.
Qed.

(** *** A run in which the reconciled answer drops both outcomes *)

Definition demo_github_config : AgentConfig :=
  {| cfg_id := Some "github-agent"; cfg_name := Some "GitHub Agent";
     cfg_type := Some "GitHubAgent"; cfg_description := None;
     cfg_capabilities := None;
     cfg_endpoint := Some "http://localhost:8001";
     cfg_capabilities_endpoint := None; cfg_query_endpoint := None;
     cfg_config := None |}.

Definition demo_registry : AgentRegistry :=
  {| config_file := "agents.yaml";
     agents := [("github-agent", demo_github_config)];
     routing_rules := [];
     default_agent := Some "github-agent";
     supervisor_config := [] |}.

Definition demo_client : BedrockAgentClient :=
  {| client_agent_id := "bedrock-agent-001"; region := "us-west-2";
     bedrock_agent_id := "6UIP6AIMXF"; agent_alias_id := "XPAAFIXWVU" |}.

Definition demo_supervisor : SupervisorAgent :=
  {| agent_id := "supervisor-001"; name := "Supervisor Agent";
     registry := demo_registry;
     bedrock_agent_client := Some demo_client;
     conversation := [] |}.

(** The tool agent is unreachable; the general-purpose agent answers the
    user's question; the reconciliation call streams no text. *)
Definition silent_reconciler_world : world :=
  {| http_log := [];
     http_oracle := fun _ _ => HttpFails (Exception "All connection attempts failed");
     bedrock_log := [];
     bedrock_oracle :=
       fun n _ =>
         match n with
         | O => BedrockStream [EvChunk (Some "Use git rebase -i.")]
         | S _ => BedrockStream []
         end;
     ids_drawn := 0;
     uuid_source := fun _ => "00000000-0000-4000-8000-000000000000";
     clock := fun _ => "2025-01-01T00:00:00" |}.

(** C1, as stated, fails here: one delegate fails, the other succeeds,
    and the returned text is empty. *)
Lemma route_and_execute_reply_can_be_empty :
  (execute_github_task demo_supervisor
     (github_task_of demo_supervisor "how do I rebase?")
     silent_reconciler_world).1 =
    Ok (JStr "Failed to connect to github-agent: All connection attempts failed")
  /\
  (execute_bedrock_task demo_supervisor
     (bedrock_task_of demo_supervisor "how do I rebase?")
     silent_reconciler_world).1 = Ok (JStr "Use git rebase -i.")
  /\
  (route_and_execute demo_supervisor "how do I rebase?"
     silent_reconciler_world).1 = Ok "".
Proof. vm_compute. done. Qed.

(** *** The two delegations act on separate parts of the world *)

Definition add_http (w : world) (reqs : list http_request) : world :=
  {| http_log := http_log w ++ reqs; http_oracle := http_oracle w;
     bedrock_log := bedrock_log w; bedrock_oracle := bedrock_oracle w;
     ids_drawn := ids_drawn w; uuid_source := uuid_source w;
     clock := clock w |}.

(** The world after the invocations [msgs] of the Bedrock agent: each is
    logged and has drawn its session id. *)
Definition add_bedrock (w : world) (msgs : list json) : world :=
  {| http_log := http_log w; http_oracle := http_oracle w;
     bedrock_log := bedrock_log w ++ msgs; bedrock_oracle := bedrock_oracle w;
     ids_drawn := (length msgs + ids_drawn w)%nat;
     uuid_source := uuid_source w;
     clock := clock w |}.

Lemma add_http_nil w : add_http w [] = w.
Proof. destruct w. unfold add_http. cbn. by rewrite app_nil_r. Qed.

Lemma add_bedrock_nil w : add_bedrock w [] = w.
Proof. destruct w. unfold add_bedrock. cbn. by rewrite app_nil_r. Qed.

(** The tool delegate reads the HTTP oracle and log only, and adds to
    the HTTP log only. *)
Lemma execute_github_task_frame sup task w :
  exists v reqs, forall w2,
    http_oracle w2 = http_oracle w -> http_log w2 = http_log w ->
    execute_github_task sup task w2 = (Ok v, add_http w2 reqs).
Proof.
  unfold execute_github_task.
  destruct (get_agent_config (registry sup) "github-agent") as [cfg|].
  2:{ eexists _, []. intros w2 _ _. by rewrite add_http_nil. }
  destruct (cfg_is_empty cfg).
  { eexists _, []. intros w2 _ _. by rewrite add_http_nil. }
  set (req := {| req_url := fmt_opt (cfg_endpoint cfg) +:+
                            default "/query" (cfg_query_endpoint cfg);
                 req_headers := [];
                 req_body := JObj [("query", description task);
                                   ("parameters", parameters task)] |}).
  unfold try_except, bind, http_post, lift_result, ret, raise.
  destruct (http_oracle w (length (http_log w)) req) as [e|r] eqn:Hh.
  { eexists _, [req]. intros w2 Ho Hl. unfold add_http. by rewrite Ho, Hl, Hh. }
  destruct (status_code r =? 200) eqn:Hs.
  2:{ eexists _, [req]. intros w2 Ho Hl. unfold add_http. by rewrite Ho, Hl, Hh, Hs. }
  destruct (resp_json r) as [data|e'] eqn:Hj.
  2:{ eexists _, [req]. intros w2 Ho Hl. unfold add_http. by rewrite Ho, Hl, Hh, Hs, Hj. }
  destruct data eqn:Hd;
    eexists _, [req]; intros w2 Ho Hl; unfold add_http; by rewrite Ho, Hl, Hh, Hs, Hj.
Qed.

(** The general-purpose delegate reads the Bedrock oracle and log only,
    and adds to the Bedrock log only. *)
Lemma execute_bedrock_task_frame sup task w :
  exists v msgs, forall w2,
    bedrock_oracle w2 = bedrock_oracle w -> bedrock_log w2 = bedrock_log w ->
    execute_bedrock_task sup task w2 = (Ok v, add_bedrock w2 msgs).
Proof.
  unfold execute_bedrock_task.
  destruct (bedrock_agent_client sup) as [client|].
  2:{ eexists _, []. intros w2 _ _. by rewrite add_bedrock_nil. }
  unfold try_except, bind, Bedrock.query, _generate_session_id, uuid4, draw,
    bind, bedrock_invoke, ret, raise. cbn.
  destruct (bedrock_oracle w (length (bedrock_log w)) (description task))
    eqn:Hb;
    eexists _, [description task]; intros w2 Ho Hl; unfold add_bedrock;
    cbn; by rewrite Ho, Hl, Hb.
Qed.

(** Both outcomes and the final world are the same whichever delegation
    runs first. *)
Lemma delegations_commute sup gt bt w :
  (let '(g, w1) := settle (execute_github_task sup gt) w in
   let '(b, w2) := settle (execute_bedrock_task sup bt) w1 in (g, b, w2)) =
  (let '(b, w1) := settle (execute_bedrock_task sup bt) w in
   let '(g, w2) := settle (execute_github_task sup gt) w1 in (g, b, w2)).
Proof.
  destruct (execute_github_task_frame sup gt w) as (g & reqs & Hg).
  destruct (execute_bedrock_task_frame sup bt w) as (b & msgs & Hb).
  unfold settle.
  rewrite (Hg w), (Hb (add_http w reqs)), (Hb w), (Hg (add_bedrock w msgs))
    by done.
  done.
Qed.

(** *** The conversation log *)

(** C9 (amended). Every [query] call completes.  It appends the user's
    entry, cuts the log to its most recent 10 entries, and only then,
    after the answer has been computed, appends the assistant's entry:
    the log is left with the last 10 entries up to and including the
    user's, in order, followed by the answer, 11 entries at most. *)
Theorem query_keeps_ten_then_appends_reply
    (sup : SupervisorAgent) (user_message : string) (w : world) :
  exists (response : string) (sup' : SupervisorAgent) (w' : world),
    query sup user_message w = (Ok (response, sup'), w') /\
    conversation sup' =
      drop (length (conversation sup) + 1 - 10)
           (conversation sup ++ [entry "user" user_message])
      ++ [entry "assistant" response] /\
    (length (conversation sup') <= 11)%nat.
Proof.
  unfold query.
  set (appended := conversation sup ++ [entry "user" user_message]).
  set (kept := if (10 <? length appended)%nat then last_ten appended
               else appended).
  destruct (route_and_execute_returns (set_conversation sup kept)
              user_message w) as (response & w' & Hrun).
  eexists response, _, w'. unfold bind. rewrite Hrun. split; [done |].
  assert (Hlen : length appended = (length (conversation sup) + 1)%nat).
  { unfold appended. by rewrite length_app. }
  assert (Hkept : kept = drop (length (conversation sup) + 1 - 10) appended).
  { unfold kept, last_ten. rewrite <- Hlen.
    destruct (10 <? length appended)%nat eqn:Hc; [done |].
    apply Nat.ltb_ge in Hc.
    by replace (length appended - 10)%nat with 0%nat by lia. }
  cbn. rewrite Hkept. split; [done |].
  rewrite length_app, length_drop, Hlen. cbn. lia.
Qed.

Fixpoint run_queries (sup : SupervisorAgent) (messages : list string)
  : M SupervisorAgent :=
  match messages with
  | [] => ret sup
  | m :: rest => out <- query sup m ;; run_queries out.2 rest
  end.

Definition fresh_supervisor : SupervisorAgent :=
  {| agent_id := "supervisor-001"; name := "Supervisor Agent";
     registry := demo_registry; bedrock_agent_client := None;
     conversation := [] |}.

(** C9, as stated, fails: six turns from an empty log leave 11 entries. *)
Lemma conversation_holds_eleven_after_six_turns :
  exists sup' w',
    run_queries fresh_supervisor ["q1"; "q2"; "q3"; "q4"; "q5"; "q6"]
                silent_reconciler_world = (Ok sup', w') /\
    length (conversation sup') = 11%nat /\
    ~ (length (conversation sup') <= 10)%nat.
Proof.
  eexists _, _. split; [vm_compute; reflexivity |]. cbn. split; [done | lia].
Qed.

(** *** Task responses *)

(** The invariant of the data model: failed exactly when an error is
    present and the result is absent. *)
Definition response_invariant (r : TaskResponse) : Prop :=
  resp_status r = JStr "failed" <->
  (resp_error r <> JNull /\ resp_result r = JNull).

(** Whenever the chosen delegate returns a value that is not truthy, the
    response is marked failed and carries no error. *)
Lemma respond_to_task_falsy_result sup task text target v w w' :
  description task = JStr text ->
  route_query (registry sup) text = Some target ->
  target <> "" ->
  is_agent_available (registry sup) target = true ->
  delegate_task sup task target w = (Ok v, w') ->
  truthy v = false ->
  exists r, respond_to_task sup task w = (Ok r, w') /\
            resp_status r = JStr "failed" /\ resp_error r = JNull /\
            ~ response_invariant r.
Proof.
  intros Hd Hr Hne Hav Hrun Hf. unfold respond_to_task.
  rewrite Hd, Hr, Hav. apply String.eqb_neq in Hne as ->. simpl.
  unfold bind. rewrite Hrun, Hf. eexists. split; [done |].
  split_and!; try done.
  unfold response_invariant. simpl. intros [Himp _].
  by destruct (Himp eq_refl) as [Hcontra _].
Qed.

(** The tool agent answers with status 200 and an empty result. *)
Definition empty_result_world : world :=
  {| http_log := [];
     http_oracle :=
       fun _ _ =>
         HttpAnswers {| status_code := 200; resp_session_id := None;
                        resp_json := Ok (JObj [("status", JStr "completed");
                                               ("result", JStr "");
                                               ("agent_id", JStr "github-agent-001")]);
                        resp_text := "" |};
     bedrock_log := [];
     bedrock_oracle := fun _ _ => BedrockStream [];
     ids_drawn := 0;
     uuid_source := fun _ => "00000000-0000-4000-8000-000000000000";
     clock := fun _ => "2025-01-01T00:00:00" |}.

Definition demo_task_message : AgentMessage :=
  {| sender_id := JStr "client-007"; recipient_id := JStr "supervisor-001";
     message_type := JStr "task_request";
     content := JObj [("task_id", JStr "t-1");
                      ("description", JStr "list open pull requests");
                      ("parameters", JObj []);
                      ("requester_id", JStr "client-007")];
     timestamp := JStr "2025-01-01T00:00:00";
     message_id := JStr "m-1" |}.

(** C8 (the code at the failing input). The reply to a task whose
    delegate returns the empty text is marked failed, holds the empty
    text as its result and has no error: the invariant of the data model
    does not hold for it. *)
Theorem handle_task_request_failed_without_error :
  exists reply w',
    handle_task_request demo_supervisor demo_task_message empty_result_world =
      (Ok (Some reply), w') /\
    content reply =
      JObj [("task_id", JStr "t-1"); ("status", JStr "failed");
            ("result", JStr ""); ("error", JNull);
            ("agent_id", JStr "supervisor-001")].
Proof. eexists _, _. split; vm_compute; reflexivity. Qed.

End SupervisorFacts.

(** ** Dictionaries *)

Section DictFacts.
Context {V : Type}.
Implicit Types (d : list (string * V)) (k : string) (v : V).

Lemma dict_get_None d k : dict_get k d = None <-> k ∉ d.*1.
Proof.
  induction d as [|[k' v'] d IH]; simpl.
  - split; [intros _; apply not_elem_of_nil | done].
  - destruct (String.eqb_spec k k') as [->|Hne].
    + split; [done | intros Hn; exfalso; apply Hn; left].
    + rewrite IH, not_elem_of_cons. tauto.
Qed.

Lemma dict_get_Some_elem d k v : dict_get k d = Some v -> (k, v) ∈ d.
Proof.
  induction d as [|[k' v'] d IH]; simpl; [done |].
  destruct (String.eqb_spec k k') as [->|Hne].
  - intros [= ->]. left.
  - intros H. right. auto.
Qed.

Lemma dict_get_elem_NoDup d k v :
  NoDup d.*1 -> (k, v) ∈ d -> dict_get k d = Some v.
Proof.
  induction d as [|[k' v'] d IH]; simpl; intros Hnd Hin.
  - by apply elem_of_nil in Hin.
  - apply NoDup_cons in Hnd as [Hk' Hnd].
    apply elem_of_cons in Hin as [[= -> ->] | Hin].
    + by rewrite String.eqb_refl.
    + destruct (String.eqb_spec k k') as [->|Hne]; [| by apply IH].
      exfalso. apply Hk'. apply list_elem_of_fmap. by exists (k', v).
Qed.

Lemma dict_get_set_eq d k v : dict_get k (dict_set k v d) = Some v.
Proof.
  induction d as [|[k' v'] d IH]; simpl.
  - by rewrite String.eqb_refl.
  - destruct (String.eqb_spec k k') as [->|Hne]; simpl.
    + by rewrite String.eqb_refl.
    + by apply String.eqb_neq in Hne as ->.
Qed.

Lemma dict_get_set_ne d k k' v :
  k <> k' -> dict_get k' (dict_set k v d) = dict_get k' d.
Proof.
  intros Hne. induction d as [|[k0 v0] d IH]; simpl.
  - apply not_eq_sym in Hne. by apply String.eqb_neq in Hne as ->.
  - destruct (String.eqb_spec k k0) as [->|Hne0]; simpl.
    + apply not_eq_sym in Hne. by apply String.eqb_neq in Hne as ->.
    + by rewrite IH.
Qed.

(** A new key goes to the end of the dictionary. *)
Lemma dict_set_fresh d k v : dict_get k d = None -> dict_set k v d = d ++ [(k, v)].
Proof.
  induction d as [|[k' v'] d IH]; simpl; [done |].
  destruct (String.eqb_spec k k') as [->|Hne]; [done |].
  intros H. by rewrite IH.
Qed.

(** An existing key keeps its position. *)
Lemma dict_set_present_length d k v v0 :
  dict_get k d = Some v0 -> length (dict_set k v d) = length d.
Proof.
  induction d as [|[k' v'] d IH]; simpl; [done |].
  destruct (String.eqb_spec k k') as [->|Hne]; [done |].
  intros H. simpl. by rewrite IH.
Qed.

Lemma dict_set_keys_present d k v v0 :
  dict_get k d = Some v0 -> (dict_set k v d).*1 = d.*1.
Proof.
  induction d as [|[k' v'] d IH]; simpl; [done |].
  destruct (String.eqb_spec k k') as [->|Hne]; [done |].
  intros H. simpl. f_equal. by apply IH.
Qed.

Lemma dict_set_NoDup d k v : NoDup d.*1 -> NoDup (dict_set k v d).*1.
Proof.
  intros Hnd. destruct (dict_get k d) as [v0|] eqn:Hg.
  - by rewrite (dict_set_keys_present _ _ _ _ Hg).
  - rewrite dict_set_fresh by done. rewrite fmap_app. simpl.
    apply NoDup_app. split_and!; [done | | apply NoDup_singleton].
    intros x Hx ->%list_elem_of_singleton. by apply dict_get_None in Hg.
Qed.

(** Deleting the first [n] keys, one after the other, removes the first
    [n] entries. *)
Lemma dict_del_first_keys d n :
  fold_left (fun d k => dict_del k d) (take n (dict_keys d)) d = drop n d.
Proof.
  revert d. induction n as [|n IH]; intros d; [done |].
  destruct d as [|[k v] d]; [done |]. simpl.
  rewrite String.eqb_refl. apply IH.
Qed.

Lemma dict_get_app_fresh d k v :
  dict_get k d = None -> dict_get k (d ++ [(k, v)]) = Some v.
Proof.
  induction d as [|[k' v'] d IH]; simpl.
  - by rewrite String.eqb_refl.
  - destruct (String.eqb_spec k k'); [done | auto].
Qed.

Lemma dict_get_drop_None d k n : dict_get k d = None -> dict_get k (drop n d) = None.
Proof.
  rewrite !dict_get_None. intros Hn Hin. apply Hn.
  apply list_elem_of_fmap in Hin as (kv & -> & Hin).
  apply list_elem_of_fmap. exists kv. split; [done |].
  by eapply subseteq_drop.
Qed.

End DictFacts.

(** ** Sorting the members of a dictionary by key *)

Section SortFacts.
Context {V : Type}.
Implicit Types (l : list (string * V)) (x : string * V).

Definition key_le (a b : string * V) : Prop := String.le a.1 b.1.

Lemma insert_by_key_perm x l : Json.insert_by_key x l ≡ₚ x :: l.
Proof.
  induction l as [|y l IH]; simpl; [done |].
  destruct (String.leb x.1 y.1); [done |].
  rewrite IH. apply Permutation_swap.
Qed.

Lemma sort_items_perm l : Json.sort_items l ≡ₚ l.
Proof.
  induction l as [|x l IH]; simpl; [done |].
  unfold Json.sort_items in *. simpl. by rewrite insert_by_key_perm, IH.
Qed.

Lemma insert_by_key_sorted x l :
  StronglySorted key_le l -> StronglySorted key_le (Json.insert_by_key x l).
Proof.
  induction 1 as [|y l Hs IH Hall]; simpl.
  - repeat constructor.
  - destruct (String.leb x.1 y.1) eqn:Hle.
    + constructor; [by constructor |].
      assert (key_le x y) as Hxy by (unfold key_le, String.le; by rewrite Hle).
      constructor; [done |].
      eapply Forall_impl; [exact Hall |].
      intros z Hz. unfold key_le in *. by etrans.
    + constructor; [done |].
      rewrite insert_by_key_perm. constructor; [| done].
      unfold key_le. destruct (total String.le y.1 x.1) as [H|H]; [done |].
      unfold String.le in H. rewrite Hle in H. done.
Qed.

Lemma sort_items_sorted l : StronglySorted key_le (Json.sort_items l).
Proof.
  induction l as [|x l IH]; [constructor |].
  unfold Json.sort_items in *. simpl. by apply insert_by_key_sorted.
Qed.

(** With pairwise distinct keys the sorted order does not depend on the
    order in which the members were inserted. *)
Lemma sort_items_permutation l l' :
  NoDup l.*1 -> l ≡ₚ l' -> Json.sort_items l = Json.sort_items l'.
Proof.
  intros Hnd Hp.
  apply (StronglySorted_unique_strong key_le);
    [| apply sort_items_sorted | apply sort_items_sorted
     | by rewrite !sort_items_perm].
  intros [k1 v1] [k2 v2] H1 H2 Hle1 Hle2.
  unfold key_le in *. simpl in *.
  assert (k1 = k2) as <- by (by apply (anti_symm String.le)).
  rewrite sort_items_perm in H1. rewrite sort_items_perm, <- Hp in H2.
  apply (dict_get_elem_NoDup _ _ _ Hnd) in H1, H2. congruence.
Qed.

End SortFacts.

(** ** agent.py: the result cache *)

Module CacheFacts.
Import MCP GitHubAgent.

(** The eviction removes the first ten entries. *)
Lemma evict_drop cache :
  evict cache = if (50 <? length cache)%nat then drop 10 cache else cache.
Proof.
  unfold evict. destruct (50 <? length cache)%nat; [| done].
  apply dict_del_first_keys.
Qed.

Lemma cache_put_unfold cache key v :
  cache_put cache key v =
    if (50 <? length (dict_set key v cache))%nat
    then drop 10 (dict_set key v cache) else dict_set key v cache.
Proof. unfold cache_put. apply evict_drop. Qed.

(** The cache never holds more than 50 entries between two calls. *)
Lemma cache_put_bound cache key v :
  (length cache <= 50)%nat -> (length (cache_put cache key v) <= 50)%nat.
Proof.
  intros Hlen. rewrite cache_put_unfold.
  assert (length (dict_set key v cache) <= 51)%nat as Hset.
  { destruct (dict_get key cache) as [v0|] eqn:Hg.
    - rewrite (dict_set_present_length _ _ _ _ Hg). lia.
    - rewrite dict_set_fresh, length_app by done. simpl. lia. }
  destruct (50 <? length (dict_set key v cache))%nat eqn:Hc.
  - rewrite length_drop. lia.
  - apply Nat.ltb_ge in Hc. lia.
Qed.

Lemma cache_put_NoDup cache key v :
  NoDup cache.*1 -> NoDup (cache_put cache key v).*1.
Proof.
  intros Hnd. rewrite cache_put_unfold.
  pose proof (dict_set_NoDup _ key v Hnd) as Hs.
  destruct (50 <? length (dict_set key v cache))%nat; [| done].
  rewrite fmap_drop. eapply sublist_NoDup; [exact Hs | apply sublist_drop].
Qed.

(** A value just stored is found again. *)
Lemma cache_get_put cache key v :
  (length cache <= 50)%nat ->
  cache_get (cache_put cache key v) key = Some v.
Proof.
  intros Hlen. unfold cache_get. rewrite cache_put_unfold.
  destruct (dict_get key cache) as [v0|] eqn:Hg.
  - rewrite (dict_set_present_length _ _ _ _ Hg).
    replace (50 <? length cache)%nat with false
      by (symmetry; apply Nat.ltb_ge; lia).
    apply dict_get_set_eq.
  - rewrite dict_set_fresh by done.
    destruct (50 <? length (cache ++ [(key, v)]))%nat eqn:Hc.
    + rewrite length_app in Hc. simpl in Hc. apply Nat.ltb_lt in Hc.
      rewrite drop_app_le by lia.
      apply dict_get_app_fresh. by apply dict_get_drop_None.
    + by apply dict_get_app_fresh.
Qed.

Definition store_all (entries : list (string * json)) : list (string * json) :=
  fold_left (fun cache kv => cache_put cache kv.1 kv.2) entries [].

Lemma store_all_small entries :
  NoDup entries.*1 -> (length entries <= 50)%nat -> store_all entries = entries.
Proof.
  unfold store_all.
  induction entries as [|[k v] entries IH] using rev_ind; [done |].
  rewrite fmap_app, length_app, fold_left_app. simpl.
  intros [Hnd [Hfresh _]]%NoDup_app Hlen.
  rewrite IH by (done || lia).
  rewrite cache_put_unfold, dict_set_fresh.
  - rewrite length_app. simpl.
    by replace (50 <? length entries + 1)%nat with false
      by (symmetry; apply Nat.ltb_ge; lia).
  - apply dict_get_None. intros Hin. apply (Hfresh k Hin). left.
Qed.

Lemma store_all_51 entries :
  NoDup entries.*1 -> length entries = 51%nat ->
  store_all entries = drop 10 entries.
Proof.
  destruct entries as [|[k v] entries _] using rev_ind; [done |].
  rewrite fmap_app, length_app. simpl.
  intros Hnd Hlen. pose proof Hnd as [Hnd' [Hfresh _]]%NoDup_app.
  unfold store_all. rewrite fold_left_app. simpl.
  fold (store_all entries). rewrite store_all_small by (done || lia).
  rewrite cache_put_unfold, dict_set_fresh.
  - rewrite length_app. simpl.
    by replace (50 <? length entries + 1)%nat with true
      by (symmetry; apply Nat.ltb_lt; lia).
  - apply dict_get_None. intros Hin. apply (Hfresh k Hin). left.
Qed.

(** C4. The cache evicts in batches: a store that brings the number of
    entries above 50 is followed by the removal of the 10 entries that
    were inserted first, and of no other.  In particular, after 51
    entries with distinct keys have been stored in an empty cache, the
    10 stored first are gone and the 41 stored last are retrievable. *)
Theorem cache_evicts_oldest_ten_in_one_batch :
  (forall (cache : list (string * json)) (key : string) (v : json),
      cache_put cache key v =
        if (50 <? length (dict_set key v cache))%nat
        then drop 10 (dict_set key v cache) else dict_set key v cache) /\
  (forall entries : list (string * json),
      NoDup entries.*1 -> length entries = 51%nat ->
      length (store_all entries) = 41%nat /\
      forall (i : nat) (key : string) (v : json),
        entries !! i = Some (key, v) ->
        cache_get (store_all entries) key =
          if (i <? 10)%nat then None else Some v).
Proof.
  split; [apply cache_put_unfold |].
  intros entries Hnd Hlen. rewrite store_all_51 by done.
  split; [rewrite length_drop; lia |].
  intros i key v Hi. unfold cache_get.
  rewrite <- (take_drop 10 entries) in Hnd, Hi.
  rewrite fmap_app in Hnd. apply NoDup_app in Hnd as (_ & Hdisj & Hnd).
  destruct (i <? 10)%nat eqn:Hc.
  - apply Nat.ltb_lt in Hc. apply dict_get_None.
    apply Hdisj. apply list_elem_of_fmap. exists (key, v). split; [done |].
    rewrite lookup_app_l in Hi by (rewrite length_take; lia).
    by eapply list_elem_of_lookup_2.
  - apply Nat.ltb_ge in Hc. apply dict_get_elem_NoDup; [done |].
    rewrite lookup_app_r in Hi by (rewrite length_take; lia).
    by eapply list_elem_of_lookup_2.
Qed.

(** Fifty-one entries with the keys ["0"], ..., ["50"]. *)
Definition numbered_entries : list (string * json) :=
  (fun n : nat => (pretty n, JInt (Z.of_nat n))) <$> seq 0 51.

Lemma numbered_entries_distinct : NoDup numbered_entries.*1.
Proof. apply (bool_decide_unpack _). by vm_compute. Qed.

Lemma cache_evicts_oldest_ten_witness :
  NoDup numbered_entries.*1 /\ length numbered_entries = 51%nat /\
  length (store_all numbered_entries) = 41%nat /\
  cache_get (store_all numbered_entries) "9" = None /\
  cache_get (store_all numbered_entries) "10" = Some (JInt 10).
Proof.
  pose proof (proj2 cache_evicts_oldest_ten_in_one_batch numbered_entries
                numbered_entries_distinct eq_refl) as [Hlen Hget].
  split_and!; [exact numbered_entries_distinct | reflexivity | exact Hlen | |].
  - exact (Hget 9%nat "9" (JInt 9) eq_refl).
  - exact (Hget 10%nat "10" (JInt 10) eq_refl).
Defined.

(** *** The cache key *)

Lemma dumps_obj sort_keys members :
  Json.dumps sort_keys (JObj members) =
    "{" +:+
    join ", "
      (map Json.dump_member
         (if sort_keys
          then Json.sort_items
                 (map (fun kv => let '(k, v) := kv in (k, Json.dumps sort_keys v))
                      members)
          else map (fun kv => let '(k, v) := kv in (k, Json.dumps sort_keys v))
                   members))
    +:+ "}".
Proof. reflexivity. Qed.

Lemma rendered_keys sort_keys (members : list (string * json)) :
  (map (fun kv => let '(k, v) := kv in (k, Json.dumps sort_keys v)) members).*1
  = members.*1.
Proof.
  induction members as [|[k v] members IH]; [done |]. simpl. by f_equal.
Qed.

(** Two argument maps with the same members, inserted in different
    orders, are serialized to the same text. *)
Lemma dumps_sorted_permutation (args args' : list (string * json)) :
  NoDup args.*1 -> args ≡ₚ args' ->
  Json.dumps true (JObj args) = Json.dumps true (JObj args').
Proof.
  intros Hnd Hp. rewrite !dumps_obj. do 4 f_equal.
  apply sort_items_permutation.
  - by rewrite rendered_keys.
  - by apply fmap_Permutation.
Qed.

(** C5. The cache key is the digest of the operation name, a colon and
    the arguments serialized with sorted keys; two argument maps with the
    same members, whatever the order of insertion, have the same key; and
    a value stored under the key of [(operation, arguments)] is returned
    by a look-up of [(operation, arguments)], whichever of the two maps
    is used. *)
Theorem cache_round_trip_any_argument_order
    (md5_hexdigest : string -> string) (cache : list (string * json))
    (operation : string) (args args' : list (string * json)) (v : json) :
  (length cache <= 50)%nat -> NoDup args.*1 -> args ≡ₚ args' ->
  get_cache_key md5_hexdigest operation args =
    md5_hexdigest (operation +:+ ":" +:+ Json.dumps true (JObj args)) /\
  get_cache_key md5_hexdigest operation args' =
    get_cache_key md5_hexdigest operation args /\
  cache_get (cache_put cache (get_cache_key md5_hexdigest operation args) v)
            (get_cache_key md5_hexdigest operation args') = Some v.
Proof.
  intros Hlen Hnd Hp.
  assert (get_cache_key md5_hexdigest operation args' =
          get_cache_key md5_hexdigest operation args) as Hkey.
  { unfold get_cache_key, key_data.
    by rewrite (dumps_sorted_permutation args args'). }
  split_and!; [done | done |].
  rewrite Hkey. by apply cache_get_put.
Qed.

(** A stand-in digest for running examples: the text itself. *)
Definition plain_digest (s : string) : string := s.

Lemma cache_round_trip_witness :
  (length (@nil (string * json)) <= 50)%nat /\
  NoDup [("owner", JStr "junipersquare"); ("repo", JStr "main")].*1 /\
  [("owner", JStr "junipersquare"); ("repo", JStr "main")] ≡ₚ
  [("repo", JStr "main"); ("owner", JStr "junipersquare")] /\
  get_cache_key plain_digest "list_issues"
    [("repo", JStr "main"); ("owner", JStr "junipersquare")] =
  get_cache_key plain_digest "list_issues"
    [("owner", JStr "junipersquare"); ("repo", JStr "main")] /\
  cache_get
    (cache_put [] (get_cache_key plain_digest "list_issues"
                     [("owner", JStr "junipersquare"); ("repo", JStr "main")])
               (JStr "42 issues"))
    (get_cache_key plain_digest "list_issues"
       [("repo", JStr "main"); ("owner", JStr "junipersquare")]) =
  Some (JStr "42 issues").
Proof.
  assert (NoDup [("owner", JStr "junipersquare"); ("repo", JStr "main")].*1)
    as Hnd by (apply (bool_decide_unpack _); by vm_compute).
  assert ([("owner", JStr "junipersquare"); ("repo", JStr "main")] ≡ₚ
          [("repo", JStr "main"); ("owner", JStr "junipersquare")])
    as Hp by apply Permutation_swap.
  destruct (cache_round_trip_any_argument_order plain_digest [] "list_issues"
              _ _ (JStr "42 issues") (Nat.le_0_l 50) Hnd Hp)
    as (_ & Hkey & Hget).
  split_and!; [apply Nat.le_0_l | exact Hnd | exact Hp | exact Hkey | exact Hget].
Defined.

Example cache_key_text :
  key_data "list_issues" [("repo", JStr "main"); ("owner", JStr "junipersquare")]
  = "list_issues:{" +:+ str1 dquote +:+ "owner" +:+ str1 dquote +:+ ": "
    +:+ str1 dquote +:+ "junipersquare" +:+ str1 dquote +:+ ", "
    +:+ str1 dquote +:+ "repo" +:+ str1 dquote +:+ ": "
    +:+ str1 dquote +:+ "main" +:+ str1 dquote +:+ "}".
Proof. reflexivity. Qed.

End CacheFacts.

(** ** mcp_client.py: the handshake *)

Module MCPFacts.
Import MCP GitHubAgent.

Definition initialize_request (c : GitHubMCPClient) : http_request :=
  {| req_url := base_url c; req_headers := headers c;
     req_body := initialize_body |}.

Definition call_request (c : GitHubMCPClient) (tool_name : string)
    (arguments : list (string * json)) : http_request :=
  {| req_url := base_url c; req_headers := headers c;
     req_body := call_body tool_name arguments |}.

(** A handshake whose first round trip does not report status 200
    returns 0, issues that one request, and leaves the tool table and the
    headers as they were; the session object exists from then on. *)
Lemma initialize_refused c w r :
  http_oracle w (length (http_log w)) (initialize_request c) = HttpAnswers r ->
  status_code r <> 200 ->
  MCP.initialize c w =
    (Ok (0, set_session c true),
     {| http_log := http_log w ++ [initialize_request c];
        http_oracle := http_oracle w; bedrock_log := bedrock_log w;
        bedrock_oracle := bedrock_oracle w; ids_drawn := ids_drawn w;
        uuid_source := uuid_source w; clock := clock w |}).
Proof.
  intros Ho Hs. unfold MCP.initialize, or_zero, rpc, http_post. cbn.
  unfold initialize_request in Ho. rewrite Ho.
  apply Z.eqb_neq in Hs. by rewrite Hs.
Qed.

(** Before [initialize] has been called, [call_tool] raises without
    touching the network. *)
Lemma call_tool_without_session c tool_name arguments w :
  session c = false ->
  call_tool c tool_name arguments w =
    (Raise (Exception "MCP session not initialized"), w).
Proof. intros Hs. unfold call_tool. by rewrite Hs. Qed.

(** Once the session object exists, [call_tool] issues its request. *)
Lemma call_tool_with_session c tool_name arguments w :
  session c = true ->
  exists out w',
    call_tool c tool_name arguments w = (out, w') /\
    http_log w' = http_log w ++ [call_request c tool_name arguments].
Proof.
  intros Hs. unfold call_tool. rewrite Hs. cbn.
  unfold bind, rpc, http_post, lift_result, raise.
  fold (call_request c tool_name arguments).
  destruct (http_oracle w _ _) as [e|r]; [by eexists _, _ |].
  destruct (status_code r =? 200); cbn; [| by eexists _, _].
  destruct (resp_json r) as [data|e]; by eexists _, _.
Qed.

(** With an empty tool table and an empty cache the agent answers every
    tool call itself. *)
Lemma execute_tool_no_tools md5_hexdigest a tc w :
  tools (mcp_client a) = ∅ -> result_cache a = [] ->
  execute_tool md5_hexdigest a tc w = ((unavailable (call_name tc), a), w).
Proof.
  intros Ht Hc. unfold execute_tool. rewrite Ht, Hc.
  destruct (bool_decide _); by rewrite ?lookup_empty.
Qed.

(** C2 (amended). If the [initialize] call of a new client reports a
    status other than 200, the handshake returns 0 and the client has no
    tools.  [call_tool] raises "MCP session not initialized", without a
    request, on the client on which [initialize] was never called; on the
    client left by the failed handshake the session object exists and
    [call_tool] sends its request for every tool name.  The agent, which
    looks the tool up first, answers every tool call with "Tool ... not
    available" and sends nothing. *)
Theorem failed_handshake_leaves_no_tools
    (token : option string) (toolsets_arg : list string) (readonly_arg : bool)
    (w : world) (r : http_response)
    (tool_name : string) (arguments : list (string * json)) :
  let c := MCP.init token toolsets_arg readonly_arg in
  http_oracle w (length (http_log w)) (initialize_request c) = HttpAnswers r ->
  status_code r <> 200 ->
  exists (c' : GitHubMCPClient) (w' : world),
    MCP.initialize c w = (Ok (0, c'), w') /\
    tools c' = ∅ /\ size (tools c') = 0%nat /\
    http_log w' = http_log w ++ [initialize_request c] /\
    call_tool c tool_name arguments w =
      (Raise (Exception "MCP session not initialized"), w) /\
    (exists out w'',
        call_tool c' tool_name arguments w' = (out, w'') /\
        http_log w'' = http_log w' ++ [call_request c' tool_name arguments]) /\
    (forall md5_hexdigest a,
        mcp_client a = c' -> result_cache a = [] ->
        execute_tool md5_hexdigest a
          {| call_name := tool_name; call_arguments := arguments |} w' =
          ((unavailable tool_name, a), w')).
Proof.
  intros c Ho Hs. eexists _, _.
  split; [by apply (initialize_refused c w r) |].
  split; [done |]. split; [done |]. split; [done |].
  split; [by apply call_tool_without_session |].
  split; [by apply call_tool_with_session |].
  intros md5_hexdigest a Ha Hc.
  apply (execute_tool_no_tools md5_hexdigest a
           {| call_name := tool_name; call_arguments := arguments |});
    [by rewrite Ha | done].
Qed.

(** The provider refuses the handshake and answers everything else. *)
Definition refusing_world : world :=
  {| http_log := [];
     http_oracle :=
       fun n _ =>
         match n with
         | O => HttpAnswers {| status_code := 401; resp_session_id := None;
                               resp_json := Raise (Exception "Expecting value");
                               resp_text := "Unauthorized" |}
         | S _ => HttpAnswers {| status_code := 200; resp_session_id := None;
                                 resp_json :=
                                   Ok (JObj [("result", JObj [("login", JStr "octocat")])]);
                                 resp_text := "" |}
         end;
     bedrock_log := [];
     bedrock_oracle := fun _ _ => BedrockStream [];
     ids_drawn := 0;
     uuid_source := fun _ => "00000000-0000-4000-8000-000000000000";
     clock := fun _ => "2025-01-01T00:00:00" |}.

Definition new_client : GitHubMCPClient := MCP.init (Some "ghp_token") [] true.

Definition refused_response : http_response :=
  {| status_code := 401; resp_session_id := None;
     resp_json := Raise (Exception "Expecting value");
     resp_text := "Unauthorized" |}.

Lemma failed_handshake_witness :
  exists (c' : GitHubMCPClient) (w' : world),
    MCP.initialize new_client refusing_world = (Ok (0, c'), w') /\
    tools c' = ∅ /\ size (tools c') = 0%nat /\
    http_log w' = http_log refusing_world ++ [initialize_request new_client] /\
    call_tool new_client "get_me" [] refusing_world =
      (Raise (Exception "MCP session not initialized"), refusing_world) /\
    (exists out w'',
        call_tool c' "get_me" [] w' = (out, w'') /\
        http_log w'' = http_log w' ++ [call_request c' "get_me" []]) /\
    (forall md5_hexdigest a,
        mcp_client a = c' -> result_cache a = [] ->
        execute_tool md5_hexdigest a
          {| call_name := "get_me"; call_arguments := [] |} w' =
          ((unavailable "get_me", a), w')).
Proof.
  apply (failed_handshake_leaves_no_tools (Some "ghp_token") [] true
           refusing_world refused_response "get_me" []).
  - reflexivity.
  - cbn. lia.
Defined.

(** C2, as stated, fails: after the refused handshake [call_tool]
    reaches the network and returns the provider's result. *)
Lemma call_tool_after_failed_handshake_reaches_network :
  exists c' w' w'',
    MCP.initialize new_client refusing_world = (Ok (0, c'), w') /\
    size (tools c') = 0%nat /\
    call_tool c' "get_me" [] w' = (Ok (JObj [("login", JStr "octocat")]), w'') /\
    length (http_log w') = 1%nat /\ length (http_log w'') = 2%nat.
Proof.
  eexists _, _, _. split_and!; vm_compute; reflexivity.
Qed.

End MCPFacts.

(** ** The [json] library: reading back what was written *)

Module JsonFacts.
Import Json.

Lemma parse_chars_escape_char c tail :
  parse_chars (escape_char c +:+ tail) = cons_char c (parse_chars tail).
Proof. destruct c as [[] [] [] [] [] [] [] []]; reflexivity. Qed.

(** A string literal is read back as the text it was written from. *)
Lemma parse_chars_escape s rest :
  parse_chars (escape s +:+ String dquote rest) = Some (s, rest).
Proof.
  induction s as [|c s IH]; [done |].
  change (escape (String c s)) with (escape_char c +:+ escape s).
  by rewrite str_app_assoc, parse_chars_escape_char, IH.
Qed.

(** What may follow a number: no digit, no fraction, no exponent. *)
Definition ends_number (rest : string) : bool :=
  match rest with
  | EmptyString => true
  | String c _ =>
      match digit_of c with
      | Some _ => false
      | None => negb (starts_float_part rest)
      end
  end.

Lemma parse_digits_stop rest :
  ends_number rest = true -> parse_digits rest = (Decimal.Nil, rest).
Proof.
  destruct rest as [|c rest]; [done |]. simpl.
  by destruct (digit_of c).
Qed.

Lemma parse_digits_string_of_uint d rest :
  ends_number rest = true ->
  parse_digits (NilEmpty.string_of_uint d +:+ rest) = (d, rest).
Proof.
  intros Hrest.
  induction d as [|d IH|d IH|d IH|d IH|d IH|d IH|d IH|d IH|d IH|d IH];
    [by apply parse_digits_stop | ..];
    cbn [NilEmpty.string_of_uint]; rewrite str_app_cons;
    cbn [parse_digits]; rewrite IH; reflexivity.
Qed.

Lemma to_uint_no_leading_zero p d : Pos.to_uint p <> Decimal.D0 d.
Proof.
  intros Heq.
  assert (Decimal.unorm (Pos.to_uint p) = Pos.to_uint p) as Hn.
  { rewrite <- DecimalPos.Unsigned.to_of, DecimalPos.Unsigned.of_to. done. }
  rewrite Heq, unorm_D0 in Hn.
  assert (d = Decimal.Nil \/ d <> Decimal.Nil) as [->|Hd]
    by (destruct d; (by left) || (by right)).
  - by apply (Unsigned.to_uint_nonzero p).
  - pose proof (nb_digits_unorm d Hd) as Hle. rewrite Hn in Hle.
    simpl in Hle. lia.
Qed.

Lemma parse_uint_to_uint p rest :
  ends_number rest = true ->
  parse_uint (NilEmpty.string_of_uint (Pos.to_uint p) +:+ rest) =
    Some (Pos.to_uint p, rest).
Proof.
  intros Hrest.
  pose proof (to_uint_no_leading_zero p) as Hz.
  pose proof (Unsigned.to_uint_nonnil p) as Hnil.
  pose proof (parse_digits_string_of_uint (Pos.to_uint p) rest Hrest) as Hd.
  assert (starts_float_part rest = false) as Hf.
  { destruct rest as [|c rest]; [done |]. simpl in Hrest.
    destruct (digit_of c); [done |]. by apply negb_true_iff in Hrest. }
  destruct (Pos.to_uint p) as [|d|d|d|d|d|d|d|d|d|d]; try done;
    [by destruct (Hz d) | ..];
    unfold parse_uint; cbn [NilEmpty.string_of_uint] in *;
    rewrite str_app_cons in *; rewrite Hd; cbn; by rewrite Hf.
Qed.

Lemma dump_int_0 : dump_int 0 = "0".
Proof. reflexivity. Qed.

Lemma dump_int_pos p : dump_int (Z.pos p) = NilEmpty.string_of_uint (Pos.to_uint p).
Proof.
  unfold dump_int. simpl. unfold NilZero.string_of_uint.
  pose proof (Unsigned.to_uint_nonnil p). by destruct (Pos.to_uint p).
Qed.

Lemma dump_int_neg p :
  dump_int (Z.neg p) = String "-" (NilEmpty.string_of_uint (Pos.to_uint p)).
Proof.
  unfold dump_int. simpl. unfold NilZero.string_of_uint.
  pose proof (Unsigned.to_uint_nonnil p). by destruct (Pos.to_uint p).
Qed.

(** The first character of a rendered integer. *)
Definition starts_number (c : Ascii.ascii) : bool :=
  Ascii.eqb c "-" || match digit_of c with Some _ => true | None => false end.

Lemma string_of_uint_head d :
  d <> Decimal.Nil ->
  exists c s, NilEmpty.string_of_uint d = String c s /\ starts_number c = true.
Proof. destruct d; try done; intros _; by eexists _, _. Qed.

Lemma dump_int_head n :
  exists c s, dump_int n = String c s /\ starts_number c = true.
Proof.
  destruct n as [|p|p].
  - by eexists _, _.
  - rewrite dump_int_pos. apply string_of_uint_head, Unsigned.to_uint_nonnil.
  - rewrite dump_int_neg. by eexists _, _.
Qed.

(** An integer is read back as the value it was written from. *)
Lemma parse_int_dump_int n rest :
  ends_number rest = true ->
  parse_int (dump_int n +:+ rest) = Some (n, rest).
Proof.
  intros Hrest.
  assert (starts_float_part rest = false) as Hf.
  { destruct rest as [|c rest]; [done |]. simpl in Hrest.
    destruct (digit_of c); [done |]. by apply negb_true_iff in Hrest. }
  destruct n as [|p|p].
  - rewrite dump_int_0, str_app_cons, str_app_nil_l. cbn. by rewrite Hf.
  - rewrite dump_int_pos.
    pose proof (parse_uint_to_uint p rest Hrest) as Hu.
    destruct (string_of_uint_head (Pos.to_uint p) (Unsigned.to_uint_nonnil p))
      as (c & s & Hs & Hc).
    rewrite Hs in *. rewrite str_app_cons in *. unfold parse_int.
    assert (Ascii.eqb c "-" = false) as ->.
    { destruct (Ascii.eqb_spec c "-") as [->|]; [| done].
      pose proof (Unsigned.to_uint_nonnil p).
      destruct (Pos.to_uint p); simplify_eq/=. }
    rewrite Hu. f_equal. f_equal. cbn.
    by rewrite <- (DecimalZ.of_to (Z.pos p)).
  - rewrite dump_int_neg, str_app_cons. unfold parse_int.
    cbn [Ascii.eqb]. simpl.
    rewrite (parse_uint_to_uint p rest Hrest). f_equal. f_equal.
    by rewrite <- (DecimalZ.of_to (Z.neg p)).
Qed.


(** *** Values *)

Lemma json_ind' (P : json -> Prop) :
  P JNull -> (forall b, P (JBool b)) -> (forall n, P (JInt n)) ->
  (forall s, P (JStr s)) ->
  (forall items, Forall P items -> P (JArr items)) ->
  (forall members, Forall (fun kv => P kv.2) members -> P (JObj members)) ->
  forall j, P j.
Proof.
  intros Hnull Hbool Hint Hstr Harr Hobj.
  fix IH 1. intros [| b | n | s | items | members].
  - exact Hnull.
  - apply Hbool.
  - apply Hint.
  - apply Hstr.
  - apply Harr. induction items as [|v items IHl]; constructor;
      [apply IH | exact IHl].
  - apply Hobj. induction members as [|[k v] members IHl]; constructor;
      [apply IH | exact IHl].
Qed.

(** The first character of a rendered value: no white space and no
    closing bracket. *)
Definition starts_value (c : Ascii.ascii) : bool :=
  negb (is_ws c) && negb (Ascii.eqb c "]") && negb (Ascii.eqb c "}").

Lemma starts_number_value c : starts_number c = true -> starts_value c = true.
Proof.
  destruct c as [[] [] [] [] [] [] [] []]; intros H; vm_compute in H;
    try discriminate H; reflexivity.
Qed.

Lemma dumps_head sort_keys j :
  exists c s, dumps sort_keys j = String c s /\ starts_value c = true.
Proof.
  destruct j as [| [] | n | s | items | members]; try (by eexists _, _).
  destruct (dump_int_head n) as (c & s & Hs & Hc).
  exists c, s. split; [done | by apply starts_number_value].
Qed.

Lemma skip_ws_value c s : starts_value c = true -> skip_ws (String c s) = String c s.
Proof.
  unfold starts_value. intros H. simpl.
  destruct (is_ws c); [done | done].
Qed.

Lemma parse_value_space fuel s :
  parse_value fuel (String " " s) = parse_value fuel s.
Proof. by destruct fuel. Qed.

Lemma parse_items_space fuel s :
  parse_items fuel (String " " s) = parse_items fuel s.
Proof. destruct fuel; [done |]. simpl. by rewrite parse_value_space. Qed.

Lemma parse_members_space fuel s :
  parse_members fuel (String " " s) = parse_members fuel s.
Proof. by destruct fuel. Qed.

Lemma parse_value_number fuel c s :
  starts_number c = true ->
  parse_value (S fuel) (String c s) =
    match parse_int (String c s) with
    | Some (n, r) => Some (JInt n, r)
    | None => None
    end.
Proof.
  destruct c as [[] [] [] [] [] [] [] []]; intros H; vm_compute in H;
    try discriminate H; reflexivity.
Qed.

Lemma parse_value_string fuel body :
  parse_value (S fuel) (String dquote body) =
    match parse_chars body with
    | Some (text, r) => Some (JStr text, r)
    | None => None
    end.
Proof. reflexivity. Qed.

Lemma parse_value_array fuel body :
  parse_value (S fuel) (String "[" body) =
    match skip_ws body with
    | String d r =>
        if Ascii.eqb d "]" then Some (JArr [], r)
        else match parse_items fuel body with
             | Some (items, r') => Some (JArr items, r')
             | None => None
             end
    | EmptyString => None
    end.
Proof. reflexivity. Qed.

Lemma parse_value_object fuel body :
  parse_value (S fuel) (String "{" body) =
    match skip_ws body with
    | String d r =>
        if Ascii.eqb d "}" then Some (JObj [], r)
        else match parse_members fuel body with
             | Some (members, r') => Some (JObj (dict_of_pairs members), r')
             | None => None
             end
    | EmptyString => None
    end.
Proof. reflexivity. Qed.


Ltac str_norm := repeat (rewrite ?str_app_assoc, ?str_app_cons, ?str_app_nil_l).

Lemma dict_of_pairs_acc (members acc : list (string * json)) :
  NoDup (acc ++ members).*1 ->
  fold_left (fun d kv => dict_set kv.1 kv.2 d) members acc = acc ++ members.
Proof.
  revert acc. induction members as [|[k v] members IH]; intros acc Hnd; simpl.
  - by rewrite app_nil_r.
  - rewrite dict_set_fresh.
    + rewrite IH; rewrite <- app_assoc; done.
    + apply dict_get_None. rewrite fmap_app in Hnd.
      apply NoDup_app in Hnd as (_ & Hdisj & _).
      intros Hin. apply (Hdisj k Hin). left.
Qed.

Lemma dict_of_pairs_NoDup (members : list (string * json)) :
  NoDup members.*1 -> dict_of_pairs members = members.
Proof. intros Hnd. by apply (dict_of_pairs_acc members []). Qed.

(** The statement of the round trip for one value. *)
Definition reads_back (j : json) : Prop :=
  json_wf j = true ->
  forall fuel rest,
    (json_size j <= fuel)%nat -> ends_number rest = true ->
    parse_value fuel (dumps false j +:+ rest) = Some (j, rest).

Lemma parse_items_comma fuel s v r :
  parse_value fuel s = Some (v, String "," r) ->
  parse_items (S fuel) s =
    match parse_items fuel r with
    | Some (vs, r') => Some (v :: vs, r')
    | None => None
    end.
Proof. intros H. simpl. by rewrite H. Qed.

Lemma parse_items_close fuel s v r :
  parse_value fuel s = Some (v, String "]" r) ->
  parse_items (S fuel) s = Some ([v], r).
Proof. intros H. simpl. by rewrite H. Qed.

Lemma parse_members_comma fuel body k v rest2 r :
  parse_chars body = Some (k, String ":" rest2) ->
  parse_value fuel rest2 = Some (v, String "," r) ->
  parse_members (S fuel) (String dquote body) =
    match parse_members fuel r with
    | Some (kvs, r') => Some ((k, v) :: kvs, r')
    | None => None
    end.
Proof.
  intros Hk Hv. change (parse_members (S fuel) (String dquote body)) with
    (match parse_chars body with
     | Some (k, rest1) =>
         match skip_ws rest1 with
         | String colon rest2 =>
             if Ascii.eqb colon ":" then
               match parse_value fuel rest2 with
               | Some (v, rest3) =>
                   match skip_ws rest3 with
                   | String d r =>
                       if Ascii.eqb d "," then
                         match parse_members fuel r with
                         | Some (kvs, r') => Some ((k, v) :: kvs, r')
                         | None => None
                         end
                       else if Ascii.eqb d "}" then Some ([(k, v)], r)
                       else None
                   | EmptyString => None
                   end
               | None => None
               end
             else None
         | EmptyString => None
         end
     | None => None
     end).
  rewrite Hk. simpl. by rewrite Hv.
Qed.

Lemma parse_members_close fuel body k v rest2 r :
  parse_chars body = Some (k, String ":" rest2) ->
  parse_value fuel rest2 = Some (v, String "}" r) ->
  parse_members (S fuel) (String dquote body) = Some ([(k, v)], r).
Proof.
  intros Hk Hv. change (parse_members (S fuel) (String dquote body)) with
    (match parse_chars body with
     | Some (k, rest1) =>
         match skip_ws rest1 with
         | String colon rest2 =>
             if Ascii.eqb colon ":" then
               match parse_value fuel rest2 with
               | Some (v, rest3) =>
                   match skip_ws rest3 with
                   | String d r =>
                       if Ascii.eqb d "," then
                         match parse_members fuel r with
                         | Some (kvs, r') => Some ((k, v) :: kvs, r')
                         | None => None
                         end
                       else if Ascii.eqb d "}" then Some ([(k, v)], r)
                       else None
                   | EmptyString => None
                   end
               | None => None
               end
             else None
         | EmptyString => None
         end
     | None => None
     end).
  rewrite Hk. simpl. by rewrite Hv.
Qed.

Lemma parse_items_dumps items :
  items <> [] -> Forall reads_back items -> forallb json_wf items = true ->
  forall fuel rest,
    (sum_list_with (fun v => S (json_size v)) items <= fuel)%nat ->
    parse_items fuel (join ", " (map (dumps false) items) +:+ String "]" rest)
    = Some (items, rest).
Proof.
  induction items as [|v items IH]; [done |].
  intros _ Hall Hwf fuel rest Hfuel.
  apply Forall_cons in Hall as [Hv Hall].
  simpl in Hwf. apply andb_true_iff in Hwf as [Hwfv Hwf].
  simpl in Hfuel. destruct fuel as [|fuel]; [lia |].
  destruct items as [|v' items].
  - apply parse_items_close. simpl. apply (Hv Hwfv); [lia | done].
  - change (join ", " (map (dumps false) (v :: v' :: items)))
      with (dumps false v +:+ ", " +:+ join ", " (map (dumps false) (v' :: items))).
    str_norm.
    erewrite parse_items_comma; [| apply (Hv Hwfv); [lia | done]].
    rewrite parse_items_space.
    rewrite IH; [done | done | done | done | simpl in *; lia].
Qed.

Lemma parse_members_dumps members :
  members <> [] -> Forall (fun kv => reads_back kv.2) members ->
  forallb (fun kv => let '(k, v) := kv in json_wf v) members = true ->
  forall fuel rest,
    (sum_list_with (fun kv => let '(k, v) := kv in S (json_size v)) members
     <= fuel)%nat ->
    parse_members fuel
      (join ", "
         (map dump_member
              (map (fun kv => let '(k, v) := kv in (k, dumps false v)) members))
       +:+ String "}" rest)
    = Some (members, rest).
Proof.
  induction members as [|[k v] members IH]; [done |].
  intros _ Hall Hwf fuel rest Hfuel.
  apply Forall_cons in Hall as [Hv Hall]. simpl in Hv.
  simpl in Hwf. apply andb_true_iff in Hwf as [Hwfv Hwf].
  simpl in Hfuel. destruct fuel as [|fuel]; [lia |].
  destruct members as [|[k' v'] members].
  - change (join ", "
              (map dump_member
                 (map (fun kv => let '(k, v) := kv in (k, dumps false v))
                      [(k, v)])))
      with (String dquote (escape k +:+ str1 dquote) +:+ ": " +:+ dumps false v).
    unfold str1. str_norm.
    eapply parse_members_close; [apply parse_chars_escape |].
    rewrite parse_value_space. apply (Hv Hwfv); [lia | done].
  - change (join ", "
              (map dump_member
                 (map (fun kv => let '(k, v) := kv in (k, dumps false v))
                      ((k, v) :: (k', v') :: members))))
      with ((String dquote (escape k +:+ str1 dquote) +:+ ": " +:+ dumps false v)
            +:+ ", " +:+
            join ", "
              (map dump_member
                 (map (fun kv => let '(k, v) := kv in (k, dumps false v))
                      ((k', v') :: members)))).
    unfold str1. str_norm.
    erewrite parse_members_comma;
      [| apply parse_chars_escape
       | rewrite parse_value_space; apply (Hv Hwfv); [lia | done]].
    rewrite parse_members_space.
    rewrite IH; [done | done | done | done | simpl in *; lia].
Qed.

(** Every well-formed value, followed by something that cannot continue
    a number, is read back by the parser, given fuel for its size. *)
Lemma parse_value_dumps j : reads_back j.
Proof.
  induction j as [| b | n | s | items IH | members IH] using json_ind';
    intros Hwf fuel rest Hfuel Hrest;
    (destruct fuel as [|fuel]; [simpl in Hfuel; lia |]).
  - reflexivity.
  - by destruct b.
  - change (dumps false (JInt n)) with (dump_int n).
    destruct (dump_int_head n) as (c & s & Hs & Hc).
    rewrite Hs, str_app_cons, parse_value_number by done.
    rewrite <- str_app_cons, <- Hs. by rewrite parse_int_dump_int.
  - change (dumps false (JStr s)) with (String dquote (escape s +:+ str1 dquote)).
    unfold str1. str_norm.
    by rewrite parse_value_string, parse_chars_escape.
  - change (dumps false (JArr items))
      with ("[" +:+ join ", " (map (dumps false) items) +:+ "]").
    str_norm. rewrite parse_value_array.
    destruct items as [|v items]; [reflexivity |].
    destruct (dumps_head false v) as (c & s & Hs & Hc).
    assert (exists t, join ", " (map (dumps false) (v :: items))
                      +:+ String "]" rest = String c t) as [t Ht].
    { destruct items; simpl; rewrite Hs; str_norm; by eexists. }
    rewrite Ht at 1. rewrite skip_ws_value by done.
    unfold starts_value in Hc.
    apply andb_true_iff in Hc as [[_ Hc]%andb_true_iff _].
    apply negb_true_iff in Hc. rewrite Hc.
    simpl in Hwf, Hfuel.
    rewrite parse_items_dumps; [done | done | done | done | simpl; lia].
  - change (dumps false (JObj members))
      with ("{" +:+
            join ", "
              (map dump_member
                 (map (fun kv => let '(k, v) := kv in (k, dumps false v))
                      members)) +:+ "}").
    str_norm. rewrite parse_value_object.
    simpl in Hwf. apply andb_true_iff in Hwf as [Hnd Hwf].
    apply bool_decide_eq_true in Hnd.
    destruct members as [|[k v] members]; [reflexivity |].
    assert (exists t,
               join ", "
                 (map dump_member
                    (map (fun kv => let '(k, v) := kv in (k, dumps false v))
                         ((k, v) :: members)))
               +:+ String "}" rest = String dquote t) as [t Ht].
    { destruct members as [|[k' v'] members]; simpl;
        unfold dump_member, dump_str; simpl; str_norm; by eexists. }
    rewrite Ht at 1. rewrite skip_ws_value by done.
    change (Ascii.eqb dquote "}") with false. cbv iota.
    simpl in Hfuel.
    rewrite parse_members_dumps; [| done | done | done | simpl; lia].
    by rewrite dict_of_pairs_NoDup.
Qed.


(** *** Enough fuel *)

Lemma str_length_app (a b : string) :
  String.length (a +:+ b) = (String.length a + String.length b)%nat.
Proof.
  induction a as [|c a IH]; [done |]. rewrite str_app_cons. simpl. by rewrite IH.
Qed.

Lemma dump_int_length n : (1 <= String.length (dump_int n))%nat.
Proof. destruct (dump_int_head n) as (c & s & -> & _). simpl. lia. Qed.

Lemma items_size_length items :
  Forall (fun v => (json_size v <= String.length (dumps false v))%nat) items ->
  items <> [] ->
  (sum_list_with (fun v => S (json_size v)) items
   <= String.length (join ", " (map (dumps false) items)) + 1)%nat.
Proof.
  induction 1 as [|v items Hv Hall IH]; [done |]. intros _.
  cbv beta in Hv.
  destruct items as [|v' items].
  - change (S (json_size v) + 0 <= String.length (dumps false v) + 1)%nat.
    clear IH Hall. lia.
  - change (join ", " (map (dumps false) (v :: v' :: items)))
      with (dumps false v +:+ ", " +:+ join ", " (map (dumps false) (v' :: items))).
    rewrite !str_length_app.
    change (sum_list_with (fun v => S (json_size v)) (v :: v' :: items))
      with (S (json_size v)
            + sum_list_with (fun v => S (json_size v)) (v' :: items))%nat.
    specialize (IH ltac:(done)). change (String.length ", ") with 2%nat.
    clear Hall. lia.
Qed.

Lemma members_size_length (members : list (string * json)) :
  Forall (fun kv => (json_size kv.2 <= String.length (dumps false kv.2))%nat)
         members ->
  members <> [] ->
  (sum_list_with (fun kv => let '(k, v) := kv in S (json_size v)) members
   <= String.length
        (join ", "
           (map dump_member
                (map (fun kv => let '(k, v) := kv in (k, dumps false v))
                     members))) + 1)%nat.
Proof.
  induction 1 as [|[k v] members Hv Hall IH]; [done |]. intros _.
  simpl in Hv.
  destruct members as [|[k' v'] members].
  - change (S (json_size v) + 0
            <= String.length (dump_str k +:+ ": " +:+ dumps false v) + 1)%nat.
    rewrite !str_length_app. clear IH Hall. lia.
  - change (join ", "
              (map dump_member
                 (map (fun kv => let '(k, v) := kv in (k, dumps false v))
                      ((k, v) :: (k', v') :: members))))
      with (dump_member (k, dumps false v) +:+ ", " +:+
            join ", "
              (map dump_member
                 (map (fun kv => let '(k, v) := kv in (k, dumps false v))
                      ((k', v') :: members)))).
    unfold dump_member at 1. simpl fst. simpl snd.
    rewrite !str_length_app.
    change (sum_list_with (fun kv => let '(k, v) := kv in S (json_size v))
              ((k, v) :: (k', v') :: members))
      with (S (json_size v)
            + sum_list_with (fun kv => let '(k, v) := kv in S (json_size v))
                ((k', v') :: members))%nat.
    specialize (IH ltac:(done)). change (String.length ", ") with 2%nat.
    clear Hall. lia.
Qed.

Lemma json_size_length j : (json_size j <= String.length (dumps false j))%nat.
Proof.
  induction j as [| b | n | s | items IH | members IH] using json_ind'.
  - simpl. lia.
  - destruct b; simpl; lia.
  - apply dump_int_length.
  - simpl. lia.
  - change (dumps false (JArr items))
      with ("[" +:+ join ", " (map (dumps false) items) +:+ "]").
    rewrite !str_length_app.
    change (String.length "[") with 1%nat. change (String.length "]") with 1%nat.
    destruct items as [|v items]; [simpl; lia |].
    pose proof (items_size_length _ IH ltac:(done)) as Hb.
    change (json_size (JArr (v :: items)))
      with (S (sum_list_with (fun v => S (json_size v)) (v :: items))).
    clear IH. lia.
  - change (dumps false (JObj members))
      with ("{" +:+
            join ", "
              (map dump_member
                 (map (fun kv => let '(k, v) := kv in (k, dumps false v))
                      members)) +:+ "}").
    rewrite !str_length_app.
    change (String.length "{") with 1%nat. change (String.length "}") with 1%nat.
    destruct members as [|[k v] members]; [simpl; lia |].
    pose proof (members_size_length _ IH ltac:(done)) as Hb.
    change (json_size (JObj ((k, v) :: members)))
      with (S (sum_list_with (fun kv => let '(k, v) := kv in S (json_size v))
                 ((k, v) :: members))).
    clear IH. lia.
Qed.

(** [json.loads] undoes [json.dumps] on every well-formed value. *)
Theorem loads_dumps j : json_wf j = true -> loads (dumps false j) = Some j.
Proof.
  intros Hwf. unfold loads.
  pose proof (parse_value_dumps j Hwf (S (String.length (dumps false j))) ""
                ltac:(pose proof (json_size_length j); lia) eq_refl) as Hp.
  rewrite str_app_empty_r in Hp. by rewrite Hp.
Qed.

(** Hence [json.dumps] is injective on well-formed values. *)
Lemma dumps_inj j j' :
  json_wf j = true -> json_wf j' = true ->
  dumps false j = dumps false j' -> j = j'.
Proof.
  intros Hj Hj' Heq. apply loads_dumps in Hj, Hj'.
  rewrite Heq in Hj. congruence.
Qed.

End JsonFacts.

(** ** a2a_protocol.py: the envelope as JSON *)

Module ProtocolFacts.
Import Json JsonFacts Protocol.

(** The fields of a message are Python values. *)
Definition message_wf (m : AgentMessage) : Prop :=
  json_wf (message_asdict m) = true.

(** A message built by the constructor has its timestamp and its id. *)
Lemma new_message_populated sender recipient mtype body ts mid w m w' :
  new_message sender recipient mtype body ts mid w = (Ok m, w') ->
  timestamp m <> JNull /\ message_id m <> JNull.
Proof.
  unfold new_message, bind, or_fresh, utcnow, uuid4, draw, ret.
  destruct ts, mid; intros [= <- _]; by split.
Qed.

Lemma or_fresh_given (given : json) (fresh : M string) w :
  given <> JNull -> or_fresh given fresh w = (Ok given, w).
Proof. by destruct given. Qed.

(** The constructor leaves a given timestamp and a given id alone and
    draws nothing. *)
Lemma new_message_given sender recipient mtype body ts mid w :
  ts <> JNull -> mid <> JNull ->
  new_message sender recipient mtype body ts mid w =
    (Ok {| sender_id := sender; recipient_id := recipient;
           message_type := mtype; content := body;
           timestamp := ts; message_id := mid |}, w).
Proof.
  intros Hts Hmid. unfold new_message, bind.
  by rewrite !or_fresh_given.
Qed.

Lemma message_of_kwargs_asdict m w :
  timestamp m <> JNull -> message_id m <> JNull ->
  message_of_kwargs (message_asdict m) w = (Ok m, w).
Proof.
  intros Hts Hmid. destruct m as [s r t c ts mid]. simpl in *.
  destruct ts; try done; destruct mid; try done; reflexivity.
Qed.

(** C10. For every message whose timestamp and id are set, as they are
    after construction, [from_json (to_json m)] returns a message equal
    to [m] in every field, and draws neither a new id nor a new timestamp
    (the world is unchanged). *)
Theorem from_json_to_json (m : AgentMessage) (w : world) :
  message_wf m -> timestamp m <> JNull -> message_id m <> JNull ->
  from_json (to_json m) w = (Ok m, w).
Proof.
  intros Hwf Hts Hmid. unfold from_json, to_json.
  rewrite (loads_dumps _ Hwf). by apply message_of_kwargs_asdict.
Qed.

Definition sample_message : AgentMessage :=
  {| sender_id := JStr "supervisor-001"; recipient_id := JStr "client-007";
     message_type := JStr "task_response";
     content := JObj [("task_id", JStr "t-1"); ("status", JStr "completed");
                      ("result", JStr "3 open issues: #12, #15, #20");
                      ("error", JNull); ("agent_id", JStr "supervisor-001")];
     timestamp := JStr "2025-01-01T00:00:00";
     message_id := JStr "7d9f3c1e-0000-4000-8000-000000000001" |}.

Definition still_world : world :=
  {| http_log := []; http_oracle := fun _ _ => HttpFails (Exception "offline");
     bedrock_log := []; bedrock_oracle := fun _ _ => BedrockStream [];
     ids_drawn := 0;
     uuid_source := fun _ => "ffffffff-0000-4000-8000-000000000000";
     clock := fun _ => "2030-01-01T00:00:00" |}.

Lemma from_json_to_json_witness :
  from_json (to_json sample_message) still_world = (Ok sample_message, still_world).
Proof.
  apply (from_json_to_json sample_message still_world).
  - by vm_compute.
  - done.
  - done.
Defined.

Example to_json_sample_head :
  String.prefix ("{" +:+ str1 dquote +:+ "sender_id" +:+ str1 dquote +:+ ": ")
                (to_json sample_message) = true.
Proof. reflexivity. Qed.

(** Without a timestamp the reader draws a fresh one: the condition of
    the theorem is needed. *)
Example from_json_draws_when_unset :
  (from_json
     (to_json {| sender_id := JStr "a"; recipient_id := JStr "b";
                 message_type := JStr "ping"; content := JObj [];
                 timestamp := JNull; message_id := JStr "m-1" |})
     still_world).1 =
  Ok {| sender_id := JStr "a"; recipient_id := JStr "b";
        message_type := JStr "ping"; content := JObj [];
        timestamp := JStr "2030-01-01T00:00:00"; message_id := JStr "m-1" |}.
Proof. by vm_compute. Qed.

End ProtocolFacts.

(** ** Sorted serialization as a canonical form *)

Module CanonFacts.
Import Json JsonFacts.

(** The value whose plain serialization is the sorted serialization of
    [j]: every dictionary inside [j] with its members ordered by key. *)
Fixpoint canon (j : json) : json :=
  match j with
  | JArr items => JArr (map canon items)
  | JObj members =>
      JObj (sort_items (map (fun kv => let '(k, v) := kv in (k, canon v)) members))
  | _ => j
  end.

Section MapValues.
Context {A B : Type} (f : A -> B).

Definition on_value (kv : string * A) : string * B := let '(k, v) := kv in (k, f v).

Lemma insert_by_key_on_value kv l :
  insert_by_key (on_value kv) (map on_value l) = map on_value (insert_by_key kv l).
Proof.
  induction l as [|[k' v'] l IH]; [done |]. destruct kv as [k v]. simpl in *.
  destruct (String.leb k k'); [done |]. simpl. by rewrite IH.
Qed.

Lemma sort_items_on_value l :
  sort_items (map on_value l) = map on_value (sort_items l).
Proof.
  induction l as [|kv l IH]; [done |].
  unfold sort_items in *. simpl. by rewrite IH, insert_by_key_on_value.
Qed.

Lemma on_value_keys l : (map on_value l).*1 = l.*1.
Proof. induction l as [|[k v] l IH]; [done |]. simpl. by f_equal. Qed.

End MapValues.

Lemma dumps_canon j : dumps true j = dumps false (canon j).
Proof.
  induction j as [| b | n | s | items IH | members IH] using json_ind';
    try reflexivity.
  - change (dumps true (JArr items))
      with ("[" +:+ join ", " (map (dumps true) items) +:+ "]").
    change (dumps false (canon (JArr items)))
      with ("[" +:+ join ", " (map (dumps false) (map canon items)) +:+ "]").
    do 3 f_equal. rewrite map_map. apply map_ext_Forall.
    eapply Forall_impl; [exact IH | done].
  - change (dumps true (JObj members))
      with ("{" +:+
            join ", " (map dump_member
                         (sort_items (map (on_value (dumps true)) members)))
            +:+ "}").
    change (dumps false (canon (JObj members)))
      with ("{" +:+
            join ", " (map dump_member
                         (map (on_value (dumps false))
                              (sort_items (map (on_value canon) members))))
            +:+ "}").
    do 4 f_equal. rewrite <- sort_items_on_value. f_equal.
    rewrite map_map. apply map_ext_Forall.
    eapply Forall_impl; [exact IH |]. intros [k v] Hv. simpl in *. by rewrite Hv.
Qed.

Lemma canon_wf j : json_wf j = true -> json_wf (canon j) = true.
Proof.
  induction j as [| b | n | s | items IH | members IH] using json_ind';
    try done.
  - simpl. rewrite !forallb_forall. intros Hwf v' Hin.
    apply in_map_iff in Hin as (v & <- & Hin).
    rewrite Forall_forall in IH. apply IH; [by apply list_elem_of_In | auto].
  - simpl. intros [Hnd Hwf]%andb_true_iff.
    apply bool_decide_eq_true in Hnd.
    apply andb_true_iff. split.
    + apply bool_decide_eq_true.
      fold (on_value canon). rewrite sort_items_perm, on_value_keys. done.
    + apply forallb_forall. intros [k v'] Hin.
      apply list_elem_of_In in Hin.
      fold (on_value canon) in Hin. rewrite sort_items_perm in Hin.
      apply list_elem_of_fmap in Hin as ([k0 v] & [= -> ->] & Hin).
      rewrite Forall_forall in IH. apply (IH _ Hin).
      rewrite forallb_forall in Hwf.
      apply (Hwf (k0, v)). by apply list_elem_of_In.
Qed.


(** The sorted serialization identifies exactly the values that agree up
    to the order of the members of their dictionaries, at every depth. *)
Lemma dumps_sorted_eq_iff (j j' : json) :
  json_wf j = true -> json_wf j' = true ->
  dumps true j = dumps true j' <-> canon j = canon j'.
Proof.
  intros Hwf Hwf'. rewrite !dumps_canon. split.
  - intros Heq. apply dumps_inj in Heq; [done | by apply canon_wf ..].
  - by intros ->.
Qed.

End CanonFacts.

(** ** agent.py: validation precedes every request *)

Module AgentFacts.
Import Json JsonFacts CanonFacts CacheFacts MCP GitHubAgent.

(** An operation name without a colon can be split off the key data. *)
Lemma key_data_split (t t' d d' : string) :
  has_char ":" t = false -> has_char ":" t' = false ->
  t +:+ ":" +:+ d = t' +:+ ":" +:+ d' -> t = t' /\ d = d'.
Proof.
  revert t'. induction t as [|c t IH]; intros [|c' t'] Ht Ht' Heq;
    rewrite ?str_app_cons, ?str_app_nil_l in Heq.
  - by simplify_eq.
  - injection Heq as <- _. done.
  - injection Heq as -> _. done.
  - injection Heq as -> Heq. cbn [has_char] in Ht, Ht'.
    apply orb_false_iff in Ht as [_ Ht]. apply orb_false_iff in Ht' as [_ Ht'].
    destruct (IH t' Ht Ht' Heq) as [-> ->]. done.
Qed.

Lemma cacheable_no_colon t : t ∈ cacheable_tools -> has_char ":" t = false.
Proof.
  unfold cacheable_tools. rewrite !elem_of_cons, elem_of_nil.
  intros [-> | [-> | [-> | [-> | [-> | []]]]]]; reflexivity.
Qed.




Lemma dict_set_keys_subseteq {V} (d : list (string * V)) k v :
  (dict_set k v d).*1 ⊆ k :: d.*1.
Proof.
  destruct (dict_get k d) as [v0|] eqn:Hget.
  - rewrite (dict_set_keys_present d k v v0 Hget).
    intros x Hx. by apply elem_of_cons; right.
  - rewrite (dict_set_fresh d k v Hget), fmap_app.
    intros x [Hx | Hx]%elem_of_app; apply elem_of_cons; [by right |].
    left. by apply list_elem_of_singleton in Hx.
Qed.

Lemma cache_put_keys_subseteq cache key v :
  (cache_put cache key v).*1 ⊆ key :: cache.*1.
Proof.
  rewrite cache_put_unfold.
  destruct (50 <? length (dict_set key v cache))%nat.
  - rewrite fmap_drop. etrans; [| apply dict_set_keys_subseteq].
    apply sublist_subseteq, sublist_drop.
  - apply dict_set_keys_subseteq.
Qed.

(** A call as the planner produces it: the arguments are a JSON object. *)
Definition call_wf (tc : tool_call) : Prop :=
  json_wf (JObj (call_arguments tc)) = true.

Section Validation.
Variable digest : string -> string.

(** The key of a cache entry was computed for a call that passed the
    validation against the tool table. *)
Definition key_sound (table : gmap string tool_info) (key : string) : Prop :=
  exists (t : string) (args : list (string * json)) (info : tool_info),
    key = get_cache_key digest t args /\
    t ∈ cacheable_tools /\
    json_wf (JObj args) = true /\
    table !! t = Some info /\
    missing_params info args = [].

Definition cache_sound (a : GitHubAgent) : Prop :=
  forall key, key ∈ (result_cache a).*1 -> key_sound (tools (mcp_client a)) key.

(** The agents met while serving: one with an empty cache (as [init]
    and [initialize] leave it), and whatever [execute_tools] makes of
    it; the conversation may change in between. *)
Inductive reachable : GitHubAgent -> Prop :=
| reach_fresh a : result_cache a = [] -> reachable a
| reach_execute a calls w :
    reachable a -> Forall call_wf calls ->
    reachable (execute_tools digest a calls w).1.2
| reach_conversation a a' :
    reachable a -> mcp_client a' = mcp_client a ->
    result_cache a' = result_cache a -> reachable a'.

Lemma execute_tool_client a tc w :
  mcp_client (execute_tool digest a tc w).1.2 = mcp_client a.
Proof.
  unfold execute_tool.
  destruct (_ ≫= cache_get (result_cache a)); [done |].
  destruct (tools (mcp_client a) !! call_name tc) as [info|]; [| done].
  destruct (missing_params info (call_arguments tc)); [| done].
  destruct (call_tool _ _ _ w) as [[result | e] w']; [| done].
  destruct (bool_decide _); [| done]. cbn.
  by destruct (String.eqb _ _).
Qed.

Lemma execute_tool_sound a tc w :
  call_wf tc -> cache_sound a -> cache_sound (execute_tool digest a tc w).1.2.
Proof.
  intros Hwf Hs. unfold execute_tool.
  destruct (_ ≫= cache_get (result_cache a)); [done |].
  destruct (tools (mcp_client a) !! call_name tc) as [info|] eqn:Hinfo; [| done].
  destruct (missing_params info (call_arguments tc)) eqn:Hmiss; [| done].
  destruct (call_tool _ _ _ w) as [[result | e] w']; [| done].
  destruct (bool_decide_reflect (call_name tc ∈ cacheable_tools)) as [Hc|];
    [| done].
  cbn. destruct (String.eqb _ _); [done |].
  intros key Hin. cbn in Hin. apply cache_put_keys_subseteq in Hin.
  apply elem_of_cons in Hin as [-> | Hin]; [| by apply Hs].
  exists (call_name tc), (call_arguments tc), info. done.
Qed.

Lemma execute_tools_client a calls w :
  mcp_client (execute_tools digest a calls w).1.2 = mcp_client a.
Proof.
  revert a w. induction calls as [|tc calls IH]; intros a w; [done |].
  simpl. pose proof (execute_tool_client a tc w) as H1.
  destruct (execute_tool digest a tc w) as [[r a1] w1].
  pose proof (IH a1 w1) as H2.
  destruct (execute_tools digest a1 calls w1) as [[rs a2] w2].
  simpl in *. congruence.
Qed.

Lemma execute_tools_sound a calls w :
  Forall call_wf calls -> cache_sound a ->
  cache_sound (execute_tools digest a calls w).1.2.
Proof.
  intros Hwf. revert a w.
  induction Hwf as [|tc calls Htc _ IH]; intros a w Hs; [done |].
  simpl. pose proof (execute_tool_sound a tc w Htc Hs) as H1.
  destruct (execute_tool digest a tc w) as [[r a1] w1].
  pose proof (IH a1 w1 H1) as H2.
  destruct (execute_tools digest a1 calls w1) as [[rs a2] w2].
  done.
Qed.

Lemma reachable_sound a : reachable a -> cache_sound a.
Proof.
  induction 1 as [a He | a calls w _ IH Hwf | a a' _ IH Hc Hr].
  - intros key. rewrite He. by intros ?%elem_of_nil.
  - by apply execute_tools_sound.
  - intros key. unfold cache_sound in IH. rewrite Hc, Hr. apply IH.
Qed.

(** Argument maps that agree up to the order of their members, at every
    depth, have one cache key. *)
Lemma cache_key_any_member_order t (args args' : list (string * json)) :
  canon (JObj args) = canon (JObj args') ->
  get_cache_key digest t args = get_cache_key digest t args'.
Proof.
  intros Heq. unfold get_cache_key, key_data. by rewrite !dumps_canon, Heq.
Qed.

Hypothesis digest_collision_free : forall s t, digest s = digest t -> s = t.

(** With a digest free of collisions, one key stands for one tool and
    one argument map up to the order of members. *)
Lemma cache_key_inj t t' (args args' : list (string * json)) :
  has_char ":" t = false -> has_char ":" t' = false ->
  json_wf (JObj args) = true -> json_wf (JObj args') = true ->
  get_cache_key digest t args = get_cache_key digest t' args' ->
  t = t' /\ canon (JObj args) = canon (JObj args').
Proof.
  intros Ht Ht' Hwf Hwf' Hkey. apply digest_collision_free in Hkey.
  apply key_data_split in Hkey as [-> Hdump]; [| done ..].
  split; [done |]. by apply dumps_sorted_eq_iff.
Qed.


(** What the loop answers for a call that fails the validation. *)
Definition rejection (table : gmap string tool_info) (tc : tool_call) : json :=
  match table !! call_name tc with
  | Some info =>
      missing_error (call_name tc) (missing_params info (call_arguments tc))
  | None => unavailable (call_name tc)
  end.






End Validation.



Definition issues_tool : tool_info :=
  {| tool_description := JStr "List issues in a repository";
     tool_parameters :=
       JObj [("owner", JObj [("type", JStr "string")]);
             ("repo", JObj [("type", JStr "string")]);
             ("state", JObj [("type", JStr "string")])];
     tool_required := ["owner"; "repo"] |}.

Definition issues_agent : GitHubAgent :=
  set_client (GitHubAgent.init ["issues"] true None (Some "ghp_token"))
    (set_tools (MCP.init (Some "ghp_token") ["issues"] true)
               (<["list_issues" := issues_tool]> ∅)).

Definition owner_only_call : tool_call :=
  {| call_name := "list_issues";
     call_arguments := [("owner", JStr "junipersquare")] |}.



Example owner_only_call_answer :
  rejection (tools (mcp_client issues_agent)) owner_only_call =
  JObj [("tool", JStr "list_issues");
        ("error", JStr "Missing required parameters: ['repo']")].
Proof.
  unfold rejection.
  change (tools (mcp_client issues_agent))
    with (<["list_issues" := issues_tool]> (∅ : gmap string tool_info)).
  change (call_name owner_only_call) with "list_issues".
  rewrite lookup_insert_eq. reflexivity.
Qed.

End AgentFacts.

(** ** mcp_client.py: the handshake and the tool call, request by request *)

Module HandshakeFacts.
Import MCP SupervisorFacts MCPFacts.

Lemma add_http_app w a b : add_http (add_http w a) b = add_http w (a ++ b).
Proof. unfold add_http. cbn. by rewrite app_assoc. Qed.

Lemma http_post_adds req w :
  http_post req w =
    (match http_oracle w (length (http_log w)) req with
     | HttpFails e => Raise e
     | HttpAnswers r => Ok r
     end, add_http w [req]).
Proof. unfold http_post, add_http. by destruct (http_oracle w _ req). Qed.

(** The client after the first answer: the session id of the answer, when
    there is one, has become a header. *)
Definition with_session_id (c : GitHubMCPClient) (r : http_response)
  : GitHubMCPClient :=
  match resp_session_id r with
  | Some sid =>
      if String.eqb sid "" then c
      else set_headers c (dict_set "Mcp-Session-Id" sid (headers c))
  | None => c
  end.

Definition notification_request (c : GitHubMCPClient) : http_request :=
  {| req_url := base_url c; req_headers := headers c;
     req_body := initialized_body |}.

Definition tools_list_request (c : GitHubMCPClient) : http_request :=
  {| req_url := base_url c; req_headers := headers c;
     req_body := tools_list_body |}.

Lemma initialize_unfold c w :
  MCP.initialize c w =
    let c0 := set_session c true in
    let q1 := initialize_request c in
    match http_oracle w (length (http_log w)) q1 with
    | HttpFails _ => (Ok (0, c0), add_http w [q1])
    | HttpAnswers r =>
        if status_code r =? 200 then
          let c1 := with_session_id c0 r in
          let q2 := notification_request c1 in
          let q3 := tools_list_request c1 in
          match http_oracle w (S (length (http_log w))) q2 with
          | HttpFails _ => (Ok (0, c1), add_http w [q1; q2])
          | HttpAnswers _ =>
              match http_oracle w (S (S (length (http_log w)))) q3 with
              | HttpFails _ => (Ok (0, c1), add_http w [q1; q2; q3])
              | HttpAnswers r3 =>
                  if status_code r3 =? 200 then
                    match resp_json r3 with
                    | Ok data =>
                        (Ok (read_tools_list c1 data), add_http w [q1; q2; q3])
                    | Raise _ => (Ok (0, c1), add_http w [q1; q2; q3])
                    end
                  else (Ok (0, c1), add_http w [q1; q2; q3])
              end
          end
        else (Ok (0, c0), add_http w [q1])
    end.
Proof.
  unfold MCP.initialize, or_zero, rpc.
  change {| req_url := base_url (set_session c true);
            req_headers := headers (set_session c true);
            req_body := initialize_body |} with (initialize_request c).
  rewrite http_post_adds. cbv zeta.
  destruct (http_oracle w (length (http_log w)) (initialize_request c))
    as [e | r]; [done |].
  destruct (status_code r =? 200); cbn [negb]; [| done].
  fold (with_session_id (set_session c true) r).
  set (c1 := with_session_id (set_session c true) r).
  change {| req_url := base_url c1; req_headers := headers c1;
            req_body := initialized_body |} with (notification_request c1).
  change {| req_url := base_url c1; req_headers := headers c1;
            req_body := tools_list_body |} with (tools_list_request c1).
  rewrite http_post_adds, add_http_app.
  cbn [add_http http_log http_oracle app].
  rewrite length_app, (Nat.add_comm _ (length [_])). cbn [length Nat.add].
  destruct (http_oracle w (S (length (http_log w))) (notification_request c1))
    as [e | r2]; [done |].
  fold (add_http w [initialize_request c; notification_request c1]).
  rewrite http_post_adds, add_http_app.
  cbn [add_http http_log http_oracle app].
  rewrite length_app, (Nat.add_comm _ (length [_; _])). cbn [length Nat.add].
  destruct (http_oracle w (S (S (length (http_log w))))
              (tools_list_request c1)) as [e | r3]; [done |].
  destruct (status_code r3 =? 200); [| done].
  unfold lift_result, ret. by destruct (resp_json r3).
Qed.

(** The runs of [initialize]: it stops after the first request, after
    the second, or reads the answer to the third. *)
Inductive handshake_run (c : GitHubMCPClient) (w : world)
  : Z -> GitHubMCPClient -> list http_request -> Prop :=
| run_refused :
    (forall r, http_oracle w (length (http_log w)) (initialize_request c)
               = HttpAnswers r -> status_code r <> 200) ->
    handshake_run c w 0 (set_session c true) [initialize_request c]
| run_unacknowledged r e :
    http_oracle w (length (http_log w)) (initialize_request c) = HttpAnswers r ->
    status_code r = 200 ->
    http_oracle w (S (length (http_log w)))
      (notification_request (with_session_id (set_session c true) r))
      = HttpFails e ->
    handshake_run c w 0 (with_session_id (set_session c true) r)
      [initialize_request c;
       notification_request (with_session_id (set_session c true) r)]
| run_unlisted r :
    http_oracle w (length (http_log w)) (initialize_request c) = HttpAnswers r ->
    status_code r = 200 ->
    (forall r3 data,
        http_oracle w (S (S (length (http_log w))))
          (tools_list_request (with_session_id (set_session c true) r))
          = HttpAnswers r3 ->
        status_code r3 = 200 -> resp_json r3 <> Ok data) ->
    handshake_run c w 0 (with_session_id (set_session c true) r)
      [initialize_request c;
       notification_request (with_session_id (set_session c true) r);
       tools_list_request (with_session_id (set_session c true) r)]
| run_listed r r2 r3 data :
    http_oracle w (length (http_log w)) (initialize_request c) = HttpAnswers r ->
    status_code r = 200 ->
    http_oracle w (S (length (http_log w)))
      (notification_request (with_session_id (set_session c true) r))
      = HttpAnswers r2 ->
    http_oracle w (S (S (length (http_log w))))
      (tools_list_request (with_session_id (set_session c true) r))
      = HttpAnswers r3 ->
    status_code r3 = 200 -> resp_json r3 = Ok data ->
    handshake_run c w
      (read_tools_list (with_session_id (set_session c true) r) data).1
      (read_tools_list (with_session_id (set_session c true) r) data).2
      [initialize_request c;
       notification_request (with_session_id (set_session c true) r);
       tools_list_request (with_session_id (set_session c true) r)].

Lemma initialize_runs c w :
  exists n c' reqs,
    MCP.initialize c w = (Ok (n, c'), add_http w reqs) /\
    handshake_run c w n c' reqs.
Proof.
  rewrite initialize_unfold. cbv zeta.
  destruct (http_oracle w (length (http_log w)) (initialize_request c))
    as [e | r] eqn:H1.
  { eexists _, _, _. split; [done |]. apply run_refused.
    intros r'. by rewrite H1. }
  destruct (status_code r =? 200) eqn:Hs.
  2:{ eexists _, _, _. split; [done |]. apply run_refused.
      intros r'. rewrite H1. intros [= <-]. by apply Z.eqb_neq. }
  apply Z.eqb_eq in Hs.
  set (c1 := with_session_id (set_session c true) r).
  destruct (http_oracle w (S (length (http_log w))) (notification_request c1))
    as [e | r2] eqn:H2.
  { eexists _, _, _. split; [done |]. by eapply run_unacknowledged. }
  destruct (http_oracle w (S (S (length (http_log w))))
              (tools_list_request c1)) as [e | r3] eqn:H3.
  { eexists _, _, _. split; [done |]. apply (run_unlisted c w r); try done.
    intros r3 data. fold c1. by rewrite H3. }
  destruct (status_code r3 =? 200) eqn:Hs3.
  2:{ eexists _, _, _. split; [done |]. apply (run_unlisted c w r); try done.
      intros r3' data. fold c1. rewrite H3. intros [= <-] Hs'.
      apply Z.eqb_neq in Hs3. done. }
  apply Z.eqb_eq in Hs3.
  destruct (resp_json r3) as [data | e] eqn:Hj.
  - exists (read_tools_list c1 data).1, (read_tools_list c1 data).2. eexists.
    split; [by destruct (read_tools_list c1 data) |].
    by apply (run_listed c w r r2 r3 data).
  - eexists _, _, _. split; [done |]. apply (run_unlisted c w r); try done.
    intros r3' data. fold c1. rewrite H3. intros [= <-] _. by rewrite Hj.
Qed.

(** *** The tool table *)

(** Every name of [t] is a name of [t']. *)
Definition table_grows (t t' : gmap string tool_info) : Prop :=
  forall name, is_Some (t !! name) -> is_Some (t' !! name).

Lemma table_grows_refl t : table_grows t t.
Proof. by intros name. Qed.

Lemma register_tools_grows entries : forall t,
  table_grows t (register_tools entries t).1.
Proof.
  induction entries as [|tool rest IH]; intros t; cbn [register_tools].
  - apply table_grows_refl.
  - destruct (decode_tool tool) as [[tool_name info]|];
      [| apply table_grows_refl].
    intros name Hname. apply IH.
    destruct (decide (tool_name = name)) as [-> | Hne].
    + rewrite lookup_insert_eq. by eexists.
    + by rewrite lookup_insert_ne.
Qed.

Lemma set_tools_same c : set_tools c (tools c) = c.
Proof. by destruct c. Qed.

Lemma read_tools_list_shape c data :
  exists t',
    (read_tools_list c data).2 = set_tools c t' /\
    table_grows (tools c) t' /\
    ((read_tools_list c data).1 = 0 \/
     (read_tools_list c data).1 = Z.of_nat (size t')).
Proof.
  assert (Hsame : exists t', (0, c).2 = set_tools c t' /\
            table_grows (tools c) t' /\
            ((0, c).1 = 0 \/ (0, c).1 = Z.of_nat (size t'))).
  { exists (tools c). rewrite set_tools_same.
    split_and!; [done | apply table_grows_refl | by left]. }
  assert (Hcount : exists t',
            (Z.of_nat (size (tools c)), c).2 = set_tools c t' /\
            table_grows (tools c) t' /\
            ((Z.of_nat (size (tools c)), c).1 = 0 \/
             (Z.of_nat (size (tools c)), c).1 = Z.of_nat (size t'))).
  { exists (tools c). rewrite set_tools_same.
    split_and!; [done | apply table_grows_refl | by right]. }
  unfold read_tools_list.
  destruct data as [| | | | |members]; try exact Hsame.
  destruct (dict_get "result" members) as [[| | | | |result_members]|];
    try exact Hsame.
  destruct (dict_get "tools" result_members) as [[| | |s|entries|ms]|];
    try exact Hsame.
  - destruct s; [exact Hcount | exact Hsame].
  - pose proof (register_tools_grows entries (tools c)) as Hg.
    destruct (register_tools entries (tools c)) as [table completed].
    exists table. destruct completed; cbn; split_and!; auto.
  - destruct ms; [exact Hcount | exact Hsame].
Qed.

(** What every run of the handshake has in common. *)
Lemma handshake_run_client c w n c' reqs :
  handshake_run c w n c' reqs ->
  exists hs t',
    c' = set_tools (set_headers (set_session c true) hs) t' /\
    (hs = headers c \/
     exists sid, sid <> "" /\ hs = dict_set "Mcp-Session-Id" sid (headers c)) /\
    table_grows (tools c) t' /\
    (n = 0 \/ n = Z.of_nat (size t')).
Proof.
  assert (Hsid : forall r,
            exists hs,
              with_session_id (set_session c true) r
              = set_headers (set_session c true) hs /\
              (hs = headers c \/
               exists sid, sid <> "" /\
                           hs = dict_set "Mcp-Session-Id" sid (headers c))).
  { intros r. unfold with_session_id.
    destruct (resp_session_id r) as [sid|]; [| exists (headers c); auto].
    destruct (String.eqb sid "") eqn:He; [exists (headers c); auto |].
    apply String.eqb_neq in He. eexists. split; [done |]. right. by exists sid. }
  assert (Hplain : forall c1 : GitHubMCPClient,
            c1 = set_tools c1 (tools c1)) by (intros c1; by destruct c1).
  intros [Hr | r e H1 Hs H2 | r H1 Hs H3 | r r2 r3 data H1 Hs H2 H3 Hs3 Hj].
  - exists (headers c), (tools c). split_and!; auto using table_grows_refl.
  - destruct (Hsid r) as (hs & -> & Hhs). exists hs, (tools c).
    split_and!; auto using table_grows_refl.
  - destruct (Hsid r) as (hs & -> & Hhs). exists hs, (tools c).
    split_and!; auto using table_grows_refl.
  - destruct (Hsid r) as (hs & -> & Hhs).
    destruct (read_tools_list_shape (set_headers (set_session c true) hs) data)
      as (t' & -> & Hg & Hn).
    exists hs, t'. split_and!; auto.
Qed.

Lemma handshake_run_requests c w n c' reqs :
  handshake_run c w n c' reqs ->
  (1 <= length reqs <= 3)%nat /\
  reqs !! 0%nat = Some (initialize_request c) /\
  Forall (fun q => req_url q = base_url c) reqs /\
  Forall (fun q => req_headers q = headers c \/
                   req_headers q = headers c') reqs.
Proof.
  assert (Hurl : forall r, base_url (with_session_id (set_session c true) r)
                           = base_url c).
  { intros r. unfold with_session_id.
    destruct (resp_session_id r) as [sid|]; [| done].
    by destruct (String.eqb sid ""). }
  assert (Hrl : forall r data,
            headers (read_tools_list (with_session_id (set_session c true) r)
                                     data).2
            = headers (with_session_id (set_session c true) r)).
  { intros r data.
    destruct (read_tools_list_shape
                (with_session_id (set_session c true) r) data)
      as (t' & -> & _). done. }
  intros [Hr | r e H1 Hs H2 | r H1 Hs H3 | r r2 r3 data H1 Hs H2 H3 Hs3 Hj];
    cbn [length lookup list_lookup].
  - split_and!; [lia | lia | done | |].
    + apply Forall_singleton. done.
    + apply Forall_singleton. by left.
  - split_and!; [lia | lia | done | |].
    + apply Forall_cons. split; [done |]. apply Forall_singleton. apply Hurl.
    + apply Forall_cons. split; [by left |]. apply Forall_singleton. by right.
  - split_and!; [lia | lia | done | |].
    + apply Forall_cons. split; [done |].
      apply Forall_cons. split; [apply Hurl |].
      apply Forall_singleton. apply Hurl.
    + apply Forall_cons. split; [by left |].
      apply Forall_cons. split; [by right |].
      apply Forall_singleton. by right.
  - split_and!; [lia | lia | done | |].
    + apply Forall_cons. split; [done |].
      apply Forall_cons. split; [apply Hurl |].
      apply Forall_singleton. apply Hurl.
    + apply Forall_cons. split; [by left |].
      apply Forall_cons. split; [right; by rewrite Hrl |].
      apply Forall_singleton. right. by rewrite Hrl.
Qed.

(** X1. [initialize] never raises.  It sends one, two or three requests,
    the first being the [initialize] request, all to the client's base
    URL, and changes nothing else in the world.  Afterwards the session
    object exists, and the number it returns is 0 or the size of the
    tool table. *)
Theorem handshake_sends_at_most_three_requests
    (c : GitHubMCPClient) (w : world) :
  exists (n : Z) (c' : GitHubMCPClient) (reqs : list http_request),
    MCP.initialize c w = (Ok (n, c'), add_http w reqs) /\
    (1 <= length reqs <= 3)%nat /\
    reqs !! 0%nat = Some (initialize_request c) /\
    Forall (fun q => req_url q = base_url c) reqs /\
    session c' = true /\ base_url c' = base_url c /\
    (n = 0 \/ n = Z.of_nat (size (tools c'))).
Proof.
  destruct (initialize_runs c w) as (n & c' & reqs & Hrun & Hshape).
  exists n, c', reqs. split; [exact Hrun |].
  destruct (handshake_run_requests c w n c' reqs Hshape)
    as (Hlen & Hfirst & Hurl & _).
  destruct (handshake_run_client c w n c' reqs Hshape)
    as (hs & t' & -> & _ & _ & Hn).
  split_and!; try done; lia.
Qed.

Lemma table_grows_size t t' : table_grows t t' -> (size t <= size t')%nat.
Proof.
  intros Hg. rewrite <- !size_dom. apply subseteq_size.
  intros name. rewrite !elem_of_dom. apply Hg.
Qed.

(** X2. Tools registered by an earlier handshake are never removed: every
    name of the table before [initialize] is a name of the table after
    it, whatever the provider answers, so the table never shrinks.  A
    returned number other than 0 is the size of the whole table, the
    earlier tools included. *)
Theorem handshake_keeps_earlier_tools (c : GitHubMCPClient) (w : world) :
  exists (n : Z) (c' : GitHubMCPClient) (w' : world),
    MCP.initialize c w = (Ok (n, c'), w') /\
    (forall name, is_Some (tools c !! name) -> is_Some (tools c' !! name)) /\
    (size (tools c) <= size (tools c'))%nat /\
    (n <> 0 -> n = Z.of_nat (size (tools c')) /\
               Z.of_nat (size (tools c)) <= n).
Proof.
  destruct (initialize_runs c w) as (n & c' & reqs & Hrun & Hshape).
  exists n, c', (add_http w reqs). split; [exact Hrun |].
  destruct (handshake_run_client c w n c' reqs Hshape)
    as (hs & t' & -> & _ & Hg & Hn).
  cbn [tools set_tools]. split; [exact Hg |].
  pose proof (table_grows_size _ _ Hg) as Hsize.
  split; [exact Hsize |]. intros Hne.
  destruct Hn as [-> | ->]; [done |]. split; [done | lia].
Qed.

(** X3. When the answer to the [initialize] request has status 200 and
    carries a non-empty session id, the requests that follow in the
    handshake carry that id in the header [Mcp-Session-Id], the client
    keeps it for its tool calls, and no other header changes. *)
Theorem handshake_session_id_header
    (c : GitHubMCPClient) (w : world) (r : http_response) (sid : string) :
  http_oracle w (length (http_log w)) (initialize_request c) = HttpAnswers r ->
  status_code r = 200 ->
  resp_session_id r = Some sid -> sid <> "" ->
  exists (n : Z) (c' : GitHubMCPClient) (reqs : list http_request),
    MCP.initialize c w = (Ok (n, c'), add_http w (initialize_request c :: reqs)) /\
    reqs <> [] /\
    Forall (fun q => dict_get "Mcp-Session-Id" (req_headers q) = Some sid)
           reqs /\
    headers c' = dict_set "Mcp-Session-Id" sid (headers c) /\
    dict_get "Mcp-Session-Id" (headers c') = Some sid /\
    (forall k, k <> "Mcp-Session-Id" ->
               dict_get k (headers c') = dict_get k (headers c)).
Proof.
  intros H1 Hs Hsid Hne.
  assert (Hc1 : with_session_id (set_session c true) r
                = set_headers (set_session c true)
                    (dict_set "Mcp-Session-Id" sid (headers c))).
  { unfold with_session_id. rewrite Hsid.
    apply String.eqb_neq in Hne. by rewrite Hne. }
  assert (Hget : dict_get "Mcp-Session-Id"
                   (dict_set "Mcp-Session-Id" sid (headers c)) = Some sid)
    by apply dict_get_set_eq.
  assert (Hrl : forall data,
            headers (read_tools_list (with_session_id (set_session c true) r)
                                     data).2
            = dict_set "Mcp-Session-Id" sid (headers c)).
  { intros data.
    destruct (read_tools_list_shape
                (with_session_id (set_session c true) r) data)
      as (t' & -> & _). by rewrite Hc1. }
  destruct (initialize_runs c w) as (n & c' & reqs & Hrun & Hshape).
  destruct Hshape
    as [Hr | r' e H1' Hs' H2 | r' H1' Hs' H3
        | r' r2 r3 data H1' Hs' H2 H3 Hs3 Hj].
  - by destruct (Hr r H1).
  - rewrite H1 in H1'. injection H1' as <-.
    eexists _, _, _. split; [exact Hrun |]. rewrite Hc1.
    split_and!; [done | | done | done |].
    + apply Forall_singleton. exact Hget.
    + intros k Hk. cbn. by apply dict_get_set_ne.
  - rewrite H1 in H1'. injection H1' as <-.
    eexists _, _, _. split; [exact Hrun |]. rewrite Hc1.
    split_and!; [done | | done | done |].
    + apply Forall_cons. split; [exact Hget |].
      apply Forall_singleton. exact Hget.
    + intros k Hk. cbn. by apply dict_get_set_ne.
  - rewrite H1 in H1'. injection H1' as <-.
    eexists _, _, _. split; [exact Hrun |].
    split_and!; [done | | apply Hrl | by rewrite Hrl |].
    + rewrite Hc1. apply Forall_cons. split; [exact Hget |].
      apply Forall_singleton. exact Hget.
    + intros k Hk. rewrite Hrl. by apply dict_get_set_ne.
Qed.

(** *** A provider that serves the handshake *)

Definition issues_entry : json :=
  JObj [("name", JStr "list_issues");
        ("description", JStr "List issues in a repository");
        ("inputSchema",
         JObj [("type", JStr "object");
               ("properties",
                JObj [("owner", JObj [("type", JStr "string")]);
                      ("repo", JObj [("type", JStr "string")])]);
               ("required", JArr [JStr "owner"; JStr "repo"])])].

Definition me_entry : json :=
  JObj [("name", JStr "get_me");
        ("description", JStr "Details of the authenticated user");
        ("inputSchema", JObj [("type", JStr "object");
                              ("properties", JObj [])])].

Definition accepted_response : http_response :=
  {| status_code := 200; resp_session_id := Some "sess-1";
     resp_json := Ok (JObj [("jsonrpc", JStr "2.0"); ("id", JInt 1);
                            ("result", JObj [])]);
     resp_text := "" |}.

Definition listing_response : http_response :=
  {| status_code := 200; resp_session_id := None;
     resp_json :=
       Ok (JObj [("jsonrpc", JStr "2.0"); ("id", JInt 2);
                 ("result", JObj [("tools", JArr [issues_entry; me_entry])])]);
     resp_text := "" |}.

Definition issues_response : http_response :=
  {| status_code := 200; resp_session_id := None;
     resp_json :=
       Ok (JObj [("jsonrpc", JStr "2.0"); ("id", JInt 3);
                 ("result", JObj [("content", JArr [JStr "3 open issues"])])]);
     resp_text := "" |}.

Definition serving_world : world :=
  {| http_log := [];
     http_oracle :=
       fun n _ =>
         match n with
         | 0%nat => HttpAnswers accepted_response
         | 1%nat => HttpAnswers {| status_code := 202; resp_session_id := None;
                                   resp_json := Raise (Exception "Expecting value");
                                   resp_text := "" |}
         | 2%nat => HttpAnswers listing_response
         | _ => HttpAnswers issues_response
         end;
     bedrock_log := [];
     bedrock_oracle := fun _ _ => BedrockStream [];
     ids_drawn := 0;
     uuid_source := fun _ => "00000000-0000-4000-8000-000000000000";
     clock := fun _ => "2025-01-01T00:00:00" |}.

Lemma handshake_session_id_witness :
  exists (n : Z) (c' : GitHubMCPClient) (reqs : list http_request),
    MCP.initialize new_client serving_world =
      (Ok (n, c'),
       add_http serving_world (initialize_request new_client :: reqs)) /\
    reqs <> [] /\
    Forall (fun q => dict_get "Mcp-Session-Id" (req_headers q) = Some "sess-1")
           reqs /\
    headers c' = dict_set "Mcp-Session-Id" "sess-1" (headers new_client) /\
    dict_get "Mcp-Session-Id" (headers c') = Some "sess-1" /\
    (forall k, k <> "Mcp-Session-Id" ->
               dict_get k (headers c') = dict_get k (headers new_client)).
Proof.
  apply (handshake_session_id_header new_client serving_world
           accepted_response "sess-1").
  - reflexivity.
  - reflexivity.
  - reflexivity.
  - discriminate.
Defined.

(** *** A complete listing *)

Lemma register_tools_complete entries decoded :
  forall t : gmap string tool_info,
  Forall2 (fun e d => decode_tool e = Some d) entries decoded ->
  register_tools entries t =
    (foldl (fun t d => <[d.1 := d.2]> t) t decoded, true).
Proof.
  intros t Hd. revert t.
  induction Hd as [|e d entries decoded He _ IH]; intros t; [done |].
  cbn [register_tools foldl]. rewrite He. destruct d as [tool_name info].
  apply IH.
Qed.

Lemma foldl_insert_union (decoded : list (string * tool_info)) :
  forall t : gmap string tool_info,
    foldl (fun t d => <[d.1 := d.2]> t) t decoded
    = list_to_map (reverse decoded) ∪ t.
Proof.
  induction decoded as [|[k v] decoded IH]; intros t; cbn [foldl].
  - rewrite reverse_nil. cbn [list_to_map foldr].
    by rewrite (left_id_L ∅ (∪)).
  - rewrite IH, reverse_cons, list_to_map_app. cbn [list_to_map foldr].
    rewrite <- (assoc_L (∪)). f_equal.
    by rewrite insert_union_singleton_l, insert_empty.
Qed.

(** X4. When the three round trips of the handshake succeed and the list
    that is served consists of well-formed tool entries, the table after
    [initialize] holds every listed tool (for a name listed twice, its
    last entry), holds the tools it held before under the names that are
    not listed, and the number returned is the size of that table. *)
Theorem handshake_registers_listed_tools
    (c : GitHubMCPClient) (w : world) (r r2 r3 : http_response)
    (members result_members : list (string * json)) (entries : list json)
    (decoded : list (string * tool_info)) :
  let c1 := with_session_id (set_session c true) r in
  http_oracle w (length (http_log w)) (initialize_request c) = HttpAnswers r ->
  status_code r = 200 ->
  http_oracle w (S (length (http_log w))) (notification_request c1)
    = HttpAnswers r2 ->
  http_oracle w (S (S (length (http_log w)))) (tools_list_request c1)
    = HttpAnswers r3 ->
  status_code r3 = 200 ->
  resp_json r3 = Ok (JObj members) ->
  dict_get "result" members = Some (JObj result_members) ->
  dict_get "tools" result_members = Some (JArr entries) ->
  Forall2 (fun e d => decode_tool e = Some d) entries decoded ->
  exists (c' : GitHubMCPClient),
    MCP.initialize c w =
      (Ok (Z.of_nat (size (tools c')), c'),
       add_http w [initialize_request c; notification_request c1;
                   tools_list_request c1]) /\
    tools c' = list_to_map (reverse decoded) ∪ tools c /\
    (forall name info,
        (list_to_map (reverse decoded) : gmap string tool_info) !! name
          = Some info ->
        tools c' !! name = Some info) /\
    (forall name, name ∉ decoded.*1 -> tools c' !! name = tools c !! name).
Proof.
  intros c1 H1 Hs H2 H3 Hs3 Hj Hres Htools Hdec. subst c1.
  rewrite initialize_unfold. cbv zeta.
  apply Z.eqb_eq in Hs, Hs3. rewrite H1, Hs, H2, H3, Hs3, Hj.
  unfold read_tools_list. rewrite Hres, Htools.
  assert (Htc : tools (with_session_id (set_session c true) r) = tools c).
  { unfold with_session_id.
    destruct (resp_session_id r) as [sid|]; [| done].
    by destruct (String.eqb sid ""). }
  rewrite (register_tools_complete entries decoded _ Hdec), foldl_insert_union.
  rewrite Htc.
  exists (set_tools (with_session_id (set_session c true) r)
            (list_to_map (reverse decoded) ∪ tools c)).
  split; [reflexivity |]. cbn [tools set_tools].
  split; [done |]. split.
  - intros name info Hl. by apply lookup_union_Some_l.
  - intros name Hn. apply lookup_union_r.
    apply not_elem_of_list_to_map_1. by rewrite fmap_reverse, elem_of_reverse.
Qed.

Definition served_tools : list (string * tool_info) :=
  [("list_issues",
    {| tool_description := JStr "List issues in a repository";
       tool_parameters := JObj [("owner", JObj [("type", JStr "string")]);
                                ("repo", JObj [("type", JStr "string")])];
       tool_required := ["owner"; "repo"] |});
   ("get_me",
    {| tool_description := JStr "Details of the authenticated user";
       tool_parameters := JObj [];
       tool_required := [] |})].

Lemma handshake_registers_listed_witness :
  exists (c' : GitHubMCPClient),
    MCP.initialize new_client serving_world =
      (Ok (Z.of_nat (size (tools c')), c'),
       add_http serving_world
         [initialize_request new_client;
          notification_request
            (with_session_id (set_session new_client true) accepted_response);
          tools_list_request
            (with_session_id (set_session new_client true) accepted_response)])
    /\
    tools c' = list_to_map (reverse served_tools) ∪ tools new_client /\
    (forall name info,
        (list_to_map (reverse served_tools) : gmap string tool_info) !! name
          = Some info ->
        tools c' !! name = Some info) /\
    (forall name, name ∉ served_tools.*1 ->
                  tools c' !! name = tools new_client !! name).
Proof.
  apply (handshake_registers_listed_tools new_client serving_world
           accepted_response
           {| status_code := 202; resp_session_id := None;
              resp_json := Raise (Exception "Expecting value");
              resp_text := "" |}
           listing_response
           [("jsonrpc", JStr "2.0"); ("id", JInt 2);
            ("result", JObj [("tools", JArr [issues_entry; me_entry])])]
           [("tools", JArr [issues_entry; me_entry])]
           [issues_entry; me_entry] served_tools).
  - reflexivity.
  - reflexivity.
  - reflexivity.
  - reflexivity.
  - reflexivity.
  - reflexivity.
  - reflexivity.
  - reflexivity.
  - apply Forall2_cons. split; [reflexivity |].
    apply Forall2_cons. split; [reflexivity |]. apply Forall2_nil_2.
Defined.

(** *** The tool call *)

(** X5. [call_tool] returns a value only when the session object exists
    and its one request was answered with status 200 and a JSON body.
    For a body that is an object the value is the member [result] when
    there is one, also beside a member [error]; an object with neither
    member is returned whole. *)
Theorem call_tool_returns_only_after_status_200
    (c : GitHubMCPClient) (tool_name : string)
    (arguments : list (string * json)) (w w' : world) (v : json) :
  call_tool c tool_name arguments w = (Ok v, w') ->
  session c = true /\
  w' = add_http w [call_request c tool_name arguments] /\
  exists (r : http_response) (data : json),
    http_oracle w (length (http_log w)) (call_request c tool_name arguments)
      = HttpAnswers r /\
    status_code r = 200 /\ resp_json r = Ok data /\
    forall members, data = JObj members ->
      match dict_get "result" members with
      | Some x => v = x
      | None => dict_get "error" members = None /\ v = data
      end.
Proof.
  unfold call_tool. destruct (session c); cbn [negb]; [| by unfold raise].
  unfold bind, rpc. fold (call_request c tool_name arguments).
  rewrite http_post_adds.
  destruct (http_oracle w (length (http_log w))
              (call_request c tool_name arguments)) as [e | r] eqn:Ho;
    [done |].
  destruct (status_code r =? 200) eqn:Hs; cbn [negb]; [| by unfold raise].
  apply Z.eqb_eq in Hs. unfold lift_result.
  destruct (resp_json r) as [data | e] eqn:Hj; [| done].
  intros Hrun. split; [done |].
  assert (Hv : read_call_result data = Ok v) by congruence.
  split; [congruence |]. exists r, data. split_and!; try done.
  intros members ->. cbn [read_call_result] in Hv.
  destruct (dict_get "result" members) as [x|]; [congruence |].
  destruct (dict_get "error" members); [done |]. split; [done | congruence].
Qed.

Lemma call_tool_returns_witness :
  call_tool (set_session new_client true) "list_issues"
    [("owner", JStr "junipersquare"); ("repo", JStr "main")]
    (add_http serving_world [initialize_request new_client;
                             initialize_request new_client;
                             initialize_request new_client])
  = (Ok (JObj [("content", JArr [JStr "3 open issues"])]),
     add_http serving_world
       [initialize_request new_client; initialize_request new_client;
        initialize_request new_client;
        call_request (set_session new_client true) "list_issues"
          [("owner", JStr "junipersquare"); ("repo", JStr "main")]])
  /\ session (set_session new_client true) = true.
Proof.
  assert (Hrun : call_tool (set_session new_client true) "list_issues"
            [("owner", JStr "junipersquare"); ("repo", JStr "main")]
            (add_http serving_world [initialize_request new_client;
                                     initialize_request new_client;
                                     initialize_request new_client])
          = (Ok (JObj [("content", JArr [JStr "3 open issues"])]),
             add_http serving_world
               [initialize_request new_client; initialize_request new_client;
                initialize_request new_client;
                call_request (set_session new_client true) "list_issues"
                  [("owner", JStr "junipersquare"); ("repo", JStr "main")]]))
    by reflexivity.
  split; [exact Hrun |].
  exact (proj1 (call_tool_returns_only_after_status_200 _ _ _ _ _ _ Hrun)).
Defined.

(** *** The headers of every request *)

Lemma init_readonly_header token toolsets_arg readonly_arg :
  dict_get "X-MCP-Readonly"
    (headers (MCP.init token toolsets_arg readonly_arg)) = Some "true".
Proof. unfold MCP.init. cbn [headers]. apply dict_get_set_eq. Qed.

(** X6. Whatever the [readonly] argument of the constructor, every request
    of the handshake and every tool call made afterwards carries the
    header [X-MCP-Readonly: true]. *)
Theorem readonly_header_on_every_request
    (token : option string) (toolsets_arg : list string) (readonly_arg : bool)
    (w : world) :
  exists (n : Z) (c' : GitHubMCPClient) (reqs : list http_request),
    MCP.initialize (MCP.init token toolsets_arg readonly_arg) w
      = (Ok (n, c'), add_http w reqs) /\
    Forall (fun q => dict_get "X-MCP-Readonly" (req_headers q) = Some "true")
           reqs /\
    forall tool_name arguments w2,
      (call_tool c' tool_name arguments w2).2
        = add_http w2 [call_request c' tool_name arguments] /\
      dict_get "X-MCP-Readonly"
        (req_headers (call_request c' tool_name arguments)) = Some "true".
Proof.
  set (c := MCP.init token toolsets_arg readonly_arg).
  destruct (initialize_runs c w) as (n & c' & reqs & Hrun & Hshape).
  exists n, c', reqs. split; [exact Hrun |].
  destruct (handshake_run_requests c w n c' reqs Hshape)
    as (_ & _ & _ & Hhs).
  destruct (handshake_run_client c w n c' reqs Hshape)
    as (hs & t' & Hc' & Hhs' & _ & _).
  assert (Hc : dict_get "X-MCP-Readonly" (headers c) = Some "true")
    by apply init_readonly_header.
  assert (Hafter : dict_get "X-MCP-Readonly" (headers c') = Some "true").
  { rewrite Hc'. cbn [headers set_tools set_headers].
    destruct Hhs' as [-> | (sid & _ & ->)]; [done |].
    by rewrite dict_get_set_ne. }
  split.
  - eapply Forall_impl; [exact Hhs |]. intros q [-> | ->]; done.
  - intros tool_name arguments w2. split; [| exact Hafter].
    assert (Hs : session c' = true) by (by rewrite Hc').
    unfold call_tool. rewrite Hs. cbn [negb].
    unfold bind, rpc. fold (call_request c' tool_name arguments).
    rewrite http_post_adds.
    destruct (http_oracle w2 _ _) as [e | r]; [done |].
    destruct (status_code r =? 200); cbn [negb]; [| done].
    unfold lift_result. by destruct (resp_json r).
Qed.

End HandshakeFacts.

(** ** agent.py: what a run of [execute_tools] does to the cache and the
    network *)

Module ToolRunFacts.
Import Json JsonFacts CanonFacts CacheFacts MCP GitHubAgent.
Import SupervisorFacts MCPFacts AgentFacts HandshakeFacts.

Lemma call_tool_world c tool_name arguments w :
  (call_tool c tool_name arguments w).2 = w \/
  (call_tool c tool_name arguments w).2
    = add_http w [call_request c tool_name arguments].
Proof.
  unfold call_tool. destruct (session c); cbn [negb]; [| by left].
  right. unfold bind, rpc. fold (call_request c tool_name arguments).
  rewrite http_post_adds.
  destruct (http_oracle w _ _) as [e | r]; [done |].
  destruct (status_code r =? 200); cbn [negb]; [| done].
  unfold lift_result. by destruct (resp_json r).
Qed.

Definition request_of (c : GitHubMCPClient) (tc : tool_call) : http_request :=
  call_request c (call_name tc) (call_arguments tc).

Section Runs.
Variable digest : string -> string.

(** One iteration of the loop, case by case. *)
Lemma execute_tool_cases a tc w :
  exists r a' reqs,
    execute_tool digest a tc w = ((r, a'), add_http w reqs) /\
    (reqs = [] \/ reqs = [request_of (mcp_client a) tc]) /\
    mcp_client a' = mcp_client a /\ conversation a' = conversation a /\
    agent_id a' = agent_id a /\
    (result_cache a' = result_cache a \/
     exists result,
       call_name tc ∈ cacheable_tools /\
       r = success tc result /\
       result_cache a' =
         cache_put (result_cache a)
           (get_cache_key digest (call_name tc) (call_arguments tc)) r).
Proof.
  unfold execute_tool.
  destruct (_ ≫= cache_get (result_cache a)) as [cached|].
  { exists cached, a, []. rewrite add_http_nil. split_and!; auto. }
  destruct (tools (mcp_client a) !! call_name tc) as [info|].
  2:{ eexists _, a, []. rewrite add_http_nil. split_and!; auto. }
  cbv zeta. destruct (missing_params info (call_arguments tc)).
  2:{ eexists _, a, []. rewrite add_http_nil. split_and!; auto. }
  pose proof (call_tool_world (mcp_client a) (call_name tc)
                (call_arguments tc) w) as Hw.
  destruct (call_tool (mcp_client a) (call_name tc) (call_arguments tc) w)
    as [[result | e] w'].
  - assert (Hreqs : exists reqs, w' = add_http w reqs /\
              (reqs = [] \/ reqs = [request_of (mcp_client a) tc])).
    { destruct Hw as [Hw | Hw]; cbn in Hw; subst w'.
      - exists []. by rewrite add_http_nil; auto.
      - eexists. split; [done |]. by right. }
    destruct Hreqs as (reqs & -> & Hreqs).
    destruct (bool_decide_reflect (call_name tc ∈ cacheable_tools)) as [Hc|Hc].
    + cbn [mbind option_bind].
      destruct (String.eqb _ "").
      * eexists _, a, reqs. split_and!; auto.
      * eexists _, _, reqs. split; [done |]. split_and!; auto.
        right. by exists result.
    + eexists _, a, reqs. split_and!; auto.
  - assert (Hreqs : exists reqs, w' = add_http w reqs /\
              (reqs = [] \/ reqs = [request_of (mcp_client a) tc])).
    { destruct Hw as [Hw | Hw]; cbn in Hw; subst w'.
      - exists []. by rewrite add_http_nil; auto.
      - eexists. split; [done |]. by right. }
    destruct Hreqs as (reqs & -> & Hreqs).
    eexists _, a, reqs. split_and!; auto.
Qed.


(** The cache stays a dictionary of at most 50 entries. *)
Definition cache_bounded (a : GitHubAgent) : Prop :=
  (length (result_cache a) <= 50)%nat /\ NoDup (result_cache a).*1.

Lemma execute_tool_bounded a tc w :
  cache_bounded a -> cache_bounded (execute_tool digest a tc w).1.2.
Proof.
  intros [Hlen Hnd].
  destruct (execute_tool_cases a tc w)
    as (r & a' & reqs & -> & _ & _ & _ & _ & [Hsame | (result & _ & _ & Hput)]);
    unfold cache_bounded; cbn [fst snd].
  - by rewrite Hsame.
  - rewrite Hput. split; [by apply cache_put_bound | by apply cache_put_NoDup].
Qed.

(** X8. The result cache never outgrows its bound: when it holds at most
    50 entries under distinct keys before a run of [execute_tools], it
    does so after the run, whatever the calls and the provider's
    answers. *)
Theorem execute_tools_keeps_cache_within_50
    (a : GitHubAgent) (calls : list tool_call) (w : world) :
  (length (result_cache a) <= 50)%nat -> NoDup (result_cache a).*1 ->
  (length (result_cache (execute_tools digest a calls w).1.2) <= 50)%nat /\
  NoDup (result_cache (execute_tools digest a calls w).1.2).*1.
Proof.
  intros Hlen Hnd. assert (Hb : cache_bounded a) by done. clear Hlen Hnd.
  revert a w Hb. induction calls as [|tc calls IH]; intros a w Hb; [done |].
  cbn [execute_tools].
  pose proof (execute_tool_bounded a tc w Hb) as H1.
  destruct (execute_tool digest a tc w) as [[r a1] w1].
  pose proof (IH a1 w1 H1) as H2.
  by destruct (execute_tools digest a1 calls w1) as [[rs a2] w2].
Qed.

(** X9. A successful call of a cacheable tool is answered from the cache
    when it is repeated: once [call_tool] has returned for a call that
    was not in the cache, the same tool with the same arguments, given
    in any order, gets the stored record without a request and without a
    change to the agent.  The record is the one of the first call, with
    the arguments in the order of the first call. *)
Theorem repeated_call_is_served_from_cache
    (a : GitHubAgent) (tc tc' : tool_call) (info : tool_info)
    (result : json) (w w1 : world) :
  call_name tc ∈ cacheable_tools ->
  tools (mcp_client a) !! call_name tc = Some info ->
  missing_params info (call_arguments tc) = [] ->
  call_tool (mcp_client a) (call_name tc) (call_arguments tc) w
    = (Ok result, w1) ->
  cache_get (result_cache a)
    (get_cache_key digest (call_name tc) (call_arguments tc)) = None ->
  get_cache_key digest (call_name tc) (call_arguments tc) <> "" ->
  (length (result_cache a) <= 50)%nat ->
  call_name tc' = call_name tc ->
  NoDup (call_arguments tc).*1 ->
  call_arguments tc ≡ₚ call_arguments tc' ->
  exists a1,
    execute_tool digest a tc w = ((success tc result, a1), w1) /\
    forall w2,
      execute_tool digest a1 tc' w2 = ((success tc result, a1), w2).
Proof.
  intros Hc Hinfo Hmiss Hcall Hfresh Hkey Hlen Hname Hnd Hperm.
  unfold execute_tool at 1.
  rewrite (bool_decide_eq_true_2 _ Hc). cbn [mbind option_bind].
  rewrite Hfresh, Hinfo. cbv zeta. rewrite Hmiss, Hcall.
  apply String.eqb_neq in Hkey. rewrite Hkey.
  eexists. split; [reflexivity |]. intros w2.
  unfold execute_tool. rewrite Hname.
  rewrite (bool_decide_eq_true_2 _ Hc). cbn [mbind option_bind].
  cbn [result_cache set_cache].
  assert (Hk : get_cache_key digest (call_name tc) (call_arguments tc')
               = get_cache_key digest (call_name tc) (call_arguments tc)).
  { unfold get_cache_key, key_data. do 3 f_equal.
    symmetry. by apply dumps_sorted_permutation. }
  rewrite Hk, cache_get_put by done. done.
Qed.

(** The record of a successful call of a cacheable tool, under the key
    of that call. *)
Definition success_entry (key : string) (v : json) : Prop :=
  exists (tool_name : string) (arguments : list (string * json))
         (result : json),
    v = JObj [("tool", JStr tool_name); ("arguments", JObj arguments);
              ("result", result)] /\
    tool_name ∈ cacheable_tools /\
    key = get_cache_key digest tool_name arguments.

Lemma dict_set_elem {V} (d : list (string * V)) k v x :
  x ∈ dict_set k v d -> x = (k, v) \/ x ∈ d.
Proof.
  induction d as [|[k' v'] d IH]; cbn [dict_set].
  - intros ->%list_elem_of_singleton. by left.
  - destruct (String.eqb k k').
    + intros [-> | Hx]%elem_of_cons; [by left |].
      right. by apply elem_of_cons; right.
    + intros [-> | Hx]%elem_of_cons.
      * right. by apply elem_of_cons; left.
      * destruct (IH Hx) as [-> | Hd]; [by left |].
        right. by apply elem_of_cons; right.
Qed.

Lemma cache_put_elem cache key v x :
  x ∈ cache_put cache key v -> x = (key, v) \/ x ∈ cache.
Proof.
  rewrite cache_put_unfold. intros Hx. apply (dict_set_elem cache key v).
  destruct (50 <? length (dict_set key v cache))%nat; [| exact Hx].
  by apply (sublist_subseteq _ _ (sublist_drop _ 10)).
Qed.

Lemma execute_tool_entries a tc w :
  (forall k v, (k, v) ∈ result_cache a -> success_entry k v) ->
  forall k v, (k, v) ∈ result_cache (execute_tool digest a tc w).1.2 ->
              success_entry k v.
Proof.
  intros Hinv k v.
  destruct (execute_tool_cases a tc w)
    as (r & a' & reqs & -> & _ & _ & _ & _ & [Hsame | (result & Hc & -> & Hput)]);
    cbn [fst snd].
  - rewrite Hsame. apply Hinv.
  - rewrite Hput. intros [[= -> ->] | Hold]%cache_put_elem; [| by apply Hinv].
    by exists (call_name tc), (call_arguments tc), result.
Qed.

(** X10. Only successes are cached.  When every entry of the cache is
    the record of a successful call of a cacheable tool, stored under
    the key of that call, this is so after a run of [execute_tools]: the
    answers "not available", "Missing required parameters" and the
    failures of a call are never stored, and no tool outside the
    cacheable ones is. *)
Theorem execute_tools_caches_only_successes
    (a : GitHubAgent) (calls : list tool_call) (w : world) :
  (forall k v, (k, v) ∈ result_cache a -> success_entry k v) ->
  forall k v,
    (k, v) ∈ result_cache (execute_tools digest a calls w).1.2 ->
    success_entry k v.
Proof.
  revert a w. induction calls as [|tc calls IH]; intros a w Hinv; [done |].
  cbn [execute_tools].
  pose proof (execute_tool_entries a tc w Hinv) as H1.
  destruct (execute_tool digest a tc w) as [[r a1] w1].
  pose proof (IH a1 w1 H1) as H2.
  by destruct (execute_tools digest a1 calls w1) as [[rs a2] w2].
Qed.

(** No entry of a sound cache answers a call of a tool that is not in
    the table. *)
Lemma cache_miss_when_unknown a tc :
  (forall s t, digest s = digest t -> s = t) ->
  cache_sound digest a ->
  tools (mcp_client a) !! call_name tc = None ->
  call_name tc ∈ cacheable_tools ->
  cache_get (result_cache a)
            (get_cache_key digest (call_name tc) (call_arguments tc)) = None.
Proof.
  intros Hinj Hs Hnone Hc. apply dict_get_None. intros Hin.
  destruct (Hs _ Hin) as (t & args & info & Hkey & Ht & _ & Hinfo & _).
  apply Hinj in Hkey.
  apply key_data_split in Hkey as [Hname _];
    [| by apply cacheable_no_colon ..].
  rewrite Hname, Hinfo in Hnone. done.
Qed.

Lemma execute_tool_unknown_is_local a tc w :
  tools (mcp_client a) !! call_name tc = None ->
  (execute_tool digest a tc w).2 = w /\ (execute_tool digest a tc w).1.2 = a.
Proof.
  intros Htc. unfold execute_tool.
  destruct (_ ≫= cache_get (result_cache a)) as [cached|]; [done |].
  by rewrite Htc.
Qed.

(** X11. Calls of tools that are not in the tool table are answered on
    the spot: no request is sent and the agent is unchanged, whatever the
    cache holds.  On an agent reached from an empty cache, with a digest
    without collisions, every answer is the error "Tool ... not
    available". *)
Theorem unknown_tools_answered_without_request
    (a : GitHubAgent) (calls : list tool_call) (w : world) :
  Forall (fun tc => tools (mcp_client a) !! call_name tc = None) calls ->
  ((execute_tools digest a calls w).2 = w /\
   (execute_tools digest a calls w).1.2 = a) /\
  ((forall s t, digest s = digest t -> s = t) -> reachable digest a ->
   (execute_tools digest a calls w).1.1
     = (fun tc => unavailable (call_name tc)) <$> calls).
Proof.
  intros Hall. split.
  - induction Hall as [|tc calls Htc _ IH]; [done |].
    cbn [execute_tools].
    destruct (execute_tool_unknown_is_local a tc w Htc) as [Hw Ha].
    destruct (execute_tool digest a tc w) as [[r a1] w1].
    cbn in Hw, Ha. subst a1 w1.
    by destruct (execute_tools digest a calls w) as [[rs a2] w2].
  - intros Hinj Hr. pose proof (reachable_sound digest a Hr) as Hs.
    induction Hall as [|tc calls Htc _ IH]; [done |].
    cbn [execute_tools].
    assert (H1 : execute_tool digest a tc w
                 = ((unavailable (call_name tc), a), w)).
    { unfold execute_tool.
      destruct (bool_decide_reflect (call_name tc ∈ cacheable_tools))
        as [Hc|Hc]; cbn [mbind option_bind].
      - by rewrite (cache_miss_when_unknown a tc Hinj Hs Htc Hc), Htc.
      - by rewrite Htc. }
    rewrite H1.
    destruct (execute_tools digest a calls w) as [[rs a2] w2].
    cbn in IH |- *. by rewrite IH.
Qed.

End Runs.

(** An agent after the handshake with [serving_world], and a provider
    that answers every tool call. *)
Definition ready_agent : GitHubAgent :=
  set_client (GitHubAgent.init [] true None (Some "ghp_token"))
    (set_tools (set_session new_client true) (list_to_map served_tools)).

Definition answering_world : world :=
  {| http_log := [];
     http_oracle := fun _ _ => HttpAnswers issues_response;
     bedrock_log := [];
     bedrock_oracle := fun _ _ => BedrockStream [];
     ids_drawn := 0;
     uuid_source := fun _ => "00000000-0000-4000-8000-000000000000";
     clock := fun _ => "2025-01-01T00:00:00" |}.

Definition issues_call : tool_call :=
  {| call_name := "list_issues";
     call_arguments := [("owner", JStr "junipersquare"); ("repo", JStr "main")] |}.

Definition issues_call_swapped : tool_call :=
  {| call_name := "list_issues";
     call_arguments := [("repo", JStr "main"); ("owner", JStr "junipersquare")] |}.

Definition issues_result : json :=
  JObj [("content", JArr [JStr "3 open issues"])].

Lemma list_issues_cacheable : "list_issues" ∈ cacheable_tools.
Proof. apply (bool_decide_unpack _). by vm_compute. Qed.

Lemma ready_agent_lists_issues :
  tools (mcp_client ready_agent) !! "list_issues"
  = Some {| tool_description := JStr "List issues in a repository";
            tool_parameters :=
              JObj [("owner", JObj [("type", JStr "string")]);
                    ("repo", JObj [("type", JStr "string")])];
            tool_required := ["owner"; "repo"] |}.
Proof. reflexivity. Qed.

Lemma execute_tools_keeps_cache_witness :
  (length (result_cache ready_agent) <= 50)%nat /\
  NoDup (result_cache ready_agent).*1 /\
  (length (result_cache
             (execute_tools plain_digest ready_agent
                [issues_call; issues_call_swapped] answering_world).1.2)
   <= 50)%nat /\
  NoDup (result_cache
           (execute_tools plain_digest ready_agent
              [issues_call; issues_call_swapped] answering_world).1.2).*1.
Proof.
  assert (H1 : (length (result_cache ready_agent) <= 50)%nat)
    by apply Nat.le_0_l.
  assert (H2 : NoDup (result_cache ready_agent).*1) by apply NoDup_nil_2.
  split; [exact H1 |]. split; [exact H2 |].
  exact (execute_tools_keeps_cache_within_50 plain_digest ready_agent
           [issues_call; issues_call_swapped] answering_world H1 H2).
Defined.

Lemma repeated_call_witness :
  exists a1,
    execute_tool plain_digest ready_agent issues_call answering_world
    = ((success issues_call issues_result, a1),
       add_http answering_world
         [request_of (mcp_client ready_agent) issues_call]) /\
    forall w2,
      execute_tool plain_digest a1 issues_call_swapped w2
      = ((success issues_call issues_result, a1), w2).
Proof.
  apply (repeated_call_is_served_from_cache plain_digest ready_agent
           issues_call issues_call_swapped
           {| tool_description := JStr "List issues in a repository";
              tool_parameters :=
                JObj [("owner", JObj [("type", JStr "string")]);
                      ("repo", JObj [("type", JStr "string")])];
              tool_required := ["owner"; "repo"] |}
           issues_result answering_world).
  - exact list_issues_cacheable.
  - exact ready_agent_lists_issues.
  - reflexivity.
  - reflexivity.
  - reflexivity.
  - discriminate.
  - apply Nat.le_0_l.
  - reflexivity.
  - apply (bool_decide_unpack _). by vm_compute.
  - apply Permutation_swap.
Defined.

Lemma caches_only_successes_witness :
  (forall k v, (k, v) ∈ result_cache ready_agent ->
               success_entry plain_digest k v) /\
  success_entry plain_digest
    (get_cache_key plain_digest "list_issues" (call_arguments issues_call))
    (success issues_call issues_result).
Proof.
  assert (H0 : forall k v, (k, v) ∈ result_cache ready_agent ->
                           success_entry plain_digest k v).
  { intros k v Hin. by apply elem_of_nil in Hin. }
  split; [exact H0 |].
  apply (execute_tools_caches_only_successes plain_digest ready_agent
           [issues_call] answering_world H0).
  apply list_elem_of_singleton. reflexivity.
Defined.

Definition unknown_call : tool_call :=
  {| call_name := "create_issue";
     call_arguments := [("owner", JStr "junipersquare")] |}.

Lemma unknown_tools_witness :
  Forall (fun tc => tools (mcp_client ready_agent) !! call_name tc = None)
         [unknown_call] /\
  (forall s t, plain_digest s = plain_digest t -> s = t) /\
  reachable plain_digest ready_agent /\
  (execute_tools plain_digest ready_agent [unknown_call] answering_world).2
    = answering_world /\
  (execute_tools plain_digest ready_agent [unknown_call] answering_world).1.1
    = [unavailable "create_issue"].
Proof.
  assert (Hall : Forall (fun tc => tools (mcp_client ready_agent)
                                     !! call_name tc = None) [unknown_call])
    by (apply Forall_singleton; reflexivity).
  assert (Hinj : forall s t, plain_digest s = plain_digest t -> s = t)
    by (intros s t Hst; exact Hst).
  assert (Hr : reachable plain_digest ready_agent)
    by (apply reach_fresh; reflexivity).
  destruct (unknown_tools_answered_without_request plain_digest ready_agent
              [unknown_call] answering_world Hall) as [[Hw _] Hres].
  split_and!; [exact Hall | exact Hinj | exact Hr | exact Hw
              | exact (Hres Hinj Hr)].
Defined.

End ToolRunFacts.

(** ** agent_registry.py: keywords, and the lookups by capability and type *)

Module DirectoryFacts.
Import Registry RegistryFacts.

(** *** Keywords are compared as they are written *)

(** The text holds one of the letters ['A'..'Z']. *)
Fixpoint has_upper (s : string) : bool :=
  match s with
  | EmptyString => false
  | String c s' => is_upper c || has_upper s'
  end.

Lemma lower_char_not_upper c : is_upper (lower_char c) = false.
Proof. destruct c as [[] [] [] [] [] [] [] []]; reflexivity. Qed.

Lemma has_upper_lower s : has_upper (lower s) = false.
Proof.
  induction s as [|c s IH]; [done |].
  cbn [lower has_upper]. by rewrite lower_char_not_upper, IH.
Qed.

Lemma has_upper_app s t : has_upper (s +:+ t) = has_upper s || has_upper t.
Proof.
  induction s as [|c s IH]; [by rewrite str_app_nil_l |].
  rewrite str_app_cons. cbn [has_upper]. by rewrite IH, orb_assoc.
Qed.

Lemma upper_keyword_not_contained query kw :
  has_upper kw = true -> str_contains (lower query) kw = false.
Proof.
  intros Hkw. apply not_true_is_false. intros Hc.
  apply str_contains_spec in Hc as (pre & post & Heq).
  pose proof (has_upper_lower query) as Hl.
  rewrite Heq, !has_upper_app, Hkw in Hl.
  by rewrite orb_true_r in Hl.
Qed.

Lemma rule_with_upper_keywords_never_matches query r :
  Forall (fun kw => has_upper kw = true) (get_keywords r) ->
  rule_matches (lower query) r = false.
Proof.
  unfold rule_matches. induction 1 as [|kw kws Hkw _ IH]; [done |].
  cbn [existsb]. by rewrite upper_keyword_not_contained, IH.
Qed.

(** A rule that does not match is as good as absent. *)
Lemma route_loop_skip ql r post : forall pre best hp,
  rule_matches ql r = false ->
  route_loop ql (pre ++ r :: post) best hp = route_loop ql (pre ++ post) best hp.
Proof.
  induction pre as [|r0 pre IH]; intros best hp Hr; cbn [app route_loop].
  - by rewrite Hr.
  - destruct (rule_matches ql r0 && below (get_priority r0) hp); by apply IH.
Qed.

Definition with_rules (reg : AgentRegistry) (rules : list RoutingRule)
  : AgentRegistry :=
  {| config_file := config_file reg; agents := agents reg;
     routing_rules := rules; default_agent := default_agent reg;
     supervisor_config := supervisor_config reg |}.

(** X12. The query is lower-cased, the keywords are not: a rule all of
    whose keywords contain an upper-case letter matches no query at all,
    and routing is the same with and without it. *)
Theorem upper_case_keywords_never_match
    (reg : AgentRegistry) (pre post : list RoutingRule) (r : RoutingRule)
    (query : string) :
  Forall (fun kw => has_upper kw = true) (get_keywords r) ->
  rule_matches (lower query) r = false /\
  route_query (with_rules reg (pre ++ r :: post)) query
    = route_query (with_rules reg (pre ++ post)) query.
Proof.
  intros Hup.
  pose proof (rule_with_upper_keywords_never_matches query r Hup) as Hr.
  split; [exact Hr |].
  unfold route_query. cbn [routing_rules with_rules default_agent].
  by rewrite route_loop_skip.
Qed.

Lemma upper_case_keywords_witness :
  rule_matches (lower "Any open Issues?")
    {| rule_keywords := Some ["Issue"; "PR"];
       rule_agent := Some "github-agent"; rule_priority := Some 1 |} = false /\
  route_query
    (with_rules scenario_registry
       ([] ++ {| rule_keywords := Some ["Issue"; "PR"];
                 rule_agent := Some "github-agent";
                 rule_priority := Some 1 |} :: []))
    "Any open Issues?"
  = route_query (with_rules scenario_registry ([] ++ [])) "Any open Issues?".
Proof.
  apply (upper_case_keywords_never_match scenario_registry [] []
           {| rule_keywords := Some ["Issue"; "PR"];
              rule_agent := Some "github-agent"; rule_priority := Some 1 |}
           "Any open Issues?").
  apply Forall_cons. split; [reflexivity |].
  apply Forall_singleton. reflexivity.
Defined.

(** *** The empty keyword, and rules without keywords *)

Lemma str_contains_empty s : str_contains s "" = true.
Proof. apply str_contains_spec. exists "", s. by rewrite !str_app_nil_l. Qed.

Lemma empty_keyword_matches ql r :
  "" ∈ get_keywords r -> rule_matches ql r = true.
Proof.
  intros Hin. unfold rule_matches. apply existsb_exists.
  exists "". split; [by apply list_elem_of_In | apply str_contains_empty].
Qed.

(** X13. A rule that lists the empty keyword matches every query: with
    such a rule in the table, and every rule naming an agent, routing
    never falls back to the default agent; the answer is the agent of a
    rule whose priority is at most that of the catch-all rule.  A rule
    without keywords matches no query. *)
Theorem empty_keyword_is_a_catch_all
    (reg : AgentRegistry) (r : RoutingRule) (query : string) :
  r ∈ routing_rules reg -> "" ∈ get_keywords r ->
  Forall rule_has_agent (routing_rules reg) ->
  (exists r', r' ∈ routing_rules reg /\
              route_query reg query = rule_agent r' /\
              get_priority r' <= get_priority r) /\
  (forall r0, get_keywords r0 = [] -> rule_matches (lower query) r0 = false).
Proof.
  intros Hin Hkw Hwf. split; [| by intros r0; unfold rule_matches; intros ->].
  unfold route_query.
  pose proof (route_loop_inv (lower query) (routing_rules reg) [] None None)
    as Hinv.
  rewrite app_nil_l in Hinv.
  destruct (route_loop (lower query) (routing_rules reg) None None)
    as [best hp]; cbn [fst snd] in *.
  apply list_elem_of_lookup in Hin as [j Hj].
  pose proof (empty_keyword_matches (lower query) r Hkw) as Hm.
  destruct hp as [p|]; cbn [loop_inv] in Hinv.
  - destruct Hinv as (i & r' & Hi & Hr' & Hp & Hb & Hall).
    { split; [done |]. intros r0 H0. by apply elem_of_nil in H0. }
    exists r'. split; [by eapply list_elem_of_lookup_2 |].
    rewrite Forall_forall in Hwf.
    destruct (Hwf r') as (a & Ha & Hne); [by eapply list_elem_of_lookup_2 |].
    split.
    + subst best. rewrite Ha. cbn [or_else].
      by apply String.eqb_neq in Hne as ->.
    + subst p. by apply (Hall j r).
  - destruct Hinv as [_ Hnone].
    { split; [done |]. intros r0 H0. by apply elem_of_nil in H0. }
    rewrite Hnone in Hm; [done |]. by eapply list_elem_of_lookup_2.
Qed.

Definition catch_all_rule : RoutingRule :=
  {| rule_keywords := Some [""]; rule_agent := Some "bedrock-agent-001";
     rule_priority := None |}.

Lemma empty_keyword_witness :
  (exists r', r' ∈ routing_rules
                     (with_rules scenario_registry
                        (routing_rules scenario_registry ++ [catch_all_rule]))
              /\
              route_query
                (with_rules scenario_registry
                   (routing_rules scenario_registry ++ [catch_all_rule]))
                "hello" = rule_agent r' /\
              get_priority r' <= get_priority catch_all_rule) /\
  (forall r0, get_keywords r0 = [] -> rule_matches (lower "hello") r0 = false).
Proof.
  apply (empty_keyword_is_a_catch_all
           (with_rules scenario_registry
              (routing_rules scenario_registry ++ [catch_all_rule]))
           catch_all_rule "hello").
  - apply elem_of_cons. right. apply list_elem_of_singleton. reflexivity.
  - apply list_elem_of_singleton. reflexivity.
  - apply Forall_cons. split; [by exists "github-agent" |].
    apply Forall_singleton. by exists "bedrock-agent-001".
Defined.

(** *** Looking agents up by capability and by type *)

(** Every agent is filed under its own id. *)
Definition keyed_by_id (reg : AgentRegistry) : Prop :=
  NoDup (agents reg).*1 /\
  Forall (fun kc => cfg_id kc.2 = Some kc.1) (agents reg).

Lemma ids_where_keyed selected entries :
  Forall (fun kc : string * AgentConfig => cfg_id kc.2 = Some kc.1) entries ->
  ids_where selected entries
  = Ok (filter (fun kc => selected kc.2) entries).*1.
Proof.
  induction 1 as [|[k cfg] entries Hk _ IH]; [done |].
  cbn [ids_where]. cbn in Hk. rewrite filter_cons, IH.
  destruct (decide _) as [Hd | Hd]; cbn in Hd;
    destruct (selected cfg); try done.
  by rewrite Hk.
Qed.

Lemma get_agent_config_keyed reg key :
  keyed_by_id reg ->
  get_agent_config reg key = dict_get key (agents reg).
Proof.
  intros [Hnd Hk]. unfold get_agent_config.
  destruct (dict_get key (agents reg)) as [cfg|] eqn:Hget; [done |].
  destruct (find _ (agents reg)) as [[k cfg]|] eqn:Hfind; [| done].
  apply find_some in Hfind as [Hin Hid]. cbn in Hid.
  apply bool_decide_eq_true in Hid.
  rewrite Forall_forall in Hk.
  pose proof (Hk (k, cfg) ltac:(by apply list_elem_of_In)) as Hkey.
  cbn in Hkey. rewrite Hid in Hkey. injection Hkey as <-.
  apply dict_get_None in Hget. exfalso. apply Hget.
  apply list_elem_of_fmap. exists (key, cfg).
  split; [done | by apply list_elem_of_In].
Qed.

Lemma ids_where_registered reg (selected : AgentConfig -> bool) name :
  keyed_by_id reg ->
  name ∈ (filter (fun kc : string * AgentConfig => selected kc.2)
                 (agents reg)).*1
  <-> exists cfg, get_agent_config reg name = Some cfg /\ selected cfg = true.
Proof.
  intros Hk. rewrite (get_agent_config_keyed reg name Hk).
  destruct Hk as [Hnd Hk]. rewrite list_elem_of_fmap. split.
  - intros ([k cfg] & -> & [Hsel Hin]%list_elem_of_filter). cbn in *.
    exists cfg. split; [by apply dict_get_elem_NoDup |].
    by destruct (selected cfg).
  - intros (cfg & Hget & Hsel). exists (name, cfg). split; [done |].
    apply list_elem_of_filter. cbn. rewrite Hsel.
    split; [done | by apply dict_get_Some_elem].
Qed.

(** X14. In a registry that files every agent under its own id,
    [find_agents_by_capability] and [get_agents_by_type] do not raise,
    and agree with the lookups by key: an id is returned for a
    capability exactly when the agent is available and
    [get_agent_capabilities] lists that capability for it, and for a
    type exactly when the configuration of the id has that type. *)
Theorem lookups_by_capability_and_type_agree
    (reg : AgentRegistry) (capability agent_type name : string) :
  keyed_by_id reg ->
  exists by_capability by_type,
    find_agents_by_capability reg capability = Ok by_capability /\
    get_agents_by_type reg agent_type = Ok by_type /\
    (name ∈ by_capability <->
       is_agent_available reg name = true /\
       capability ∈ get_agent_capabilities reg name) /\
    (name ∈ by_type <->
       exists cfg, get_agent_config reg name = Some cfg /\
                   cfg_type cfg = Some agent_type).
Proof.
  intros Hk. unfold find_agents_by_capability, get_agents_by_type.
  rewrite !ids_where_keyed by apply Hk.
  eexists _, _. split; [done |]. split; [done |].
  rewrite !(ids_where_registered reg _ name Hk). split.
  - unfold is_agent_available, get_agent_capabilities, has_capability.
    split.
    + intros (cfg & Hget & Hsel). rewrite Hget.
      apply bool_decide_eq_true in Hsel. split; [done |].
      destruct (cfg_is_empty cfg) eqn:He; [| done].
      destruct cfg as [[] [] [] [] [caps|] [] [] [] []]; cbn in *; done.
    + intros [Hav Hcap].
      destruct (get_agent_config reg name) as [cfg|]; [| done].
      exists cfg. split; [done |]. apply bool_decide_eq_true.
      destruct (cfg_is_empty cfg); [by apply elem_of_nil in Hcap | done].
  - unfold has_type. split.
    + intros (cfg & Hget & Hsel). exists cfg.
      by apply bool_decide_eq_true in Hsel.
    + intros (cfg & Hget & Ht). exists cfg. split; [done |].
      by apply bool_decide_eq_true.
Qed.

Definition two_agents : AgentRegistry :=
  {| config_file := "agents.yaml";
     agents :=
       [("github-agent",
         {| cfg_id := Some "github-agent"; cfg_name := Some "GitHub Agent";
            cfg_type := Some "GitHubAgent"; cfg_description := None;
            cfg_capabilities := Some ["github_code_search"; "github_issue_viewing"];
            cfg_endpoint := Some "http://localhost:8001";
            cfg_capabilities_endpoint := None; cfg_query_endpoint := None;
            cfg_config := None |});
        ("bedrock-agent-001",
         {| cfg_id := Some "bedrock-agent-001"; cfg_name := Some "Bedrock Agent";
            cfg_type := Some "BedrockAgent"; cfg_description := None;
            cfg_capabilities := Some ["ai_text_generation"];
            cfg_endpoint := None;
            cfg_capabilities_endpoint := None; cfg_query_endpoint := None;
            cfg_config := Some [("region", JStr "us-west-2")] |})];
     routing_rules := [];
     default_agent := Some "github-agent";
     supervisor_config := [] |}.

Lemma two_agents_keyed : keyed_by_id two_agents.
Proof.
  split.
  - apply (bool_decide_unpack _). by vm_compute.
  - apply Forall_cons. split; [reflexivity |].
    apply Forall_singleton. reflexivity.
Qed.

Lemma lookups_agree_witness :
  exists by_capability by_type,
    find_agents_by_capability two_agents "github_code_search"
      = Ok by_capability /\
    get_agents_by_type two_agents "BedrockAgent" = Ok by_type /\
    ("github-agent" ∈ by_capability <->
       is_agent_available two_agents "github-agent" = true /\
       "github_code_search" ∈ get_agent_capabilities two_agents "github-agent")
    /\
    ("github-agent" ∈ by_type <->
       exists cfg, get_agent_config two_agents "github-agent" = Some cfg /\
                   cfg_type cfg = Some "BedrockAgent").
Proof.
  apply (lookups_by_capability_and_type_agree two_agents
           "github_code_search" "BedrockAgent" "github-agent").
  exact two_agents_keyed.
Defined.

(** Filed under a key that is the id of another agent, an agent found by
    capability is not the one the lookup by key answers for. *)
Example lookup_by_key_shadows_id :
  find_agents_by_capability
    {| config_file := "agents.yaml";
       agents :=
         [("helper",
           {| cfg_id := Some "github-agent"; cfg_name := None;
              cfg_type := None; cfg_description := None;
              cfg_capabilities := Some ["github_code_search"];
              cfg_endpoint := None; cfg_capabilities_endpoint := None;
              cfg_query_endpoint := None; cfg_config := None |});
          ("github-agent",
           {| cfg_id := Some "legacy"; cfg_name := None;
              cfg_type := None; cfg_description := None;
              cfg_capabilities := Some [];
              cfg_endpoint := None; cfg_capabilities_endpoint := None;
              cfg_query_endpoint := None; cfg_config := None |})];
       routing_rules := []; default_agent := None; supervisor_config := [] |}
    "github_code_search" = Ok ["github-agent"] /\
  get_agent_capabilities
    {| config_file := "agents.yaml";
       agents :=
         [("helper",
           {| cfg_id := Some "github-agent"; cfg_name := None;
              cfg_type := None; cfg_description := None;
              cfg_capabilities := Some ["github_code_search"];
              cfg_endpoint := None; cfg_capabilities_endpoint := None;
              cfg_query_endpoint := None; cfg_config := None |});
          ("github-agent",
           {| cfg_id := Some "legacy"; cfg_name := None;
              cfg_type := None; cfg_description := None;
              cfg_capabilities := Some [];
              cfg_endpoint := None; cfg_capabilities_endpoint := None;
              cfg_query_endpoint := None; cfg_config := None |})];
       routing_rules := []; default_agent := None; supervisor_config := [] |}
    "github-agent" = [].
Proof. by vm_compute. Qed.

End DirectoryFacts.

(** ** supervisor_agent.py: the fan-out, request by request *)

Module FanOutFacts.
Import Registry Bedrock Protocol Supervisor SupervisorFacts.

Lemma add_bedrock_app w a b :
  add_bedrock (add_bedrock w a) b = add_bedrock w (a ++ b).
Proof.
  unfold add_bedrock. cbn. rewrite app_assoc, length_app.
  f_equal. lia.
Qed.

Lemma add_http_bedrock w reqs msgs :
  add_http (add_bedrock w msgs) reqs = add_bedrock (add_http w reqs) msgs.
Proof. done. Qed.

(** The request [execute_github_task] sends for [task] to the agent
    configured as [cfg]. *)
Definition github_request (cfg : AgentConfig) (task : TaskRequest)
  : http_request :=
  {| req_url := fmt_opt (cfg_endpoint cfg) +:+
                default "/query" (cfg_query_endpoint cfg);
     req_headers := [];
     req_body := JObj [("query", description task);
                       ("parameters", parameters task)] |}.

(** What the tool delegate does to the world: nothing, or its one
    request; it reads the HTTP oracle and log only. *)
Lemma execute_github_task_effect sup task w :
  exists v reqs,
    (forall w2,
        http_oracle w2 = http_oracle w -> http_log w2 = http_log w ->
        execute_github_task sup task w2 = (Ok v, add_http w2 reqs)) /\
    (reqs = [] \/
     exists cfg, get_agent_config (registry sup) "github-agent" = Some cfg /\
                 reqs = [github_request cfg task]).
Proof.
  unfold execute_github_task.
  destruct (get_agent_config (registry sup) "github-agent") as [cfg|].
  2:{ eexists _, []. split; [| by left].
      intros w2 _ _. by rewrite add_http_nil. }
  destruct (cfg_is_empty cfg).
  { eexists _, []. split; [| by left]. intros w2 _ _. by rewrite add_http_nil. }
  fold (github_request cfg task).
  unfold try_except, bind, http_post, lift_result, ret, raise.
  destruct (http_oracle w (length (http_log w)) (github_request cfg task))
    as [e|r] eqn:Hh.
  { eexists _, [_]. split; [| right; by exists cfg].
    intros w2 Ho Hl. unfold add_http. by rewrite Ho, Hl, Hh. }
  destruct (status_code r =? 200) eqn:Hs.
  2:{ eexists _, [_]. split; [| right; by exists cfg].
      intros w2 Ho Hl. unfold add_http. by rewrite Ho, Hl, Hh, Hs. }
  destruct (resp_json r) as [data|e'] eqn:Hj.
  2:{ eexists _, [_]. split; [| right; by exists cfg].
      intros w2 Ho Hl. unfold add_http. by rewrite Ho, Hl, Hh, Hs, Hj. }
  destruct data eqn:Hd;
    (eexists _, [_]; split; [| right; by exists cfg]);
    intros w2 Ho Hl; unfold add_http; by rewrite Ho, Hl, Hh, Hs, Hj.
Qed.

(** What a call of the Bedrock agent does to the world: one invocation
    is logged. *)
Lemma query_effect client msg w :
  exists r, forall w2,
    bedrock_oracle w2 = bedrock_oracle w -> bedrock_log w2 = bedrock_log w ->
    Bedrock.query client msg w2 = (r, add_bedrock w2 [msg]).
Proof.
  unfold Bedrock.query, _generate_session_id, uuid4, draw, bind,
    bedrock_invoke, ret, raise. cbn.
  destruct (bedrock_oracle w (length (bedrock_log w)) msg) eqn:Hb;
    eexists; intros w2 Ho Hl; unfold add_bedrock; cbn; by rewrite Ho, Hl, Hb.
Qed.

Lemma execute_bedrock_task_effect sup task w :
  exists v msgs,
    (forall w2,
        bedrock_oracle w2 = bedrock_oracle w ->
        bedrock_log w2 = bedrock_log w ->
        execute_bedrock_task sup task w2 = (Ok v, add_bedrock w2 msgs)) /\
    msgs = match bedrock_agent_client sup with
           | Some _ => [description task]
           | None => []
           end.
Proof.
  unfold execute_bedrock_task.
  destruct (bedrock_agent_client sup) as [client|].
  2:{ eexists _, []. split; [| done].
      intros w2 _ _. by rewrite add_bedrock_nil. }
  destruct (query_effect client (description task) w) as [r Hq].
  unfold try_except, bind, ret.
  destruct r as [text | e]; eexists _, _; (split; [| done]);
    intros w2 Ho Hl; by rewrite (Hq w2 Ho Hl).
Qed.

Lemma collate_responses_effect sup q g b w :
  exists text msgs,
    collate_responses sup q g b w = (Ok text, add_bedrock w msgs) /\
    msgs = match bedrock_agent_client sup with
           | Some _ =>
               [JStr (collation_prompt q (outcome_content g)
                                       (outcome_content b))]
           | None => []
           end.
Proof.
  unfold collate_responses.
  destruct (bedrock_agent_client sup) as [client|].
  2:{ eexists _, []. by rewrite add_bedrock_nil. }
  destruct (query_effect client
              (JStr (collation_prompt q (outcome_content g)
                                      (outcome_content b))) w) as [r Hq].
  unfold try_except, ret. rewrite (Hq w) by done.
  destruct r; by eexists _, _.
Qed.

(** X15. The two delegations of the fan-out do not interfere: each reads
    and extends a part of the world the other does not touch, so both
    outcomes and the final world are the same whichever runs first, and
    each outcome is the one the delegation has when it runs alone. *)
Theorem delegations_do_not_interfere
    (sup : SupervisorAgent) (github_task bedrock_task : TaskRequest)
    (w : world) :
  exists (g b : json) (reqs : list http_request) (msgs : list json),
    delegate_task sup github_task "github-agent" w = (Ok g, add_http w reqs) /\
    delegate_task sup bedrock_task "bedrock-agent-001" w
      = (Ok b, add_bedrock w msgs) /\
    delegate_task sup bedrock_task "bedrock-agent-001" (add_http w reqs)
      = (Ok b, add_bedrock (add_http w reqs) msgs) /\
    delegate_task sup github_task "github-agent" (add_bedrock w msgs)
      = (Ok g, add_bedrock (add_http w reqs) msgs).
Proof.
  destruct (execute_github_task_effect sup github_task w)
    as (g & reqs & Hg & _).
  destruct (execute_bedrock_task_effect sup bedrock_task w)
    as (b & msgs & Hb & _).
  exists g, b, reqs, msgs.
  change (delegate_task sup github_task "github-agent")
    with (execute_github_task sup github_task).
  change (delegate_task sup bedrock_task "bedrock-agent-001")
    with (execute_bedrock_task sup bedrock_task).
  rewrite (Hg w), (Hb w), (Hb (add_http w reqs)), (Hg (add_bedrock w msgs))
    by done.
  done.
Qed.

(** X16. A call of [route_and_execute] sends at most one HTTP request,
    the query to the tool agent, and invokes the Bedrock agent at most
    twice, first with the user's query and then with the reconciliation
    prompt; without a Bedrock client it invokes nothing.  Every
    invocation of the Bedrock agent draws one identifier, the session id
    of the call, and no other identifier is drawn: the two tasks carry
    the ids the code gives them. *)
Theorem route_and_execute_request_budget
    (sup : SupervisorAgent) (user_query : string) (w : world) :
  exists (text : string) (reqs : list http_request) (msgs : list json),
    route_and_execute sup user_query w
      = (Ok text, add_bedrock (add_http w reqs) msgs) /\
    (reqs = [] \/
     exists cfg, get_agent_config (registry sup) "github-agent" = Some cfg /\
                 reqs = [github_request cfg (github_task_of sup user_query)]) /\
    match bedrock_agent_client sup with
    | None => msgs = []
    | Some _ =>
        exists prompt, msgs = [JStr user_query; JStr prompt] /\
                       literal_substring user_query prompt
    end /\
    http_log (route_and_execute sup user_query w).2 = http_log w ++ reqs /\
    bedrock_log (route_and_execute sup user_query w).2
      = bedrock_log w ++ msgs /\
    ids_drawn (route_and_execute sup user_query w).2
      = (length msgs + ids_drawn w)%nat.
Proof.
  destruct (execute_github_task_effect sup (github_task_of sup user_query) w)
    as (g & reqs & Hg & Hreqs).
  destruct (execute_bedrock_task_effect sup (bedrock_task_of sup user_query) w)
    as (b & msgs1 & Hb & Hmsgs1).
  destruct (collate_responses_effect sup user_query (Ok g) (Ok b)
              (add_bedrock (add_http w reqs) msgs1))
    as (text & msgs2 & Hc & Hmsgs2).
  exists text, reqs, (msgs1 ++ msgs2).
  rewrite (route_and_execute_unfold sup user_query w g (add_http w reqs) b
             (add_bedrock (add_http w reqs) msgs1));
    [| by apply Hg | by apply Hb].
  rewrite Hc, add_bedrock_app. split; [done |]. split; [exact Hreqs |].
  split; [| done].
  subst msgs1 msgs2. destruct (bedrock_agent_client sup); [| done].
  eexists. split; [done |]. unfold collation_prompt.
  apply literal_substring_mid.
Qed.

(** *** The conversation over several turns *)

Lemma query_turn sup user_message w :
  exists response sup' w',
    query sup user_message w = (Ok (response, sup'), w') /\
    conversation sup' =
      drop (length (conversation sup) + 1 - 10) (conversation sup)
      ++ [entry "user" user_message; entry "assistant" response] /\
    registry sup' = registry sup /\
    bedrock_agent_client sup' = bedrock_agent_client sup /\
    agent_id sup' = agent_id sup.
Proof.
  unfold query.
  set (appended := conversation sup ++ [entry "user" user_message]).
  set (kept := if (10 <? length appended)%nat then last_ten appended
               else appended).
  destruct (route_and_execute_returns (set_conversation sup kept)
              user_message w) as (response & w' & Hrun).
  eexists response, _, w'. unfold bind. rewrite Hrun. split; [done |].
  assert (Hlen : length appended = (length (conversation sup) + 1)%nat).
  { unfold appended. by rewrite length_app. }
  assert (Hkept : kept = drop (length (conversation sup) + 1 - 10) appended).
  { unfold kept, last_ten. rewrite <- Hlen.
    destruct (10 <? length appended)%nat eqn:Hc; [done |].
    apply Nat.ltb_ge in Hc.
    by replace (length appended - 10)%nat with 0%nat by lia. }
  cbn [conversation set_conversation registry bedrock_agent_client agent_id].
  rewrite Hkept. unfold appended.
  rewrite drop_app_le by lia. by rewrite <- app_assoc.
Qed.

Lemma last_cons_any {A} (l : list A) : forall x d d',
  List.last (x :: l) d = List.last (x :: l) d'.
Proof.
  induction l as [|y l IH]; intros x d d'; [done |].
  change (List.last (x :: y :: l) d) with (List.last (y :: l) d).
  change (List.last (x :: y :: l) d') with (List.last (y :: l) d').
  apply IH.
Qed.

(** X17. Over any number of turns the conversation grows by two entries
    a turn until it holds 11 and stays there: after [n >= 1] calls of
    [query] on a log of [k] entries it holds [min (k + 2 n) 11] entries,
    the last two being the user's message and the assistant's answer of
    the last turn.  The registry and the Bedrock client are the same
    after every turn. *)
Theorem conversation_after_turns
    (sup : SupervisorAgent) (first : string) (more : list string)
    (w : world) :
  exists (sup' : SupervisorAgent) (w' : world)
         (front : list json) (response : string),
    run_queries sup (first :: more) w = (Ok sup', w') /\
    length (conversation sup')
      = Nat.min (length (conversation sup) + 2 * S (length more)) 11 /\
    conversation sup'
      = front ++ [entry "user" (List.last more first);
                  entry "assistant" response] /\
    registry sup' = registry sup /\
    bedrock_agent_client sup' = bedrock_agent_client sup.
Proof.
  revert sup first w.
  induction more as [|second more IH]; intros sup first w.
  - destruct (query_turn sup first w)
      as (response & sup1 & w1 & Hq & Hconv & Hreg & Hcl & _).
    exists sup1, w1. eexists _, response.
    cbn [run_queries]. unfold bind, ret. rewrite Hq. cbn [snd].
    split; [done |]. split; [| by split].
    rewrite Hconv, length_app, length_drop. cbn [length List.length]. lia.
  - destruct (query_turn sup first w)
      as (response1 & sup1 & w1 & Hq & Hconv1 & Hreg1 & Hcl1 & _).
    destruct (IH sup1 second w1)
      as (sup' & w' & front & response & Hrun & Hlen & Hconv & Hreg & Hcl).
    exists sup', w', front, response.
    change (run_queries sup (first :: second :: more) w)
      with (bind (query sup first)
                 (fun out => run_queries out.2 (second :: more)) w).
    unfold bind at 1. rewrite Hq. cbn [snd].
    split; [exact Hrun |]. split; [| split; [| split; congruence]].
    + rewrite Hlen, Hconv1, length_app, length_drop.
      cbn [length List.length]. lia.
    + rewrite Hconv. do 3 f_equal.
      destruct more as [|third more]; [done |].
      change (List.last (second :: third :: more) first)
        with (List.last (third :: more) first).
      apply last_cons_any.
Qed.

(** *** The reply to a task request *)

Lemma to_message_run r recipient w :
  exists ts mid w',
    to_message r recipient w =
      (Ok {| sender_id := resp_agent_id r; recipient_id := recipient;
             message_type := JStr "task_response";
             content := response_asdict r;
             timestamp := JStr ts; message_id := JStr mid |}, w').
Proof. by eexists _, _, _. Qed.

Lemma respond_to_task_shape sup t w r w' :
  respond_to_task sup t w = (Ok r, w') ->
  resp_task_id r = task_id t /\
  resp_agent_id r = JStr (agent_id sup) /\
  (resp_status r = JStr "completed" \/ resp_status r = JStr "failed").
Proof.
  unfold respond_to_task.
  destruct (description t) as [| | |text| |]; try by unfold raise.
  destruct (route_query (registry sup) text) as [target|].
  2:{ intros [= <- _]. cbn. auto. }
  destruct (negb (String.eqb target "") && _).
  2:{ intros [= <- _]. cbn. auto. }
  unfold bind.
  destruct (delegate_task_returns sup t target w) as (v & w1 & ->).
  intros [= <- _]. cbn. destruct (truthy v); auto.
Qed.

Lemma task_request_of_kwargs_id data w t w' :
  task_request_of_kwargs data w = (Ok t, w') ->
  exists members,
    data = JObj members /\
    forall given, dict_get "task_id" members = Some given ->
                  truthy given = true -> task_id t = given.
Proof.
  unfold task_request_of_kwargs, bind, lift_result.
  destruct data as [| | | | |members]; try done.
  cbn [check_keys]. destruct (unexpected_key _ members); [done |].
  unfold kwarg.
  destruct (dict_get "task_id" members) as [tid|] eqn:Htid; [| done].
  destruct (dict_get "description" members) as [desc|]; [| done].
  destruct (dict_get "parameters" members) as [params|]; [| done].
  destruct (dict_get "requester_id" members) as [requester|]; [| done].
  intros Hrun. exists members. split; [done |].
  intros given Hg Htruthy. rewrite Htid in Hg. injection Hg as <-.
  destruct (dict_get "target_capability" members),
           (dict_get "priority" members);
    unfold new_task_request, bind, ret in Hrun; rewrite Htruthy in Hrun;
    by injection Hrun as <- _.
Qed.

(** X18. When [handle_task_request] returns, it returns a message (never
    [None]) of type [task_response], sent by the supervisor and addressed
    to the sender of the request, with a new timestamp and id.  Its
    content has the five fields of a [TaskResponse], a status that is
    "completed" or "failed", the supervisor as agent, and the task id of
    the request when that id is not empty. *)
Theorem reply_is_addressed_to_the_requester
    (sup : SupervisorAgent) (message : AgentMessage) (w w' : world)
    (out : option AgentMessage) :
  handle_task_request sup message w = (Ok out, w') ->
  exists (reply : AgentMessage) (tid result error : json)
         (status ts mid : string),
    out = Some reply /\
    reply = {| sender_id := JStr (agent_id sup);
               recipient_id := sender_id message;
               message_type := JStr "task_response";
               content := JObj [("task_id", tid); ("status", JStr status);
                                ("result", result); ("error", error);
                                ("agent_id", JStr (agent_id sup))];
               timestamp := JStr ts; message_id := JStr mid |} /\
    (status = "completed" \/ status = "failed") /\
    exists members,
      content message = JObj members /\
      forall given, dict_get "task_id" members = Some given ->
                    truthy given = true -> tid = given.
Proof.
  unfold handle_task_request. unfold bind at 1.
  destruct (task_request_of_kwargs (content message) w)
    as [[t | e] w1] eqn:Ht; [| done].
  unfold bind at 1.
  destruct (respond_to_task sup t w1) as [[r | e] w2] eqn:Hr; [| done].
  unfold bind at 1.
  destruct (to_message_run r (sender_id message) w2)
    as (ts & mid & w3 & ->).
  unfold ret. intros [= <- _].
  destruct (respond_to_task_shape sup t w1 r w2 Hr) as (Hid & Hag & Hst).
  destruct (task_request_of_kwargs_id _ _ _ _ Ht) as (members & Hm & Hgiven).
  destruct r as [rid rstatus rresult rerror ragent]. cbn in *. subst.
  destruct Hst as [-> | ->].
  - eexists _, _, _, _, "completed", ts, mid.
    split; [done |]. split; [done |]. split; [by left |]. by exists members.
  - eexists _, _, _, _, "failed", ts, mid.
    split; [done |]. split; [done |]. split; [by right |]. by exists members.
Qed.

Lemma reply_is_addressed_witness :
  exists (reply : AgentMessage) (tid result error : json)
         (status ts mid : string),
    Some {| sender_id := JStr "supervisor-001";
            recipient_id := JStr "client-007";
            message_type := JStr "task_response";
            content := JObj [("task_id", JStr "t-1");
                             ("status", JStr "failed");
                             ("result", JStr ""); ("error", JNull);
                             ("agent_id", JStr "supervisor-001")];
            timestamp := JStr "2025-01-01T00:00:00";
            message_id := JStr "00000000-0000-4000-8000-000000000000" |}
      = Some reply /\
    reply = {| sender_id := JStr (agent_id demo_supervisor);
               recipient_id := sender_id demo_task_message;
               message_type := JStr "task_response";
               content := JObj [("task_id", tid); ("status", JStr status);
                                ("result", result); ("error", error);
                                ("agent_id", JStr (agent_id demo_supervisor))];
               timestamp := JStr ts; message_id := JStr mid |} /\
    (status = "completed" \/ status = "failed") /\
    exists members,
      content demo_task_message = JObj members /\
      forall given, dict_get "task_id" members = Some given ->
                    truthy given = true -> tid = given.
Proof.
  eapply (reply_is_addressed_to_the_requester demo_supervisor
            demo_task_message empty_result_world).
  vm_compute. reflexivity.
Defined.

End FanOutFacts.

(** ** a2a_protocol.py: responses, cards and handlers *)

Module ExchangeFacts.
Import Json JsonFacts Registry Bedrock Protocol Supervisor SupervisorFacts.

(** *** A response sent as a message *)

Lemma task_response_of_kwargs_asdict r :
  task_response_of_kwargs (response_asdict r) = Ok r.
Proof. by destruct r. Qed.

(** The class of a key: what two spellings of one key have in common. *)
Definition key_class (k : json) : option (unit + Z + string) :=
  match k with
  | JNull => Some (inl (inl tt))
  | JStr s => Some (inr s)
  | _ => match key_number k with
         | Some n => Some (inl (inr n))
         | None => None
         end
  end.

Lemma key_eqb_class a b :
  key_eqb a b = true <-> key_class a = key_class b /\ unhashable a = None.
Proof.
  destruct a as [|[]| | | |], b as [|[]| | | |]; cbn -[Z.eqb String.eqb];
    rewrite ?Z.eqb_eq, ?String.eqb_eq;
    (split;
     [ intros H; try discriminate H; subst; done
     | intros [H1 H2]; try discriminate H2; try discriminate H1;
       try injection H1 as H1; subst; done ]).
Qed.

Lemma key_eqb_refl k : unhashable k = None -> key_eqb k k = true.
Proof. intros Hk. by apply key_eqb_class. Qed.

Lemma history_get_set_eq k v history :
  unhashable k = None -> history_get k (history_set k v history) = Some v.
Proof.
  intros Hk. induction history as [|[k' v'] history IH]; cbn.
  - by rewrite key_eqb_refl.
  - destruct (key_eqb k k') eqn:He; cbn; by rewrite He.
Qed.

Lemma history_get_set_ne k j v history :
  key_eqb j k = false ->
  history_get j (history_set k v history) = history_get j history.
Proof.
  intros Hne. induction history as [|[k' v'] history IH]; cbn.
  - by rewrite Hne.
  - destruct (key_eqb k k') eqn:He; cbn; [| by rewrite IH].
    destruct (key_eqb j k') eqn:Hj; [| done].
    apply key_eqb_class in He as [He _], Hj as [Hj Hh].
    assert (key_eqb j k = true) by (apply key_eqb_class; split; congruence).
    congruence.
Qed.

(** X19. A response sent with [to_message] and received by
    [handle_task_response] is recorded as it was: the content of the
    message rebuilds the response field by field, and the history then
    answers the task id with that response, leaving the entries of all
    other task ids as they were.  For a task id that is a list or a
    dictionary the handler raises instead. *)
Theorem response_is_recorded_under_its_task_id
    (r : TaskResponse) (recipient : json)
    (task_history : list (json * TaskResponse)) (w : world) :
  exists (m : AgentMessage) (w' : world),
    to_message r recipient w = (Ok m, w') /\
    task_response_of_kwargs (content m) = Ok r /\
    match unhashable (resp_task_id r) with
    | Some ty =>
        handle_task_response task_history m
        = Raise (Exception ("unhashable type: '" +:+ ty +:+ "'"))
    | None =>
        exists task_history',
          handle_task_response task_history m = Ok task_history' /\
          history_get (resp_task_id r) task_history' = Some r /\
          forall k, key_eqb k (resp_task_id r) = false ->
                    history_get k task_history' = history_get k task_history
    end.
Proof.
  destruct (FanOutFacts.to_message_run r recipient w) as (ts & mid & w' & Hm).
  eexists _, w'. split; [exact Hm |].
  cbn [content]. rewrite task_response_of_kwargs_asdict. split; [done |].
  unfold handle_task_response. cbn [content].
  rewrite task_response_of_kwargs_asdict.
  destruct (unhashable (resp_task_id r)) eqn:Hk; [done |].
  eexists. split; [done |]. split.
  - by apply history_get_set_eq.
  - intros k Hne. by apply history_get_set_ne.
Qed.

(** *** Agent cards *)

Lemma card_of_kwargs_asdict c : card_of_kwargs (card_asdict c) = Ok c.
Proof. by destruct c. Qed.

(** X20. An agent card survives the JSON round trip: for every card
    whose fields are JSON values, [from_json (to_json c)] is [c], field
    by field. *)
Theorem card_from_json_to_json (c : AgentCard) :
  json_wf (card_asdict c) = true ->
  card_from_json (card_to_json c) = Ok c.
Proof.
  intros Hwf. unfold card_from_json, card_to_json.
  rewrite (loads_dumps _ Hwf). apply card_of_kwargs_asdict.
Qed.

Lemma get_agent_card_wf sup : json_wf (card_asdict (get_agent_card sup)) = true.
Proof. reflexivity. Qed.

Lemma card_from_json_to_json_witness :
  json_wf (card_asdict (get_agent_card demo_supervisor)) = true /\
  card_from_json (card_to_json (get_agent_card demo_supervisor))
  = Ok (get_agent_card demo_supervisor).
Proof.
  split; [reflexivity |].
  apply (card_from_json_to_json (get_agent_card demo_supervisor)).
  reflexivity.
Defined.

(** X21. The card the supervisor publishes about itself survives the JSON
    round trip whatever the supervisor's id and name are, and carries
    the defaults of the class for its version and status. *)
Theorem supervisor_card_round_trip (sup : SupervisorAgent) :
  card_from_json (card_to_json (get_agent_card sup)) = Ok (get_agent_card sup)
  /\
  card_of_kwargs
    (JObj [("agent_id", JStr (agent_id sup)); ("name", JStr (name sup));
           ("description",
            JStr "Supervisor agent that routes tasks to specialized agents");
           ("capabilities",
            JArr [JStr "task_routing"; JStr "agent_coordination";
                  JStr "workflow_management";
                  JStr "multi_agent_orchestration"]);
           ("agent_type", JStr "SupervisorAgent")])
  = Ok (get_agent_card sup).
Proof.
  split; [| done].
  unfold card_from_json, card_to_json.
  rewrite (loads_dumps _ (get_agent_card_wf sup)).
  apply card_of_kwargs_asdict.
Qed.

(** *** Handlers *)

(** X22. [handle_message] runs the handler that was registered last for
    the type of the message and no other: registering a handler changes
    the answer to the messages of its type only, and a message of a
    type without a handler is answered with [None] and has no effect. *)
Theorem handle_message_runs_the_registered_handler
    (message_handlers : list (string * handler)) (mtype received : string)
    (h : handler) (message : AgentMessage) (w : world) :
  message_type message = JStr received ->
  handle_message (register_handler message_handlers mtype h) message w
  = (if String.eqb mtype received then h message w
     else handle_message message_handlers message w) /\
  (dict_get received message_handlers = None ->
   handle_message message_handlers message w = (Ok None, w)).
Proof.
  intros Ht. unfold handle_message, register_handler. rewrite Ht. split.
  - destruct (String.eqb mtype received) eqn:He.
    + apply String.eqb_eq in He as ->. by rewrite dict_get_set_eq.
    + apply String.eqb_neq in He. by rewrite dict_get_set_ne.
  - by intros ->.
Qed.

Lemma handle_message_witness :
  handle_message
    (register_handler [] "task_request" (handle_task_request demo_supervisor))
    demo_task_message empty_result_world
  = (if String.eqb "task_request" "task_request"
     then handle_task_request demo_supervisor demo_task_message
            empty_result_world
     else handle_message [] demo_task_message empty_result_world) /\
  (dict_get "task_request" (@nil (string * handler)) = None ->
   handle_message [] demo_task_message empty_result_world
   = (Ok None, empty_result_world)).
Proof.
  apply (handle_message_runs_the_registered_handler [] "task_request"
           "task_request" (handle_task_request demo_supervisor)
           demo_task_message empty_result_world).
  reflexivity.
Defined.

End ExchangeFacts.

(** ** bedrock_agent/client.py: what the answer of the agent looks like *)

Module StreamFacts.
Import Bedrock SupervisorFacts FanOutFacts.

(** *** Reversal and white space *)

Lemma rev_app_acc s : forall acc,
  String.rev_app s acc = String.rev s +:+ acc.
Proof.
  unfold String.rev.
  induction s as [|a s IH]; intros acc; cbn [String.rev_app].
  - by rewrite str_app_nil_l.
  - rewrite (IH (String a acc)), (IH (String a "")).
    by rewrite str_app_assoc, str_app_cons, str_app_nil_l.
Qed.

Lemma rev_cons a s : String.rev (String a s) = String.rev s +:+ String a "".
Proof. unfold String.rev at 1. cbn [String.rev_app]. apply rev_app_acc. Qed.

Lemma rev_snoc s a : String.rev (s +:+ String a "") = String a (String.rev s).
Proof.
  induction s as [|b s IH]; [by rewrite str_app_nil_l |].
  by rewrite str_app_cons, !rev_cons, IH, str_app_cons.
Qed.

Lemma rev_involutive s : String.rev (String.rev s) = s.
Proof.
  induction s as [|a s IH]; [done |]. by rewrite rev_cons, rev_snoc, IH.
Qed.

Lemma length_snoc s a :
  String.length (s +:+ String a "") = S (String.length s).
Proof.
  induction s as [|b s IH]; [by rewrite str_app_nil_l |].
  rewrite str_app_cons. cbn [String.length]. by rewrite IH.
Qed.

Lemma length_rev s : String.length (String.rev s) = String.length s.
Proof.
  induction s as [|a s IH]; [done |].
  rewrite rev_cons, length_snoc. cbn [String.length]. by rewrite IH.
Qed.

Lemma length_lstrip s : (String.length (lstrip s) <= String.length s)%nat.
Proof.
  induction s as [|a s IH]; [done |]. cbn [lstrip].
  destruct (is_space a); cbn [String.length]; lia.
Qed.

(** [s.rstrip()] *)
Definition rstrip (s : string) : string :=
  String.rev (lstrip (String.rev s)).

Lemma length_rstrip s : (String.length (rstrip s) <= String.length s)%nat.
Proof.
  unfold rstrip. rewrite length_rev.
  etrans; [apply length_lstrip |]. by rewrite length_rev.
Qed.

Lemma lstrip_idem s : lstrip (lstrip s) = lstrip s.
Proof.
  induction s as [|a s IH]; [done |]. cbn [lstrip].
  destruct (is_space a) eqn:Ha; [done |]. cbn [lstrip]. by rewrite Ha.
Qed.

Lemma rstrip_idem s : rstrip (rstrip s) = rstrip s.
Proof. unfold rstrip. by rewrite rev_involutive, lstrip_idem. Qed.

(** A text that [lstrip] leaves alone does not start with white space,
    and conversely. *)
Lemma lstrip_fixed_head s :
  lstrip s = s <-> forall c rest, s = String c rest -> is_space c = false.
Proof.
  split.
  - intros Hfix c rest ->. cbn [lstrip] in Hfix.
    destruct (is_space c); [| done].
    pose proof (length_lstrip rest) as Hlen. rewrite Hfix in Hlen.
    cbn [String.length] in Hlen. lia.
  - destruct s as [|c rest]; [done |]. intros Hc. cbn [lstrip].
    by rewrite (Hc c rest).
Qed.

Lemma lstrip_snoc s c :
  is_space c = false ->
  exists kept, lstrip (s +:+ String c "") = kept +:+ String c "".
Proof.
  intros Hc. induction s as [|a s IH].
  - exists "". rewrite !str_app_nil_l. cbn [lstrip]. by rewrite Hc.
  - rewrite str_app_cons. cbn [lstrip]. destruct (is_space a); [exact IH |].
    exists (String a s). by rewrite str_app_cons.
Qed.

Lemma lstrip_rstrip_fixed s : lstrip s = s -> lstrip (rstrip s) = rstrip s.
Proof.
  intros Hfix. destruct s as [|c rest]; [done |].
  assert (Hc : is_space c = false) by (by eapply lstrip_fixed_head).
  unfold rstrip. rewrite rev_cons.
  destruct (lstrip_snoc (String.rev rest) c Hc) as [kept ->].
  rewrite rev_snoc. cbn [lstrip]. by rewrite Hc.
Qed.

Lemma strip_unfold s : strip s = rstrip (lstrip s).
Proof. done. Qed.

Lemma strip_idem s : strip (strip s) = strip s.
Proof.
  rewrite !strip_unfold.
  rewrite (lstrip_rstrip_fixed (lstrip s)) by apply lstrip_idem.
  apply rstrip_idem.
Qed.

Lemma rstrip_fixed_last s pre c :
  rstrip s = s -> s = pre +:+ String c "" -> is_space c = false.
Proof.
  intros Hfix ->. unfold rstrip in Hfix. rewrite rev_snoc in Hfix.
  cbn [lstrip] in Hfix. destruct (is_space c); [| done].
  pose proof (length_lstrip (String.rev pre)) as Hlen.
  apply (f_equal String.length) in Hfix.
  rewrite length_rev, length_snoc in Hfix. rewrite length_rev in Hlen. lia.
Qed.

(** *** The answer of [query] *)

Lemma collect_chunks_join events : forall acc,
  collect_chunks events acc = acc +:+ join "" (stream_chunks events).
Proof.
  assert (Hjoin : forall t ts, join "" (t :: ts) = t +:+ join "" ts).
  { intros t [|t' ts]; cbn [join]; [by rewrite str_app_empty_r |].
    by rewrite str_app_nil_l. }
  induction events as [|[[text|]|] events IH]; intros acc;
    cbn [collect_chunks stream_chunks].
  - cbn [join]. by rewrite str_app_empty_r.
  - by rewrite IH, Hjoin, str_app_assoc.
  - apply IH.
  - apply IH.
Qed.

(** X23. [query] returns a text only when the agent delivered its event
    stream.  The text is the concatenation of the chunks that carry
    bytes, in the order of the stream, without the white space around
    it: it starts and ends with a character that is not white space,
    or is empty.  One invocation is logged, with the message given. *)
Theorem query_answer_is_stripped
    (c : BedrockAgentClient) (user_message : json) (w w' : world)
    (text : string) :
  query c user_message w = (Ok text, w') ->
  exists events,
    bedrock_oracle w (length (bedrock_log w)) user_message
      = BedrockStream events /\
    text = strip (join "" (stream_chunks events)) /\
    strip text = text /\
    (forall first rest, text = String first rest -> is_space first = false) /\
    (forall front last, text = front +:+ String last "" ->
                        is_space last = false) /\
    w' = add_bedrock w [user_message].
Proof.
  unfold query, _generate_session_id, uuid4, draw, bind, bedrock_invoke,
    ret, raise. cbn.
  destruct (bedrock_oracle w (length (bedrock_log w)) user_message)
    as [events | code message | e | events code message | events e];
    [| done ..].
  intros [= <- <-]. exists events. rewrite collect_chunks_join, str_app_nil_l.
  set (s := join "" (stream_chunks events)).
  split_and!; [done | done | apply strip_idem | | | done].
  - apply lstrip_fixed_head. rewrite strip_unfold.
    apply lstrip_rstrip_fixed, lstrip_idem.
  - intros front last. apply rstrip_fixed_last.
    rewrite strip_unfold. apply rstrip_idem.
Qed.

Lemma query_answer_witness :
  exists events,
    bedrock_oracle silent_reconciler_world
      (length (bedrock_log silent_reconciler_world)) (JStr "how do I rebase?")
      = BedrockStream events /\
    "Use git rebase -i." = strip (join "" (stream_chunks events)) /\
    strip "Use git rebase -i." = "Use git rebase -i." /\
    (forall first rest, "Use git rebase -i." = String first rest ->
                        is_space first = false) /\
    (forall front last, "Use git rebase -i." = front +:+ String last "" ->
                        is_space last = false) /\
    add_bedrock silent_reconciler_world [JStr "how do I rebase?"]
      = add_bedrock silent_reconciler_world [JStr "how do I rebase?"].
Proof.
  apply (query_answer_is_stripped demo_client (JStr "how do I rebase?")
           silent_reconciler_world).
  reflexivity.
Defined.

(** The chunks with bytes an invocation delivers before it ends or
    fails. *)
Definition delivered (outcome : bedrock_outcome) : list string :=
  match outcome with
  | BedrockStream events
  | BedrockStreamClientError events _ _
  | BedrockStreamFails events _ => stream_chunks events
  | BedrockClientError _ _
  | BedrockFails _ => []
  end.

Lemma client_error_notice_marked c code message :
  String.prefix warning_sign (client_error_notice c code message) = true \/
  String.prefix cross_mark (client_error_notice c code message) = true.
Proof.
  unfold client_error_notice.
  destruct (String.eqb code "ThrottlingException");
    [| destruct (String.eqb code "ValidationException");
       [| destruct (String.eqb code "ResourceNotFoundException")]].
  - left. apply prefix_app. by eexists.
  - right. apply prefix_app. by eexists.
  - right. apply prefix_app. by eexists.
  - right. apply prefix_app. by eexists.
Qed.

(** X24. [query_stream] never raises; it logs one invocation and draws
    its session id.  It yields the chunks that carry bytes, in the order
    in which the stream delivers them.  When the stream is delivered to
    its end that is all, and [query] on the same stream returns the
    concatenation of these texts without the white space around it.
    When the call fails, or the stream fails after some chunks, [query]
    raises and the generator yields, after the chunks delivered so far,
    one more text, which starts with the warning sign or the cross
    mark. *)
Theorem query_stream_yields_what_query_joins
    (c : BedrockAgentClient) (user_message : json) (w : world) :
  let outcome := bedrock_oracle w (length (bedrock_log w)) user_message in
  exists texts,
    query_stream c user_message w = (Ok texts, add_bedrock w [user_message]) /\
    match (query c user_message w).1 with
    | Ok text => texts = delivered outcome /\ text = strip (join "" texts)
    | Raise _ =>
        exists notice,
          texts = delivered outcome ++ [notice] /\
          (String.prefix warning_sign notice = true \/
           String.prefix cross_mark notice = true)
    end.
Proof.
  unfold query_stream, query, _generate_session_id, uuid4, draw, bind,
    bedrock_invoke, ret, raise. cbn.
  destruct (bedrock_oracle w (length (bedrock_log w)) user_message)
    as [events | code message | e | events code message | events e];
    cbn [fst delivered].
  - eexists. split; [done |]. split; [done |].
    by rewrite collect_chunks_join, str_app_nil_l.
  - eexists. split; [done |]. eexists. split; [done |].
    apply client_error_notice_marked.
  - eexists. split; [done |]. eexists. split; [done |].
    right. apply prefix_app. by eexists.
  - eexists. split; [done |]. eexists. split; [done |].
    apply client_error_notice_marked.
  - eexists. split; [done |]. eexists. split; [done |].
    right. apply prefix_app. by eexists.
Qed.

(** A stream that fails after two chunks: the generator yields both and
    then the notice, where [query] raises. *)
Example query_stream_after_a_broken_stream :
  let w :=
    {| http_log := []; http_oracle := fun _ _ => HttpFails (Exception "down");
       bedrock_log := [];
       bedrock_oracle := fun _ _ =>
         BedrockStreamFails [EvChunk (Some "Use "); EvOther;
                             EvChunk (Some "git rebase")]
                            (Exception "Connection reset");
       ids_drawn := 0; uuid_source := fun _ => "id"; clock := fun _ => "now" |}
  in
  (query_stream demo_client (JStr "how do I rebase?") w).1
    = Ok ["Use "; "git rebase"; cross_mark +:+ " Error: Connection reset"] /\
  (query demo_client (JStr "how do I rebase?") w).1
    = Raise (Exception "Error calling Bedrock agent: Connection reset").
Proof. vm_compute. done. Qed.

End StreamFacts.

(** ** The request of the chat client (supervisor-agent/client.py) *)

Module ChatFacts.
Import ChatClient.

(** The messages the loop of [chat] sets aside: the ones whose role is
    the text [system]. *)
Definition is_system (msg : json) : bool :=
  match subscript msg "role" with
  | Ok role => role_is_system role
  | Raise _ => false
  end.

Definition demo_chat : list json :=
  [ JObj [("role", JStr "system"); ("content", JStr "ignored")];
    JObj [("role", JStr "user"); ("content", JStr "hi")];
    JObj [("role", JStr "system"); ("content", JStr "Be brief")] ].

Definition demo_chat_body : json :=
  JObj [ ("anthropic_version", JStr "bedrock-2023-05-31");
         ("max_tokens", JInt 4000);
         ("messages",
          JArr [JObj [("role", JStr "user"); ("content", JStr "hi")]]);
         ("system", JStr "Be brief") ].

Lemma split_messages_spec (messages : list json) :
  forall (system0 : json) (users0 : list json) (system : json)
         (users : list json),
    split_messages messages system0 users0 = Ok (system, users) ->
    users = users0 ++ List.filter (fun m => negb (is_system m)) messages /\
    match last (List.filter is_system messages) with
    | Some m => subscript m "content" = Ok system
    | None => system = system0
    end.
Proof.
  induction messages as [|msg rest IH]; intros system0 users0 system users.
  - cbn. intros [= <- <-]. by rewrite app_nil_r.
  - cbn [split_messages List.filter].
    assert (Hsys : is_system msg =
                   match subscript msg "role" with
                   | Ok role => role_is_system role
                   | Raise _ => false
                   end) by reflexivity.
    destruct (subscript msg "role") as [role|e]; [|done].
    rewrite Hsys. destruct (role_is_system role); cbn [negb].
    + destruct (subscript msg "content") as [text|e] eqn:Htext; [|done].
      intros H. apply IH in H as [-> H]. split; [done|].
      rewrite last_cons.
      destruct (last (List.filter is_system rest)); [done|].
      by rewrite Htext, H.
    + intros H. apply IH in H as [-> H]. split; [|done].
      by rewrite <- app_assoc.
Qed.

(** X25. When [chat] gets as far as building its request, the body has
    the three fixed fields followed by [system] only when the content of
    the last system message is truthy; [messages] holds the messages whose
    role is not [system], in their order, and the single greeting
    [hello] when there is none. *)
Theorem chat_request_body (messages : list json) (body : json) :
  request_body messages = Ok body ->
  let users := List.filter (fun m => negb (is_system m)) messages in
  exists system : json,
    match last (List.filter is_system messages) with
    | Some m => subscript m "content" = Ok system
    | None => system = JStr ""
    end /\
    body =
      JObj ([ ("anthropic_version", JStr "bedrock-2023-05-31");
              ("max_tokens", JInt 4000);
              ("messages",
               JArr match users with [] => [hello] | _ :: _ => users end) ]
            ++ (if truthy system then [("system", system)] else [])).
Proof.
  unfold request_body.
  destruct (split_messages messages (JStr "") []) as [[system users]|e]
    eqn:Hsplit; [|done].
  apply split_messages_spec in Hsplit as [Hu Hs]. cbn [app] in Hu.
  intros [= <-]. cbn zeta. exists system. split; [exact Hs|].
  rewrite <- Hu. by destruct (truthy system), users.
Qed.

Lemma chat_request_body_witness :
  request_body demo_chat = Ok demo_chat_body /\
  exists system : json,
    match last (List.filter is_system demo_chat) with
    | Some m => subscript m "content" = Ok system
    | None => system = JStr ""
    end /\
    demo_chat_body =
      JObj ([ ("anthropic_version", JStr "bedrock-2023-05-31");
              ("max_tokens", JInt 4000);
              ("messages",
               JArr match List.filter (fun m => negb (is_system m)) demo_chat
                    with [] => [hello] | _ :: _ =>
                      List.filter (fun m => negb (is_system m)) demo_chat
                    end) ]
            ++ (if truthy system then [("system", system)] else [])).
Proof.
  split; [reflexivity |].
  apply (chat_request_body demo_chat demo_chat_body).
  reflexivity.
Defined.

End ChatFacts.
